(** * Earthquake OLAP showcase: the load tracker, the transformer, the
    star-schema builder and the cubes

    A shallow embedding of
      - [src/utils/data_manager.py]      (class [DataManager]),
      - [src/etl/transform.py]           (class [DataTransformer]),
      - [src/etl/extract.py]             ([extract_multiple_csv]),
      - [src/etl/download.py]            ([_create_date_chunks]),
      - [src/olap/schema.py]             (class [OLAPSchema]),
      - [src/olap/cube.py]               (class [OLAPCube]),
      - [scripts/run_etl_incremental.py] (the orchestration),
    followed by the properties of these functions.

    Conventions.
      - Python [int] is [Z]; a Python [set] of years is a [gset Z]; the
        [year_details] dictionary is a [gmap string _] keyed by [str(year)],
        which is [pretty] on [Z].
      - A SQL or Polars nullable column is an [option]; [None] is NULL.
      - DOUBLE columns are exact rationals ([Qc]); BIGINT columns are [Z],
        and the cast to the 32-bit INTEGER raises outside its range.
      - A table is the list of its rows in the order in which they are
        stored. [ORDER BY] is a stable sort, [DISTINCT ON] keeps the row of a
        key that comes first, and a query reads its tables in stored order;
        the engine's parallel execution is not part of the model.
      - A statement that raises is [None]. *)

From Stdlib Require Import QArith Qcanon.
From stdpp Require Import gmap strings list sorting pretty.

Local Open Scope Z_scope.

(** ** [data_manager.py]: persisted metadata *)

(** One entry of [year_details]; every key of the dictionary is optional
    because [get_summary] reads it with [details.get("row_count", 0)]. *)
Record year_detail := YearDetail {
  row_count : option Z;
  file_size_bytes : option Z;
  date_range : option (string * string);
  loaded_at : option string
}.

(** The JSON document of [metadata.json]; a key that is absent is [None]. *)
Record metadata := Metadata {
  loaded_years : option (list Z);
  year_details : option (gmap string year_detail);
  last_updated : option string;
  created_at : option string
}.

(** The state of the file [metadata.json] on disk. *)
Inductive metadata_file :=
  | FileMissing
  | FileUnreadable
  | FileStored (m : metadata).

(** [_load_metadata]; [now] is the reading of [datetime.now().isoformat()]. *)
Definition _load_metadata (now : string) (f : metadata_file) : metadata :=
  match f with
  | FileMissing =>
      {| loaded_years := Some []; year_details := Some ∅;
         last_updated := None; created_at := Some now |}
  | FileUnreadable =>
      {| loaded_years := Some []; year_details := Some ∅;
         last_updated := None; created_at := None |}
  | FileStored m => m
  end.

(** [_save_metadata] *)
Definition _save_metadata (m : metadata) : metadata_file := FileStored m.

(** [metadata.get("loaded_years", [])] *)
Definition get_loaded_list (m : metadata) : list Z := default [] (loaded_years m).

(** [get_loaded_years] *)
Definition get_loaded_years (now : string) (f : metadata_file) : gset Z :=
  list_to_set (get_loaded_list (_load_metadata now f)).

(** Python's [sorted] on integers. *)
Definition sorted (l : list Z) : list Z := merge_sort Z.le l.

(** [set(range(start_year, end_year + 1))] *)
Definition requested_years (start_year end_year : Z) : gset Z :=
  list_to_set (seqZ start_year (end_year + 1 - start_year)).

(** [get_years_to_load] *)
Definition get_years_to_load (now : string) (f : metadata_file)
    (start_year end_year : Z) : list Z :=
  let requested := requested_years start_year end_year in
  let loaded := get_loaded_years now f in
  sorted (elements (requested ∖ loaded)).

(** [mark_year_loaded] *)
Definition mark_year_loaded (now : string) (f : metadata_file) (year : Z)
    : metadata_file :=
  let m := _load_metadata now f in
  let ly := get_loaded_list m in
  let ly' := if decide (year ∈ ly) then ly else sorted (ly ++ [year]) in
  _save_metadata
    {| loaded_years := Some ly'; year_details := year_details m;
       last_updated := Some now; created_at := created_at m |}.

(** [record_year_details]: [{**details, "loaded_at": now}] stored under
    [str(year)]. *)
Definition record_year_details (now : string) (f : metadata_file) (year : Z)
    (details : year_detail) : metadata_file :=
  let m := _load_metadata now f in
  let yd := default ∅ (year_details m) in
  let entry := {| row_count := row_count details;
                  file_size_bytes := file_size_bytes details;
                  date_range := date_range details;
                  loaded_at := Some now |} in
  _save_metadata
    {| loaded_years := loaded_years m;
       year_details := Some (<[pretty year := entry]> yd);
       last_updated := last_updated m; created_at := created_at m |}.

(** [get_year_info] *)
Definition get_year_info (now : string) (f : metadata_file) (year : Z)
    : option year_detail :=
  default ∅ (year_details (_load_metadata now f)) !! pretty year.

(** The dictionary returned by [get_summary]; the keys [loaded_years] and
    [last_updated] are absent from the early return. *)
Record summary := Summary {
  total_years : Z;
  year_range : option (Z * Z);
  summary_loaded_years : option (list Z);
  gaps : list (Z * Z);
  total_events : Z;
  summary_last_updated : option (option string)
}.

(** The gap loop of [get_summary]:
    [for i in range(len(loaded_years) - 1)], reading [loaded_years[i]] and
    [loaded_years[i + 1]]. *)
Definition gap_at (l : list Z) (i : nat) : list (Z * Z) :=
  match l !! i, l !! S i with
  | Some a, Some b =>
      let gap_size := b - a - 1 in
      if decide (0 < gap_size) then [(a + 1, b - 1)] else []
  | _, _ => []
  end.

Definition compute_gaps (l : list Z) : list (Z * Z) :=
  i ← seq 0 (length l - 1)%nat; gap_at l i.

(** Python's [min] and [max] of a non-empty list. *)
Definition list_min (x : Z) (l : list Z) : Z := foldr Z.min x l.
Definition list_max (x : Z) (l : list Z) : Z := foldr Z.max x l.

(** [get_summary] *)
Definition get_summary (now : string) (f : metadata_file) : summary :=
  let m := _load_metadata now f in
  match get_loaded_list m with
  | [] =>
      {| total_years := 0; year_range := None; summary_loaded_years := None;
         gaps := []; total_events := 0; summary_last_updated := None |}
  | y :: ys =>
      let yd := default ∅ (year_details m) in
      {| total_years := Z.of_nat (length (y :: ys));
         year_range := Some (list_min y ys, list_max y ys);
         summary_loaded_years := Some (y :: ys);
         gaps := compute_gaps (y :: ys);
         total_events :=
           map_fold (λ _ d acc, acc + default 0 (row_count d)) 0 yd;
         summary_last_updated := Some (last_updated m) |}
  end.

(** [clear_year] *)
Fixpoint list_remove_first (y : Z) (l : list Z) : list Z :=
  match l with
  | [] => []
  | x :: l' => if decide (x = y) then l' else x :: list_remove_first y l'
  end.

Definition clear_year (now : string) (f : metadata_file) (year : Z)
    : metadata_file :=
  let m := _load_metadata now f in
  _save_metadata
    {| loaded_years := list_remove_first year <$> loaded_years m;
       year_details := delete (pretty year) <$> year_details m;
       last_updated := last_updated m; created_at := created_at m |}.

(** [reset_all] *)
Definition reset_all (now : string) : metadata_file :=
  _save_metadata
    {| loaded_years := Some []; year_details := Some ∅;
       last_updated := Some now; created_at := None |}.

(** *** The live store as [validate_loaded_years] sees it *)

(** What [conn.execute("SELECT COUNT( * ) FROM t").fetchone()] does: it
    raises (the table is absent or the query errors), or it returns no row,
    or it returns the count. *)
Inductive count_probe :=
  | ProbeRaises
  | ProbeNone
  | ProbeCount (n : Z).

Definition connection := string → count_probe.

(** [f"raw_earthquakes_{year}"] *)
Definition year_table (year : Z) : string := "raw_earthquakes_" +:+ pretty year.

(** The body of the [try] block: [result and result[0] > 0]; the bare
    [except: pass] turns a raise into "not loaded". *)
Definition probe_year (conn : connection) (year : Z) : bool :=
  match conn (year_table year) with
  | ProbeCount n => bool_decide (0 < n)
  | ProbeNone => false
  | ProbeRaises => false
  end.

(** [for year in missing_years: if str(year) in d: del d[str(year)]] *)
Definition purge_details (missing : gset Z) (d : gmap string year_detail)
    : gmap string year_detail :=
  foldr (λ year d, delete (pretty year) d) d (elements missing).

(** [validate_loaded_years]: the returned list and the file afterwards. *)
Definition validate_loaded_years (now : string) (f : metadata_file)
    (conn : connection) : list Z * metadata_file :=
  let m := _load_metadata now f in
  let claimed_years : gset Z := list_to_set (get_loaded_list m) in
  let actual_years : gset Z := filter (λ y, probe_year conn y = true) claimed_years in
  let missing_years := claimed_years ∖ actual_years in
  let f' :=
    if decide (missing_years = ∅) then f
    else _save_metadata
           {| loaded_years := Some (sorted (elements actual_years));
              year_details := purge_details missing_years <$> year_details m;
              last_updated := last_updated m; created_at := created_at m |} in
  (sorted (elements actual_years), f').

(** ** SQL and data-frame vocabulary *)

(** A DOUBLE literal [num / den]. *)
Definition dbl (num : Z) (den : positive) : Qc := Q2Qc (num # den).

(** [COALESCE(x, d)] and Polars' [fill_null(d)]. *)
Definition COALESCE {A} (x : option A) (d : A) : A := default d x.

(** [x = y] in a join or filter condition: NULL on either side is not true. *)
Definition sql_eq `{EqDecision A} (x y : option A) : bool :=
  match x, y with
  | Some a, Some b => bool_decide (a = b)
  | _, _ => false
  end.

(** [ORDER BY a, b]: the lexicographic order of a pair of columns. *)
Definition lex_le {A B} (RA : relation A) (RB : relation B) : relation (A * B) :=
  λ p q, p.1 ≠ q.1 ∧ RA p.1 q.1 ∨ p.1 = q.1 ∧ RB p.2 q.2.

(** Ascending order of a nullable column; the engine's default puts NULL
    last. *)
Definition nulls_last {A} (R : relation A) : relation (option A) :=
  λ x y,
    match x, y with
    | Some a, Some b => R a b
    | _, None => True
    | None, Some _ => False
    end.

(** [ORDER BY f(row)] under an order of the sort key. *)
Definition order_by {A K} (R : relation K) (key : A → K) : relation A :=
  λ x y, R (key x) (key y).

Global Instance lex_le_dec {A B} (RA : relation A) (RB : relation B)
  `{!EqDecision A, !RelDecision RA, !RelDecision RB} : RelDecision (lex_le RA RB).
Proof. intros p q. unfold lex_le. apply _. Defined.

Global Instance nulls_last_dec {A} (R : relation A) `{!RelDecision R} :
  RelDecision (nulls_last R).
Proof. intros [a|] [b|]; simpl; apply _. Defined.

Global Instance order_by_dec {A K} (R : relation K) (key : A → K)
  `{!RelDecision R} : RelDecision (order_by R key).
Proof. intros x y. unfold order_by. apply _. Defined.

(** [ORDER BY] as a stable sort: rows that tie on the ordering columns keep
    the order in which they arrive. [insert_sorted R x l] puts [x] in front
    of the first row of [l] it does not come after. *)
Fixpoint insert_sorted {A} (R : relation A) `{!RelDecision R} (x : A)
    (l : list A) : list A :=
  match l with
  | [] => [x]
  | y :: l' => if decide (R x y) then x :: l else y :: insert_sorted R x l'
  end.

Definition stable_sort {A} (R : relation A) `{!RelDecision R} (l : list A)
    : list A :=
  foldr (insert_sorted R) [] l.

(** [ROW_NUMBER() OVER (ORDER BY ...)]: the rows in window order, numbered
    from 1. *)
Definition row_number {A} (R : relation A) `{!RelDecision R} (l : list A)
    : list (Z * A) :=
  imap (λ i x, (Z.of_nat i + 1, x)) (stable_sort R l).

(** [SELECT DISTINCT] over whole rows. *)
Definition DISTINCT `{EqDecision A} (l : list A) : list A := remove_dups l.

(** [SELECT DISTINCT ON (key) * ... ORDER BY key]: the rows in the order of
    the key, the first row of every key kept; among the rows of one key that
    is the one that arrives first. *)
Fixpoint first_per_key {A K} `{EqDecision K} (key : A → K) (seen : list K)
    (l : list A) : list A :=
  match l with
  | [] => []
  | x :: l' =>
      if decide (key x ∈ seen) then first_per_key key seen l'
      else x :: first_per_key key (key x :: seen) l'
  end.

Definition DISTINCT_ON {A K} `{EqDecision K} (key : A → K) (R : relation K)
    `{!RelDecision R} (l : list A) : list A :=
  first_per_key key [] (stable_sort (order_by R key) l).

(** [t LEFT JOIN d ON cond]: the matching rows of [d], or one NULL row. *)
Definition left_join {D} (cond : D → bool) (d : list D) : list (option D) :=
  match List.filter cond d with
  | [] => [None]
  | ms => Some <$> ms
  end.

(** ** [transform.py]: the frame and the raw table *)

(** A row of the frame handed to [transform], columns under the names
    [_standardize_columns] gives them. *)
Record frame_row := FrameRow {
  in_time : option string;
  in_latitude : option Qc;
  in_longitude : option Qc;
  in_depth : option Qc;
  in_magnitude : option Qc;
  in_magnitude_type : option string;
  in_num_stations : option Z;
  in_azimuthal_gap : option Qc;
  in_min_distance : option Qc;
  in_rms : option Qc;
  in_network : option string;
  in_event_id : option string;
  in_place : option string;
  in_event_type : option string;
  in_horizontal_error : option Qc;
  in_depth_error : option Qc;
  in_magnitude_error : option Qc;
  in_status : option string
}.

(** A row of [raw_earthquakes], the columns the schema builder reads. The
    timestamp is in microseconds since the epoch. *)
Module Raw.
Record row := Row {
  event_id : option string;
  datetime : option Z;
  latitude : option Qc;
  longitude : option Qc;
  magnitude : option Qc;
  depth : option Qc;
  place : option string;
  region : option string;
  magnitude_type : option string;
  num_stations : option Z;
  azimuthal_gap : option Qc;
  min_distance : option Qc;
  rms : option Qc;
  horizontal_error : option Qc;
  depth_error : option Qc;
  magnitude_error : option Qc;
  network : option string;
  status : option string;
  event_type : option string;
  moon_phase : option Qc;
  moon_phase_name : option string;
  magnitude_category : option string;
  depth_category : option string;
  year : option Z;
  month : option Z;
  day : option Z;
  hour : option Z;
  day_of_week : option Z
}.
End Raw.

(** [self.validation_config], a dictionary read with [.get(key, default)]. *)
Record validation_config := ValidationConfig {
  min_magnitude : option Qc;
  max_magnitude : option Qc;
  min_depth : option Qc;
  max_depth : option Qc
}.

(** [_standardize_columns] only renames columns. *)
Definition _standardize_columns (df : list frame_row) : list frame_row := df.

(** [drop_nulls(subset=["time", "latitude", "longitude", "magnitude"])] *)
Definition critical_present (r : frame_row) : Prop :=
  is_Some (in_time r) ∧ is_Some (in_latitude r) ∧
  is_Some (in_longitude r) ∧ is_Some (in_magnitude r).

Global Instance critical_present_dec r : Decision (critical_present r).
Proof. unfold critical_present. apply _. Defined.

Definition fill_depth_place (r : frame_row) : frame_row :=
  {| in_time := in_time r; in_latitude := in_latitude r;
     in_longitude := in_longitude r;
     in_depth := Some (COALESCE (in_depth r) (dbl 0 1));
     in_magnitude := in_magnitude r;
     in_magnitude_type := in_magnitude_type r;
     in_num_stations := in_num_stations r;
     in_azimuthal_gap := in_azimuthal_gap r;
     in_min_distance := in_min_distance r; in_rms := in_rms r;
     in_network := in_network r; in_event_id := in_event_id r;
     in_place := Some (COALESCE (in_place r) "Unknown");
     in_event_type := in_event_type r;
     in_horizontal_error := in_horizontal_error r;
     in_depth_error := in_depth_error r;
     in_magnitude_error := in_magnitude_error r;
     in_status := in_status r |}.

(** [_clean_data] *)
Definition _clean_data (df : list frame_row) : list frame_row :=
  fill_depth_place <$> filter critical_present df.

(** A Polars filter [(col >= lo) & (col <= hi)]: a null value fails it. *)
Definition within (lo hi : Qc) (x : option Qc) : Prop :=
  match x with
  | Some v => (lo ≤ v)%Qc ∧ (v ≤ hi)%Qc
  | None => False
  end.

Global Instance within_dec lo hi x : Decision (within lo hi x).
Proof. destruct x; simpl; apply _. Defined.

Definition magnitude_valid (cfg : validation_config) (r : frame_row) : Prop :=
  within (COALESCE (min_magnitude cfg) (dbl (-2) 1))
         (COALESCE (max_magnitude cfg) (dbl 10 1)) (in_magnitude r).

Definition depth_valid (cfg : validation_config) (r : frame_row) : Prop :=
  within (COALESCE (min_depth cfg) (dbl (-10) 1))
         (COALESCE (max_depth cfg) (dbl 1000 1)) (in_depth r).

Definition coordinates_valid (r : frame_row) : Prop :=
  within (dbl (-90) 1) (dbl 90 1) (in_latitude r) ∧
  within (dbl (-180) 1) (dbl 180 1) (in_longitude r).

Global Instance magnitude_valid_dec cfg r : Decision (magnitude_valid cfg r).
Proof. unfold magnitude_valid. apply _. Defined.
Global Instance depth_valid_dec cfg r : Decision (depth_valid cfg r).
Proof. unfold depth_valid. apply _. Defined.
Global Instance coordinates_valid_dec r : Decision (coordinates_valid r).
Proof. unfold coordinates_valid. apply _. Defined.

(** [_validate_data] *)
Definition _validate_data (cfg : validation_config) (df : list frame_row)
    : list frame_row :=
  filter coordinates_valid
    (filter (depth_valid cfg) (filter (magnitude_valid cfg) df)).

(** [pl.when(c1).then(v1). ... .otherwise(v)] over thresholds of one column:
    the first bound the value is below decides; a null value is below none. *)
Fixpoint when_below (x : option Qc) (cases : list (Qc * string))
    (otherwise : string) : string :=
  match cases with
  | [] => otherwise
  | (bound, v) :: cases' =>
      match x with
      | Some a => if decide (a < bound)%Qc then v
                  else when_below x cases' otherwise
      | None => when_below x cases' otherwise
      end
  end.

Definition magnitude_category_of (magnitude : option Qc) : string :=
  when_below magnitude
    [(dbl 3 1, "Minor"); (dbl 5 1, "Light"); (dbl 6 1, "Moderate");
     (dbl 7 1, "Strong"); (dbl 8 1, "Major")] "Great".

Definition depth_category_of (depth : option Qc) : string :=
  when_below depth [(dbl 70 1, "Shallow"); (dbl 300 1, "Intermediate")] "Deep".

(** [str.split(" of ").list.last()]: the text after the last separator of a
    left-to-right split. [skip] counts the characters of a separator still
    to be passed over. *)
Fixpoint string_drop (n : nat) (s : string) : string :=
  match n, s with
  | S n', String _ s' => string_drop n' s'
  | _, _ => s
  end.

Fixpoint split_last_go (skip : nat) (cur : string) (s : string) : string :=
  match s with
  | EmptyString => cur
  | String _ s' =>
      match skip with
      | S k => split_last_go k cur s'
      | O =>
          if String.prefix " of " s
          then split_last_go 3 (string_drop 4 s) s'
          else split_last_go 0 cur s'
      end
  end.

Definition split_last (s : string) : string := split_last_go 0 s s.

(** The name of a phase fraction in [_add_moon_phase]. *)
Definition moon_phase_name_of (phase_value : Qc) : string :=
  if decide ((phase_value < dbl 625 10000)%Qc ∨ (dbl 9375 10000 ≤ phase_value)%Qc)
  then "New Moon"
  else if decide ((dbl 625 10000 ≤ phase_value)%Qc ∧ (phase_value < dbl 1875 10000)%Qc)
  then "Waxing Crescent"
  else if decide ((dbl 1875 10000 ≤ phase_value)%Qc ∧ (phase_value < dbl 3125 10000)%Qc)
  then "First Quarter"
  else if decide ((dbl 3125 10000 ≤ phase_value)%Qc ∧ (phase_value < dbl 4375 10000)%Qc)
  then "Waxing Gibbous"
  else if decide ((dbl 4375 10000 ≤ phase_value)%Qc ∧ (phase_value < dbl 5625 10000)%Qc)
  then "Full Moon"
  else if decide ((dbl 5625 10000 ≤ phase_value)%Qc ∧ (phase_value < dbl 6875 10000)%Qc)
  then "Waning Gibbous"
  else if decide ((dbl 6875 10000 ≤ phase_value)%Qc ∧ (phase_value < dbl 8125 10000)%Qc)
  then "Last Quarter"
  else "Waning Crescent".

Section transform.
(** The library calls of the transformer. [strptime] is
    [str.strptime(pl.Datetime, "%Y-%m-%dT%H:%M:%S%.3fZ")], [None] where it
    raises; the calendar accessors are Polars' [dt] namespace;
    [moon_phase_degrees] is [almanac.moon_phase(eph, t).degrees], [None]
    where the computation raises. *)
Variable strptime : string → option Z.
Variables dt_year dt_month dt_day dt_hour dt_weekday : Z → Z.
Variable moon_phase_degrees : Z → option Qc.

(** One row of [_enrich_data]; [None] when parsing the time raises. A null
    time stays null. *)
Definition enrich_row (r : frame_row) : option Raw.row :=
  dt ← match in_time r with
       | Some s => Some <$> strptime s
       | None => Some None
       end;
  Some
    {| Raw.event_id := in_event_id r;
       Raw.datetime := dt;
       Raw.latitude := in_latitude r;
       Raw.longitude := in_longitude r;
       Raw.magnitude := in_magnitude r;
       Raw.depth := in_depth r;
       Raw.place := in_place r;
       Raw.region := split_last <$> in_place r;
       Raw.magnitude_type := in_magnitude_type r;
       Raw.num_stations := in_num_stations r;
       Raw.azimuthal_gap := in_azimuthal_gap r;
       Raw.min_distance := in_min_distance r;
       Raw.rms := in_rms r;
       Raw.horizontal_error := in_horizontal_error r;
       Raw.depth_error := in_depth_error r;
       Raw.magnitude_error := in_magnitude_error r;
       Raw.network := in_network r;
       Raw.status := in_status r;
       Raw.event_type := in_event_type r;
       Raw.moon_phase := None;
       Raw.moon_phase_name := None;
       Raw.magnitude_category := Some (magnitude_category_of (in_magnitude r));
       Raw.depth_category := Some (depth_category_of (in_depth r));
       Raw.year := dt_year <$> dt;
       Raw.month := dt_month <$> dt;
       Raw.day := dt_day <$> dt;
       Raw.hour := dt_hour <$> dt;
       Raw.day_of_week := dt_weekday <$> dt |}.

(** [_enrich_data] *)
Definition _enrich_data (df : list frame_row) : option (list Raw.row) :=
  mapM enrich_row df.

(** The loop body of [_add_moon_phase]: the phase and its name; the
    [except] branch gives [0.0] and ["Unknown"]. *)
Definition moon_of (dt : option Z) : Qc * string :=
  match dt ≫= moon_phase_degrees with
  | Some degrees =>
      let phase_value := (degrees / dbl 360 1)%Qc in
      (phase_value, moon_phase_name_of phase_value)
  | None => (dbl 0 1, "Unknown")
  end.

Definition add_moon_row (r : Raw.row) : Raw.row :=
  let m := moon_of (Raw.datetime r) in
  {| Raw.event_id := Raw.event_id r;
     Raw.datetime := Raw.datetime r;
     Raw.latitude := Raw.latitude r;
     Raw.longitude := Raw.longitude r;
     Raw.magnitude := Raw.magnitude r;
     Raw.depth := Raw.depth r;
     Raw.place := Raw.place r;
     Raw.region := Raw.region r;
     Raw.magnitude_type := Raw.magnitude_type r;
     Raw.num_stations := Raw.num_stations r;
     Raw.azimuthal_gap := Raw.azimuthal_gap r;
     Raw.min_distance := Raw.min_distance r;
     Raw.rms := Raw.rms r;
     Raw.horizontal_error := Raw.horizontal_error r;
     Raw.depth_error := Raw.depth_error r;
     Raw.magnitude_error := Raw.magnitude_error r;
     Raw.network := Raw.network r;
     Raw.status := Raw.status r;
     Raw.event_type := Raw.event_type r;
     Raw.moon_phase := Some m.1;
     Raw.moon_phase_name := Some m.2;
     Raw.magnitude_category := Raw.magnitude_category r;
     Raw.depth_category := Raw.depth_category r;
     Raw.year := Raw.year r;
     Raw.month := Raw.month r;
     Raw.day := Raw.day r;
     Raw.hour := Raw.hour r;
     Raw.day_of_week := Raw.day_of_week r |}.

(** [_add_moon_phase] *)
Definition _add_moon_phase (df : list Raw.row) : list Raw.row :=
  add_moon_row <$> df.

(** [transform]: the transformed frame and [removed_rows], the count the
    warning reports. [None] when [_enrich_data] raises. *)
Definition transform (cfg : validation_config) (df : list frame_row)
    : option (list Raw.row * Z) :=
  let initial_rows := length df in
  let df := _standardize_columns df in
  let df := _clean_data df in
  let df := _validate_data cfg df in
  df ← _enrich_data df;
  let df := _add_moon_phase df in
  let final_rows := length df in
  Some (df, Z.of_nat initial_rows - Z.of_nat final_rows).
End transform.

(** [load_raw_data]: [CREATE TABLE raw_earthquakes AS SELECT * FROM df]. *)
Definition load_raw_data (df : list Raw.row) : list Raw.row := df.

(** ** [schema.py]: the star schema *)

Module DimTime.
Record row := Row {
  time_id : Z;
  datetime : Z;
  date : Z;
  year : option Z;
  month : option Z;
  day : option Z;
  hour : option Z;
  day_of_week : option Z;
  day_name : option string;
  season : string;
  is_weekend : bool
}.
End DimTime.

Module DimLocation.
Record row := Row {
  location_id : Z;
  latitude : Qc;
  longitude : Qc;
  place : string;
  region : string;
  hemisphere_ns : string;
  hemisphere_ew : string;
  climate_zone : string
}.
End DimLocation.

(** [energy_joules], a floating-point power of the magnitude alone, is not
    carried. *)
Module DimMagnitude.
Record row := Row {
  magnitude_id : Z;
  magnitude : Qc;
  magnitude_category : option string;
  magnitude_type : string;
  effects_description : string
}.
End DimMagnitude.

Module Fact.
Record row := Row {
  earthquake_id : option string;
  time_id : option Z;
  location_id : option Z;
  magnitude_id : option Z;
  event_id : option string;
  depth : Qc;
  depth_category : string;
  num_stations : Z;
  azimuthal_gap : Qc;
  min_distance : Qc;
  rms : Qc;
  horizontal_error : Qc;
  depth_error : Qc;
  magnitude_error : Qc;
  network : string;
  status : string;
  event_type : string;
  moon_phase : Qc;
  moon_phase_name : string
}.
End Fact.

Global Instance raw_row_eq_dec : EqDecision Raw.row.
Proof. solve_decision. Defined.
Global Instance dim_time_row_eq_dec : EqDecision DimTime.row.
Proof. solve_decision. Defined.
Global Instance dim_location_row_eq_dec : EqDecision DimLocation.row.
Proof. solve_decision. Defined.
Global Instance dim_magnitude_row_eq_dec : EqDecision DimMagnitude.row.
Proof. solve_decision. Defined.
Global Instance fact_row_eq_dec : EqDecision Fact.row.
Proof. solve_decision. Defined.

(** *** [_create_dim_time] *)

(** A row of the subquery
    [SELECT DISTINCT datetime, year, month, day, hour, day_of_week
     FROM raw_earthquakes WHERE datetime IS NOT NULL]. *)
Definition time_key : Type :=
  Z * (option Z * option Z * option Z * option Z * option Z).

Definition time_key_of (r : Raw.row) : option time_key :=
  dt ← Raw.datetime r;
  Some (dt, (Raw.year r, Raw.month r, Raw.day r, Raw.hour r, Raw.day_of_week r)).

Definition time_keys (raw : list Raw.row) : list time_key :=
  DISTINCT (omap time_key_of raw).

(** [ORDER BY datetime] *)
Definition time_order : relation time_key := order_by Z.le fst.

(** [CASE day_of_week WHEN 1 THEN 'Monday' ... END], NULL without a match. *)
Definition day_name_of (day_of_week : option Z) : option string :=
  match day_of_week with
  | Some 1 => Some "Monday"
  | Some 2 => Some "Tuesday"
  | Some 3 => Some "Wednesday"
  | Some 4 => Some "Thursday"
  | Some 5 => Some "Friday"
  | Some 6 => Some "Saturday"
  | Some 7 => Some "Sunday"
  | _ => None
  end.

(** [x IN (a, b, c)] as a [CASE] condition: NULL is not true. *)
Definition sql_in (x : option Z) (vs : list Z) : bool :=
  match x with
  | Some v => bool_decide (v ∈ vs)
  | None => false
  end.

Definition season_of (month : option Z) : string :=
  if sql_in month [12; 1; 2] then "Winter"
  else if sql_in month [3; 4; 5] then "Spring"
  else if sql_in month [6; 7; 8] then "Summer"
  else "Fall".

(** [DATE_TRUNC('day', datetime)] on microseconds since the epoch. *)
Definition date_trunc_day (dt : Z) : Z := dt `div` 86400000000 * 86400000000.

Definition dim_time_row (nk : Z * time_key) : DimTime.row :=
  let '(n, (dt, (y, mo, d, h, dow))) := nk in
  {| DimTime.time_id := n; DimTime.datetime := dt;
     DimTime.date := date_trunc_day dt;
     DimTime.year := y; DimTime.month := mo; DimTime.day := d;
     DimTime.hour := h; DimTime.day_of_week := dow;
     DimTime.day_name := day_name_of dow;
     DimTime.season := season_of mo;
     DimTime.is_weekend := sql_in dow [6; 7] |}.

(** The table [dim_time]: the numbered subquery rows, [SELECT DISTINCT],
    [ORDER BY datetime]. *)
Definition _create_dim_time (raw : list Raw.row) : list DimTime.row :=
  stable_sort (order_by Z.le DimTime.datetime)
    (DISTINCT (dim_time_row <$> row_number time_order (time_keys raw))).

(** *** [_create_dim_location] *)

(** A row of the subquery
    [SELECT DISTINCT latitude, longitude, COALESCE(place, 'Unknown'),
     COALESCE(region, 'Unknown') ... WHERE latitude IS NOT NULL AND
     longitude IS NOT NULL]. *)
Definition location_key : Type := Qc * Qc * string * string.

Definition location_key_of (r : Raw.row) : option location_key :=
  lat ← Raw.latitude r;
  lon ← Raw.longitude r;
  Some (lat, lon, COALESCE (Raw.place r) "Unknown",
        COALESCE (Raw.region r) "Unknown").

Definition location_keys (raw : list Raw.row) : list location_key :=
  DISTINCT (omap location_key_of raw).

(** [ORDER BY latitude, longitude, place, region] *)
Definition location_order : relation location_key :=
  lex_le (lex_le (lex_le Qcle Qcle) String.le) String.le.

(** [x BETWEEN lo AND hi] *)
Definition between (x lo hi : Qc) : Prop := (lo ≤ x)%Qc ∧ (x ≤ hi)%Qc.

Definition climate_zone_of (latitude : Qc) : string :=
  if decide (between latitude (dbl (-235) 10) (dbl 235 10)) then "Tropical"
  else if decide (between latitude (dbl 235 10) (dbl 665 10) ∨
                  between latitude (dbl (-665) 10) (dbl (-235) 10))
  then "Temperate"
  else "Polar".

Definition dim_location_row (nk : Z * location_key) : DimLocation.row :=
  let '(n, (lat, lon, place, region)) := nk in
  {| DimLocation.location_id := n;
     DimLocation.latitude := lat; DimLocation.longitude := lon;
     DimLocation.place := place; DimLocation.region := region;
     DimLocation.hemisphere_ns :=
       if decide (dbl 0 1 ≤ lat)%Qc then "Northern" else "Southern";
     DimLocation.hemisphere_ew :=
       if decide (dbl 0 1 ≤ lon)%Qc then "Eastern" else "Western";
     DimLocation.climate_zone := climate_zone_of lat |}.

Definition _create_dim_location (raw : list Raw.row) : list DimLocation.row :=
  DISTINCT (dim_location_row <$> row_number location_order (location_keys raw)).

(** *** [_create_dim_magnitude] *)

(** A row of the subquery
    [SELECT DISTINCT magnitude, COALESCE(magnitude_type, 'Unknown'),
     magnitude_category ... WHERE magnitude IS NOT NULL], columns in the
    order of the [ORDER BY]. *)
Definition magnitude_key : Type := Qc * string * option string.

Definition magnitude_key_of (r : Raw.row) : option magnitude_key :=
  mag ← Raw.magnitude r;
  Some (mag, COALESCE (Raw.magnitude_type r) "Unknown", Raw.magnitude_category r).

Definition magnitude_keys (raw : list Raw.row) : list magnitude_key :=
  DISTINCT (omap magnitude_key_of raw).

(** [ORDER BY magnitude, magnitude_type, magnitude_category] *)
Definition magnitude_order : relation magnitude_key :=
  lex_le (lex_le Qcle String.le) (nulls_last String.le).

Definition effects_description_of (magnitude : Qc) : string :=
  when_below (Some magnitude)
    [(dbl 2 1, "Micro - Not felt");
     (dbl 3 1, "Minor - Rarely felt");
     (dbl 4 1, "Light - Often felt, rarely causes damage");
     (dbl 5 1, "Moderate - Notable shaking, slight damage");
     (dbl 6 1, "Strong - Can cause damage in populated areas");
     (dbl 7 1, "Major - Serious damage over large areas");
     (dbl 8 1, "Great - Serious damage over very large areas")]
    "Epic - Devastating over extremely large areas".

Definition dim_magnitude_row (nk : Z * magnitude_key) : DimMagnitude.row :=
  let '(n, (mag, mtype, mcat)) := nk in
  {| DimMagnitude.magnitude_id := n;
     DimMagnitude.magnitude := mag;
     DimMagnitude.magnitude_category := mcat;
     DimMagnitude.magnitude_type := mtype;
     DimMagnitude.effects_description := effects_description_of mag |}.

Definition _create_dim_magnitude (raw : list Raw.row) : list DimMagnitude.row :=
  DISTINCT (dim_magnitude_row <$> row_number magnitude_order (magnitude_keys raw)).

(** *** [_create_fact_earthquakes] *)

(** The [ON] conditions of the three joins. *)
Definition on_time (r : Raw.row) (t : DimTime.row) : bool :=
  sql_eq (Raw.datetime r) (Some (DimTime.datetime t)).

Definition on_location (r : Raw.row) (l : DimLocation.row) : bool :=
  sql_eq (Raw.latitude r) (Some (DimLocation.latitude l))
  && sql_eq (Raw.longitude r) (Some (DimLocation.longitude l))
  && bool_decide (COALESCE (Raw.place r) "Unknown" = DimLocation.place l)
  && bool_decide (COALESCE (Raw.region r) "Unknown" = DimLocation.region l).

Definition on_magnitude (r : Raw.row) (m : DimMagnitude.row) : bool :=
  sql_eq (Raw.magnitude r) (Some (DimMagnitude.magnitude m))
  && bool_decide (COALESCE (Raw.magnitude_type r) "Unknown"
                  = DimMagnitude.magnitude_type m)
  && sql_eq (Raw.magnitude_category r) (DimMagnitude.magnitude_category m).

(** The [WHERE] clause. *)
Definition prerequisites (r : Raw.row) : Prop :=
  is_Some (Raw.datetime r) ∧ is_Some (Raw.latitude r) ∧
  is_Some (Raw.longitude r) ∧ is_Some (Raw.magnitude r).

Global Instance prerequisites_dec r : Decision (prerequisites r).
Proof. unfold prerequisites. apply _. Defined.

(** A row of [raw_earthquakes r LEFT JOIN dim_time t LEFT JOIN dim_location l
    LEFT JOIN dim_magnitude m]. *)
Definition joined_row : Type :=
  Raw.row * option DimTime.row * option DimLocation.row *
  option DimMagnitude.row.

Definition fact_from (dim_time : list DimTime.row)
    (dim_location : list DimLocation.row)
    (dim_magnitude : list DimMagnitude.row) (raw : list Raw.row)
    : list joined_row :=
  r ← raw;
  t ← left_join (on_time r) dim_time;
  l ← left_join (on_location r) dim_location;
  m ← left_join (on_magnitude r) dim_magnitude;
  [(r, t, l, m)].

(** [CAST(x AS INTEGER)] of a BIGINT column: NULL stays NULL, a value of the
    32-bit range stays as it is, and any other value raises, [None]. *)
Definition CAST_INTEGER (x : option Z) : option (option Z) :=
  match x with
  | None => Some None
  | Some v =>
      if decide (-2147483648 ≤ v ≤ 2147483647) then Some (Some v) else None
  end.

(** The [SELECT] list, given the value of [CAST(r.num_stations AS INTEGER)].
    The casts to DOUBLE are to the type the columns are carried in. *)
Definition select_list (j : joined_row) (num_stations : option Z) : Fact.row :=
  let '(r, t, l, m) := j in
  {| Fact.earthquake_id := Raw.event_id r;
     Fact.time_id := DimTime.time_id <$> t;
     Fact.location_id := DimLocation.location_id <$> l;
     Fact.magnitude_id := DimMagnitude.magnitude_id <$> m;
     Fact.event_id := Raw.event_id r;
     Fact.depth := COALESCE (Raw.depth r) (dbl 0 1);
     Fact.depth_category := COALESCE (Raw.depth_category r) "Unknown";
     Fact.num_stations := COALESCE num_stations 0;
     Fact.azimuthal_gap := COALESCE (Raw.azimuthal_gap r) (dbl 0 1);
     Fact.min_distance := COALESCE (Raw.min_distance r) (dbl 0 1);
     Fact.rms := COALESCE (Raw.rms r) (dbl 0 1);
     Fact.horizontal_error := COALESCE (Raw.horizontal_error r) (dbl 0 1);
     Fact.depth_error := COALESCE (Raw.depth_error r) (dbl 0 1);
     Fact.magnitude_error := COALESCE (Raw.magnitude_error r) (dbl 0 1);
     Fact.network := COALESCE (Raw.network r) "Unknown";
     Fact.status := COALESCE (Raw.status r) "Unknown";
     Fact.event_type := COALESCE (Raw.event_type r) "Unknown";
     Fact.moon_phase := COALESCE (Raw.moon_phase r) (dbl 0 1);
     Fact.moon_phase_name := COALESCE (Raw.moon_phase_name r) "Unknown" |}.

(** One row of the [SELECT]; [None] where the cast of [num_stations]
    raises. *)
Definition fact_select (j : joined_row) : option Fact.row :=
  num_stations ← CAST_INTEGER (Raw.num_stations j.1.1.1);
  Some (select_list j num_stations).

(** The rows the [FROM] and [WHERE] clauses hand to the [SELECT] list. *)
Definition fact_where (dim_time : list DimTime.row)
    (dim_location : list DimLocation.row)
    (dim_magnitude : list DimMagnitude.row) (raw : list Raw.row)
    : list joined_row :=
  filter (λ j : joined_row, prerequisites j.1.1.1)
    (fact_from dim_time dim_location dim_magnitude raw).

(** The first statement: [CREATE TABLE fact_earthquakes AS SELECT ... FROM
    ... WHERE ...]; [None] when a cast raises, and no table is created. *)
Definition fact_query (dim_time : list DimTime.row)
    (dim_location : list DimLocation.row)
    (dim_magnitude : list DimMagnitude.row) (raw : list Raw.row)
    : option (list Fact.row) :=
  mapM fact_select (fact_where dim_time dim_location dim_magnitude raw).

(** [SELECT COUNT( * ) - COUNT(DISTINCT event_id)]; the second count skips
    NULL. *)
Definition count_duplicates (fact : list Fact.row) : Z :=
  Z.of_nat (length fact)
  - Z.of_nat (length (DISTINCT (omap Fact.event_id fact))).

(** [SELECT DISTINCT ON (event_id) * FROM fact ORDER BY event_id] *)
Definition deduplicate (fact : list Fact.row) : list Fact.row :=
  DISTINCT_ON Fact.event_id (nulls_last String.le) fact.

(** The statements after the first: the duplicate count and the conditional
    rewrite of the table. *)
Definition remove_duplicates (fact : list Fact.row) : list Fact.row :=
  let duplicates := count_duplicates fact in
  if decide (0 < duplicates) then deduplicate fact else fact.

(** [_create_fact_earthquakes]: the table it leaves; [None] when the first
    statement raises, after [DROP TABLE IF EXISTS] has removed the table. *)
Definition _create_fact_earthquakes (dim_time : list DimTime.row)
    (dim_location : list DimLocation.row)
    (dim_magnitude : list DimMagnitude.row) (raw : list Raw.row)
    : option (list Fact.row) :=
  fact ← fact_query dim_time dim_location dim_magnitude raw;
  Some (remove_duplicates fact).

(** The tables [create_star_schema] leaves in the store. The three
    dimension tables are built before the fact table; [fact_table] is [None]
    when the fact build raises, and the store then holds no fact table. *)
Record star_schema := StarSchema {
  dim_time : list DimTime.row;
  dim_location : list DimLocation.row;
  dim_magnitude : list DimMagnitude.row;
  fact_table : option (list Fact.row)
}.

Definition create_star_schema (raw : list Raw.row) : star_schema :=
  let dt := _create_dim_time raw in
  let dl := _create_dim_location raw in
  let dm := _create_dim_magnitude raw in
  {| dim_time := dt; dim_location := dl; dim_magnitude := dm;
     fact_table := _create_fact_earthquakes dt dl dm raw |}.

(** The rows of [fact_earthquakes] in the store: those of the table, none
    where the store holds no such table. *)
Definition fact_earthquakes (s : star_schema) : list Fact.row :=
  default [] (fact_table s).

(** *** Sample rows *)

Definition sample_row_at (lat : Z) (id : string) (t : Z) (dep : Z)
    (category : option string) : Raw.row :=
  {| Raw.event_id := Some id; Raw.datetime := Some t;
     Raw.latitude := Some (dbl lat 1); Raw.longitude := Some (dbl (-1176) 10);
     Raw.magnitude := Some (dbl 45 10); Raw.depth := Some (dbl dep 1);
     Raw.place := Some "10km NE of Ridgecrest, CA";
     Raw.region := Some "Ridgecrest, CA";
     Raw.magnitude_type := Some "ml"; Raw.num_stations := None;
     Raw.azimuthal_gap := None; Raw.min_distance := None; Raw.rms := None;
     Raw.horizontal_error := None; Raw.depth_error := None;
     Raw.magnitude_error := None; Raw.network := Some "ci";
     Raw.status := None; Raw.event_type := Some "earthquake";
     Raw.moon_phase := None; Raw.moon_phase_name := None;
     Raw.magnitude_category := category;
     Raw.depth_category := Some "Shallow";
     Raw.year := Some 2020; Raw.month := Some 1; Raw.day := Some 1;
     Raw.hour := Some 0; Raw.day_of_week := Some 3 |}.

Definition sample_row : string → Z → Z → option string → Raw.row :=
  sample_row_at 35.

(** ** Vocabulary of the statements *)

(** The claimed years whose backing table answers the probe with rows. *)
Definition passing_years (now : string) (f : metadata_file) (conn : connection)
    : gset Z :=
  filter (λ y, probe_year conn y = true) (get_loaded_years now f).

(** The list of loaded years a later call reads back from the file. *)
Definition stored_years (f : metadata_file) : list Z :=
  get_loaded_list (_load_metadata EmptyString f).

(** Metadata that claims 2020, 2021 and 2023, and a store that holds rows
    for 2020 and 2023 only. *)
Definition claims_2020_2021_2023 : metadata_file :=
  FileStored
    {| loaded_years := Some [2020; 2021; 2023];
       year_details :=
         Some {[ "2020" := YearDetail (Some 5) None None None;
                 "2021" := YearDetail (Some 3) None None None;
                 "2023" := YearDetail (Some 7) None None None ]};
       last_updated := None; created_at := None |}.

Definition store_2020_2023 : connection := λ t,
  if decide (t = "raw_earthquakes_2020") then ProbeCount 5
  else if decide (t = "raw_earthquakes_2023") then ProbeCount 7
  else ProbeRaises.

(** Metadata that claims 2021 over a store without any yearly table. *)
Definition claims_2021 : metadata_file :=
  FileStored
    {| loaded_years := Some [2021]; year_details := Some ∅;
       last_updated := None; created_at := None |}.

Definition empty_store : connection := λ _, ProbeRaises.

(** What the gap list of a loaded-years list has to be: every gap is a
    non-empty range of missing years bounded by loaded years on both sides,
    every missing year between two loaded years lies in a gap, and the gaps
    come in ascending order, a loaded year between any two. *)
Definition gaps_of_span (l : list Z) (gs : list (Z * Z)) : Prop :=
  (∀ a b, (a, b) ∈ gs →
     a ≤ b ∧ a - 1 ∈ l ∧ b + 1 ∈ l ∧ ∀ y, a ≤ y ≤ b → y ∉ l) ∧
  (∀ y lo hi, lo ∈ l → hi ∈ l → lo < y < hi → y ∉ l →
     ∃ a b, (a, b) ∈ gs ∧ a ≤ y ≤ b) ∧
  StronglySorted (λ g h : Z * Z, g.2 + 1 < h.1) gs.

(** The gap the loop records between two neighbours of the list. *)
Definition gap_between (a b : Z) : list (Z * Z) :=
  if decide (0 < b - a - 1) then [(a + 1, b - 1)] else [].

(** The (surrogate key, natural key) pairs of the three dimension tables. *)
Definition time_entry (d : DimTime.row) : Z * time_key :=
  (DimTime.time_id d,
   (DimTime.datetime d,
    (DimTime.year d, DimTime.month d, DimTime.day d, DimTime.hour d,
     DimTime.day_of_week d))).

Definition location_entry (d : DimLocation.row) : Z * location_key :=
  (DimLocation.location_id d,
   (DimLocation.latitude d, DimLocation.longitude d, DimLocation.place d,
    DimLocation.region d)).

Definition magnitude_entry (d : DimMagnitude.row) : Z * magnitude_key :=
  (DimMagnitude.magnitude_id d,
   (DimMagnitude.magnitude d, DimMagnitude.magnitude_type d,
    DimMagnitude.magnitude_category d)).

(** Surrogate keys assigned by sort position: [entries] holds one entry for
    every natural key that satisfies [is_key] and for no other, its
    surrogate keys are the numbers 1..N for the N entries, each once, and a
    smaller number never goes with a key that comes later in the order
    [R]. *)
Definition numbered_by_order {K} (R : relation K) (is_key : K → Prop)
    (entries : list (Z * K)) : Prop :=
  NoDup (entries.*2) ∧
  (∀ k, k ∈ entries.*2 ↔ is_key k) ∧
  entries.*1 ≡ₚ seqZ 1 (Z.of_nat (length entries)) ∧
  ∀ i x j y, (i, x) ∈ entries → (j, y) ∈ entries → i ≤ j → R x y.

(** Two raw rows of one datetime whose calendar columns differ in the
    year. *)
Definition sample_row_of_year (id : string) (t : Z) (year : Z) : Raw.row :=
  {| Raw.event_id := Some id; Raw.datetime := Some t;
     Raw.latitude := Some (dbl 35 1); Raw.longitude := Some (dbl (-1176) 10);
     Raw.magnitude := Some (dbl 45 10); Raw.depth := Some (dbl 5 1);
     Raw.place := Some "10km NE of Ridgecrest, CA";
     Raw.region := Some "Ridgecrest, CA";
     Raw.magnitude_type := Some "ml"; Raw.num_stations := None;
     Raw.azimuthal_gap := None; Raw.min_distance := None; Raw.rms := None;
     Raw.horizontal_error := None; Raw.depth_error := None;
     Raw.magnitude_error := None; Raw.network := Some "ci";
     Raw.status := None; Raw.event_type := Some "earthquake";
     Raw.moon_phase := None; Raw.moon_phase_name := None;
     Raw.magnitude_category := Some "Light";
     Raw.depth_category := Some "Shallow";
     Raw.year := Some year; Raw.month := Some 1; Raw.day := Some 1;
     Raw.hour := Some 0; Raw.day_of_week := Some 3 |}.

Definition two_calendars : list Raw.row :=
  [sample_row_of_year "usgs001" 100 2020;
   sample_row_of_year "usgs002" 100 2021].

(** Two raw rows of one magnitude and magnitude type, one with a NULL
    magnitude category and one with the category 'Unknown'. *)
Definition null_and_unknown : list Raw.row :=
  [sample_row "usgs001" 100 5 None;
   sample_row "usgs002" 200 5 (Some "Unknown")].

(** A sample raw row with the given station count; its status and moon
    phase are NULL. *)
Definition sample_row_with_stations (id : string) (t : Z)
    (num_stations : option Z) : Raw.row :=
  {| Raw.event_id := Some id; Raw.datetime := Some t;
     Raw.latitude := Some (dbl 35 1); Raw.longitude := Some (dbl (-1176) 10);
     Raw.magnitude := Some (dbl 45 10); Raw.depth := Some (dbl 5 1);
     Raw.place := Some "10km NE of Ridgecrest, CA";
     Raw.region := Some "Ridgecrest, CA";
     Raw.magnitude_type := Some "ml"; Raw.num_stations := num_stations;
     Raw.azimuthal_gap := None; Raw.min_distance := None; Raw.rms := None;
     Raw.horizontal_error := None; Raw.depth_error := None;
     Raw.magnitude_error := None; Raw.network := Some "ci";
     Raw.status := None; Raw.event_type := Some "earthquake";
     Raw.moon_phase := None; Raw.moon_phase_name := None;
     Raw.magnitude_category := Some "Light";
     Raw.depth_category := Some "Shallow";
     Raw.year := Some 2020; Raw.month := Some 1; Raw.day := Some 1;
     Raw.hour := Some 0; Raw.day_of_week := Some 3 |}.

(** A row with a NULL station count and a row with a station count past
    the 32-bit range. *)
Definition overflowing_rows : list Raw.row :=
  [sample_row_with_stations "usgs001" 100 None;
   sample_row_with_stations "usgs002" 200 (Some 2147483648)].

(** Metadata whose list of loaded years is not sorted. *)
Definition claims_2023_2020 : metadata_file :=
  FileStored
    {| loaded_years := Some [2023; 2020]; year_details := Some ∅;
       last_updated := None; created_at := None |}.

(** The rows the fact query derives from one raw row [r] against the
    dimension tables built from [raw]; none where the cast raises for
    [r]. *)
Definition fact_rows_of (raw : list Raw.row) (r : Raw.row) : list Fact.row :=
  omap fact_select
    (fact_where (_create_dim_time raw) (_create_dim_location raw)
       (_create_dim_magnitude raw) [r]).

(** The table the first statement of [_create_fact_earthquakes] creates,
    before the duplicate check; [None] when it raises. *)
Definition fact_before_dedup (raw : list Raw.row) : option (list Fact.row) :=
  fact_query (_create_dim_time raw) (_create_dim_location raw)
    (_create_dim_magnitude raw) raw.

(** A value [CAST(... AS INTEGER)] accepts. *)
Definition fits_integer (x : option Z) : Prop := is_Some (CAST_INTEGER x).

Global Instance fits_integer_dec x : Decision (fits_integer x).
Proof. unfold fits_integer. apply _. Defined.

(** Three raw rows, the first and the third under one event id with
    depths 5 and 9. *)
Definition three_rows : list Raw.row :=
  [sample_row "usgs001" 100 5 (Some "Light");
   sample_row "usgs002" 200 7 (Some "Light");
   sample_row "usgs001" 100 9 (Some "Light")].

(** A raw row that passes the prerequisites with a NULL magnitude
    category. *)
Definition uncategorised_row : Raw.row := sample_row "usgs003" 300 5 None.

(** [y] is the value of a nullable column [x] with NULL replaced by [d]. *)
Definition null_to {A} (d : A) (x : option A) (y : A) : Prop :=
  match x with
  | Some v => y = v
  | None => y = d
  end.

(** The calendar columns of the raw table are a function of [datetime], as
    [_enrich_data] derives them. *)
Definition calendar_by_datetime (raw : list Raw.row) : Prop :=
  ∀ r1 r2, r1 ∈ raw → r2 ∈ raw →
    Raw.datetime r1 = Raw.datetime r2 → time_key_of r1 = time_key_of r2.

(** A frame row the transformer keeps: its critical fields are present,
    its magnitude, depth and coordinates are in range, and its time
    parses. *)
Definition valid_frame_row (strptime : string → option Z)
    (cfg : validation_config) (r : frame_row) : Prop :=
  critical_present r ∧ magnitude_valid cfg r ∧
  depth_valid cfg (fill_depth_place r) ∧ coordinates_valid r ∧
  is_Some (in_time r ≫= strptime).

Global Instance valid_frame_row_dec strptime cfg r :
  Decision (valid_frame_row strptime cfg r).
Proof. unfold valid_frame_row. apply _. Defined.

(** A frame of two rows: a valid one, and one at latitude 95. *)
Definition frame_row_at (id : string) (lat : Z) : frame_row :=
  {| in_time := Some "2020-01-01T00:00:00.000Z";
     in_latitude := Some (dbl lat 1); in_longitude := Some (dbl (-1176) 10);
     in_depth := Some (dbl 5 1); in_magnitude := Some (dbl 45 10);
     in_magnitude_type := Some "ml"; in_num_stations := None;
     in_azimuthal_gap := None; in_min_distance := None; in_rms := None;
     in_network := Some "ci"; in_event_id := Some id;
     in_place := Some "10km NE of Ridgecrest, CA";
     in_event_type := Some "earthquake"; in_horizontal_error := None;
     in_depth_error := None; in_magnitude_error := None;
     in_status := None |}.

Definition default_validation : validation_config :=
  {| min_magnitude := None; max_magnitude := None;
     min_depth := None; max_depth := None |}.

(** Stand-ins for the library calls, for evaluating [transform]. *)
Definition sample_strptime (s : string) : option Z :=
  if decide (s = "2020-01-01T00:00:00.000Z") then Some 1577836800000000
  else None.
Definition sample_calendar (t : Z) : Z := 1.
Definition sample_moon (t : Z) : option Qc := None.

(** Two raw rows with different event ids and different times. *)
Definition two_rows : list Raw.row :=
  [sample_row "usgs001" 100 5 (Some "Light");
   sample_row "usgs002" 200 7 (Some "Light")].

(** * Further code: the orchestration and the extractor *)

(** ** [run_etl_incremental.py] *)

(** The tables of raw rows in the database file, by name: [raw_earthquakes]
    and the yearly [raw_earthquakes_<year>]. An absent name is a table that
    does not exist. The functions below touch no other table. *)

(** What a connection answers to [SELECT COUNT( * ) FROM t]. *)
Definition connect (store : gmap string (list Raw.row)) : connection :=
  λ t, match store !! t with
       | Some rows => ProbeCount (Z.of_nat (length rows))
       | None => ProbeRaises
       end.

(** The loop of [main] over [requested_years]:
    [if year not in loaded_years_set: years_to_process.append(year)]. *)
Definition years_to_process (requested : list Z) (loaded : gset Z) : list Z :=
  filter (λ year, year ∉ loaded) requested.

(** [list(range(start_year, end_year + 1))] *)
Definition year_range_list (start_year end_year : Z) : list Z :=
  seqZ start_year (end_year + 1 - start_year).

(** [cleanup_old_yearly_tables]: every table whose name starts with
    ["raw_earthquakes_"] is dropped; the second component is [dropped]. *)
Definition is_yearly_table (name : string) : Prop :=
  String.prefix "raw_earthquakes_" name = true.

Global Instance is_yearly_table_dec name : Decision (is_yearly_table name).
Proof. unfold is_yearly_table. apply _. Defined.

Definition cleanup_old_yearly_tables (store : gmap string (list Raw.row))
    : gmap string (list Raw.row) * Z :=
  let yearly := filter (λ kv, is_yearly_table kv.1) store in
  (filter (λ kv, ¬ is_yearly_table kv.1) store, Z.of_nat (size yearly)).

(** The check of [merge_yearly_tables] for one table:
    [count = result[0] if result else 0; if count > 0], [except: pass]. *)
Definition table_has_rows (store : gmap string (list Raw.row)) (table : string)
    : Prop :=
  match connect store table with
  | ProbeCount n => 0 < n
  | _ => False
  end.

Global Instance table_has_rows_dec store table :
  Decision (table_has_rows store table).
Proof. unfold table_has_rows. destruct (connect store table); apply _. Defined.

(** [SELECT * FROM t1 UNION ALL SELECT * FROM t2 ...] *)
Definition union_all (store : gmap string (list Raw.row))
    (tables : list string) : list Raw.row :=
  t ← tables; default [] (store !! t).

(** [ORDER BY event_id, datetime DESC]; the engine's default puts NULL last
    in either direction. *)
Definition merge_order : relation Raw.row :=
  order_by (lex_le (nulls_last String.le) (nulls_last (flip Z.le)))
    (λ r, (Raw.event_id r, Raw.datetime r)).

(** [SELECT DISTINCT ON (event_id) * FROM (...) ORDER BY event_id,
    datetime DESC] *)
Definition merge_distinct (rows : list Raw.row) : list Raw.row :=
  first_per_key Raw.event_id [] (stable_sort merge_order rows).

(** [merge_yearly_tables]: without a yearly table that has rows the function
    returns early and [raw_earthquakes] stays as it is. *)
Definition merge_yearly_tables (store : gmap string (list Raw.row))
    (years : list Z) : gmap string (list Raw.row) :=
  let table_list := year_table <$> years in
  let existing_tables := filter (table_has_rows store) table_list in
  match existing_tables with
  | [] => store
  | _ =>
      <["raw_earthquakes" := merge_distinct (union_all store existing_tables)]>
        store
  end.

Section process_year.
Variable strptime : string → option Z.
Variables dt_year dt_month dt_day dt_hour dt_weekday : Z → Z.
Variable moon_phase_degrees : Z → option Qc.

(** The result of [process_year]. *)
Record year_result := YearResult {
  result_store : gmap string (list Raw.row);
  result_file : metadata_file;
  result_rows : Z
}.

(** [process_year] from the extracted frame [df] on: an empty frame returns
    0 and changes nothing; otherwise the transformed frame replaces the
    yearly table, the details are recorded and the year is marked. [None]
    when [transform] raises. [total_size] is the size of the downloaded file;
    [now1] and [now2] are the two readings of the clock. *)
Definition process_year (cfg : validation_config) (now1 now2 : string)
    (year : Z) (total_size : Z) (df : list frame_row)
    (store : gmap string (list Raw.row)) (f : metadata_file)
    : option year_result :=
  match df with
  | [] => Some {| result_store := store; result_file := f; result_rows := 0 |}
  | _ =>
      '(df_transformed, _) ←
        transform strptime dt_year dt_month dt_day dt_hour dt_weekday
          moon_phase_degrees cfg df;
      let transformed_rows := Z.of_nat (length df_transformed) in
      let store := <[year_table year := load_raw_data df_transformed]> store in
      let f := record_year_details now1 f year
                 {| row_count := Some transformed_rows;
                    file_size_bytes := Some total_size;
                    date_range := Some (pretty year +:+ "-01-01",
                                        pretty year +:+ "-12-31");
                    loaded_at := None |} in
      let f := mark_year_loaded now2 f year in
      Some {| result_store := store; result_file := f;
              result_rows := transformed_rows |}
  end.
End process_year.

(** ** [extract.py]: [extract_multiple_csv] *)

(** The outcome of [extract_multiple_csv]. *)
Inductive extract_result :=
  | FileNotFound
  | AllFilesEmpty
  | Combined (df : list frame_row).

(** The frames read so far, for files given by their parsed content, [None]
    for a path that does not exist: an empty frame is skipped, a missing
    file raises. *)
Fixpoint read_frames (files : list (option (list frame_row)))
    : option (list (list frame_row)) :=
  match files with
  | [] => Some []
  | None :: _ => None
  | Some df :: files' =>
      dfs ← read_frames files';
      Some (match df with [] => dfs | _ => df :: dfs end)
  end.

(** [extract_multiple_csv]: [pl.concat] of the frames and
    [unique(subset=["id"], keep="first")]. *)
Definition extract_multiple_csv (files : list (option (list frame_row)))
    : extract_result :=
  match read_frames files with
  | None => FileNotFound
  | Some [] => AllFilesEmpty
  | Some dfs => Combined (first_per_key in_event_id [] (concat dfs))
  end.

(** A row of one of the yearly tables named by [years]. *)
Definition in_yearly_tables (store : gmap string (list Raw.row))
    (years : list Z) (r : Raw.row) : Prop :=
  ∃ year rows, year ∈ years ∧ store !! year_table year = Some rows ∧ r ∈ rows.

(** A store with two yearly tables that share the event "usgs001". *)
Definition two_year_store : gmap string (list Raw.row) :=
  {[ "raw_earthquakes_2020" := [sample_row "usgs001" 100 5 (Some "Light")];
     "raw_earthquakes_2021" := [sample_row "usgs001" 200 9 (Some "Light");
                                sample_row "usgs002" 300 7 (Some "Light")] ]}.

(** The rows [_clean_data] and [_validate_data] keep: critical fields
    present, magnitude and coordinates in range, and the depth, 0.0 where it
    is null, in range. *)
Definition keeps (cfg : validation_config) (r : frame_row) : Prop :=
  critical_present r ∧ magnitude_valid cfg r ∧
  depth_valid cfg (fill_depth_place r) ∧ coordinates_valid r.

Global Instance keeps_dec cfg r : Decision (keeps cfg r).
Proof. unfold keeps. apply _. Defined.

(** A foreign key that is not NULL names one row of its dimension table. *)
Definition references {D} (id : D → Z) (dim : list D) (key : option Z)
    : Prop :=
  ∀ n, key = Some n →
    ∃ d, d ∈ dim ∧ id d = n ∧ ∀ d', d' ∈ dim → id d' = n → d' = d.

(** The rows of the files that exist, in the order of the files. *)
Definition file_rows (files : list (option (list frame_row)))
    : list frame_row :=
  concat (omap id files).

(** ** [download.py]: [_create_date_chunks] *)




(** The step of the sum of [get_summary]: [details.get("row_count", 0)]
    added to the total. *)
Definition add_row_count (_ : string) (d : year_detail) (acc : Z) : Z :=
  acc + default 0 (row_count d).

(** ** [cube.py]: the cubes *)

(** [t JOIN d ON cond]: every row with each of its matching rows of [d]. *)
Definition inner_join {A D} (cond : A → D → bool) (l : list A) (d : list D)
    : list (A * D) :=
  x ← l; y ← List.filter (cond x) d; [(x, y)].

(** [GROUP BY key]: the groups in the order in which their keys first
    occur, each with its rows; NULL keys form one group. *)
Definition GROUP_BY {A K} `{EqDecision K} (key : A → K) (l : list A)
    : list (K * list A) :=
  (λ k, (k, filter (λ x, key x = k) l)) <$> remove_dups (key <$> l).

(** The aggregates, NULL over no row. *)
Definition COUNT {A} (l : list A) : Z := Z.of_nat (length l).

Definition SUM (xs : list Qc) : option Qc :=
  match xs with
  | [] => None
  | _ => Some (foldr Qcplus (dbl 0 1) xs)
  end.

Definition AVG (xs : list Qc) : option Qc :=
  match xs with
  | [] => None
  | _ => Some (foldr Qcplus (dbl 0 1) xs / dbl (Z.of_nat (length xs)) 1)%Qc
  end.

Definition MIN (xs : list Qc) : option Qc :=
  match xs with
  | [] => None
  | x :: xs' => Some (foldr (λ a b, if decide (a ≤ b)%Qc then a else b) x xs')
  end.

Definition MAX (xs : list Qc) : option Qc :=
  match xs with
  | [] => None
  | x :: xs' => Some (foldr (λ a b, if decide (b ≤ a)%Qc then a else b) x xs')
  end.

Definition COUNT_DISTINCT `{EqDecision A} (xs : list A) : Z :=
  Z.of_nat (length (remove_dups xs)).

Module CubeTimeMagnitude.
Record row := Row {
  year : option Z;
  month : option Z;
  day_name : option string;
  hour : option Z;
  season : string;
  is_weekend : bool;
  magnitude_category : option string;
  event_count : Z;
  avg_magnitude : option Qc;
  min_magnitude : option Qc;
  max_magnitude : option Qc;
  avg_depth : option Qc;
  total_energy : option Qc
}.
End CubeTimeMagnitude.

Module CubeLocationMagnitude.
Record row := Row {
  region : string;
  hemisphere_ns : string;
  hemisphere_ew : string;
  climate_zone : string;
  magnitude_category : option string;
  event_count : Z;
  avg_magnitude : option Qc;
  max_magnitude : option Qc;
  avg_depth : option Qc;
  center_latitude : option Qc;
  center_longitude : option Qc
}.
End CubeLocationMagnitude.

Module CubeDepthAnalysis.
Record row := Row {
  depth_category : string;
  magnitude_category : option string;
  season : string;
  event_count : Z;
  avg_depth : option Qc;
  avg_magnitude : option Qc;
  avg_stations : option Qc;
  avg_gap : option Qc;
  avg_horizontal_error : option Qc;
  avg_depth_error : option Qc
}.
End CubeDepthAnalysis.

Module CubeTemporalTrends.
Record row := Row {
  date : Z;
  year : option Z;
  month : option Z;
  day_of_week : option Z;
  daily_event_count : Z;
  daily_avg_magnitude : option Qc;
  daily_max_magnitude : option Qc;
  daily_total_energy : option Qc;
  affected_regions : Z
}.
End CubeTemporalTrends.

Module CubeMoonPhase.
Record row := Row {
  moon_phase_name : string;
  moon_phase : Qc;
  magnitude_group : string;
  event_count : Z;
  avg_magnitude : option Qc;
  max_magnitude : option Qc;
  avg_depth : option Qc
}.
End CubeMoonPhase.

(** The [ON] conditions of the cube queries. *)
Definition on_time_id (f : Fact.row) (t : DimTime.row) : bool :=
  sql_eq (Fact.time_id f) (Some (DimTime.time_id t)).

Definition on_location_id (f : Fact.row) (l : DimLocation.row) : bool :=
  sql_eq (Fact.location_id f) (Some (DimLocation.location_id l)).

Definition on_magnitude_id (f : Fact.row) (m : DimMagnitude.row) : bool :=
  sql_eq (Fact.magnitude_id f) (Some (DimMagnitude.magnitude_id m)).

(** The [CASE] of [cube_moon_phase]. *)
Definition magnitude_group_of (magnitude : Qc) : string :=
  if decide (magnitude < dbl 4 1)%Qc then "1-3"
  else if decide (dbl 4 1 ≤ magnitude ∧ magnitude < dbl 5 1)%Qc then "4"
  else if decide (dbl 5 1 ≤ magnitude ∧ magnitude < dbl 6 1)%Qc then "5"
  else if decide (dbl 6 1 ≤ magnitude ∧ magnitude < dbl 8 1)%Qc then "6-7"
  else "8-9".

(** The five tables [create_cubes] leaves in the store. *)
Record cube_tables := CubeTables {
  cube_time_magnitude : list CubeTimeMagnitude.row;
  cube_location_magnitude : list CubeLocationMagnitude.row;
  cube_depth_analysis : list CubeDepthAnalysis.row;
  cube_temporal_trends : list CubeTemporalTrends.row;
  cube_moon_phase : list CubeMoonPhase.row
}.

Section cubes.
(** The engine's [POWER] on DOUBLE. *)
Variable POWER : Qc → Qc → Qc.

(** The column [energy_joules] of [dim_magnitude],
    [POWER(10, (1.5 * magnitude + 4.8))], computed where the cubes read
    it. *)
Definition energy_joules (m : DimMagnitude.row) : Qc :=
  POWER (dbl 10 1) (dbl 15 10 * DimMagnitude.magnitude m + dbl 48 10)%Qc.

Definition _create_time_magnitude_cube (dim_time : list DimTime.row)
    (dim_magnitude : list DimMagnitude.row) (fact : list Fact.row)
    : list CubeTimeMagnitude.row :=
  let joined :=
    inner_join (λ ft, on_magnitude_id ft.1)
      (inner_join on_time_id fact dim_time) dim_magnitude in
  (λ '((year, month, day_name, hour, season, is_weekend, magnitude_category),
       rows),
     {| CubeTimeMagnitude.year := year;
        CubeTimeMagnitude.month := month;
        CubeTimeMagnitude.day_name := day_name;
        CubeTimeMagnitude.hour := hour;
        CubeTimeMagnitude.season := season;
        CubeTimeMagnitude.is_weekend := is_weekend;
        CubeTimeMagnitude.magnitude_category := magnitude_category;
        CubeTimeMagnitude.event_count := COUNT rows;
        CubeTimeMagnitude.avg_magnitude :=
          AVG ((λ '(f, t, m), DimMagnitude.magnitude m) <$> rows);
        CubeTimeMagnitude.min_magnitude :=
          MIN ((λ '(f, t, m), DimMagnitude.magnitude m) <$> rows);
        CubeTimeMagnitude.max_magnitude :=
          MAX ((λ '(f, t, m), DimMagnitude.magnitude m) <$> rows);
        CubeTimeMagnitude.avg_depth :=
          AVG ((λ '(f, t, m), Fact.depth f) <$> rows);
        CubeTimeMagnitude.total_energy :=
          SUM ((λ '(f, t, m), energy_joules m) <$> rows) |})
  <$> GROUP_BY
        (λ '(f, t, m),
           (DimTime.year t, DimTime.month t, DimTime.day_name t,
            DimTime.hour t, DimTime.season t, DimTime.is_weekend t,
            DimMagnitude.magnitude_category m))
        joined.

Definition _create_location_magnitude_cube
    (dim_location : list DimLocation.row)
    (dim_magnitude : list DimMagnitude.row) (fact : list Fact.row)
    : list CubeLocationMagnitude.row :=
  let joined :=
    inner_join (λ fl, on_magnitude_id fl.1)
      (inner_join on_location_id fact dim_location) dim_magnitude in
  (λ '((region, hemisphere_ns, hemisphere_ew, climate_zone,
        magnitude_category), rows),
     {| CubeLocationMagnitude.region := region;
        CubeLocationMagnitude.hemisphere_ns := hemisphere_ns;
        CubeLocationMagnitude.hemisphere_ew := hemisphere_ew;
        CubeLocationMagnitude.climate_zone := climate_zone;
        CubeLocationMagnitude.magnitude_category := magnitude_category;
        CubeLocationMagnitude.event_count := COUNT rows;
        CubeLocationMagnitude.avg_magnitude :=
          AVG ((λ '(f, l, m), DimMagnitude.magnitude m) <$> rows);
        CubeLocationMagnitude.max_magnitude :=
          MAX ((λ '(f, l, m), DimMagnitude.magnitude m) <$> rows);
        CubeLocationMagnitude.avg_depth :=
          AVG ((λ '(f, l, m), Fact.depth f) <$> rows);
        CubeLocationMagnitude.center_latitude :=
          AVG ((λ '(f, l, m), DimLocation.latitude l) <$> rows);
        CubeLocationMagnitude.center_longitude :=
          AVG ((λ '(f, l, m), DimLocation.longitude l) <$> rows) |})
  <$> GROUP_BY
        (λ '(f, l, m),
           (DimLocation.region l, DimLocation.hemisphere_ns l,
            DimLocation.hemisphere_ew l, DimLocation.climate_zone l,
            DimMagnitude.magnitude_category m))
        joined.

Definition _create_depth_analysis_cube (dim_time : list DimTime.row)
    (dim_magnitude : list DimMagnitude.row) (fact : list Fact.row)
    : list CubeDepthAnalysis.row :=
  let joined :=
    inner_join (λ fm, on_time_id fm.1)
      (inner_join on_magnitude_id fact dim_magnitude) dim_time in
  (λ '((depth_category, magnitude_category, season), rows),
     {| CubeDepthAnalysis.depth_category := depth_category;
        CubeDepthAnalysis.magnitude_category := magnitude_category;
        CubeDepthAnalysis.season := season;
        CubeDepthAnalysis.event_count := COUNT rows;
        CubeDepthAnalysis.avg_depth :=
          AVG ((λ '(f, m, t), Fact.depth f) <$> rows);
        CubeDepthAnalysis.avg_magnitude :=
          AVG ((λ '(f, m, t), DimMagnitude.magnitude m) <$> rows);
        CubeDepthAnalysis.avg_stations :=
          AVG ((λ '(f, m, t), dbl (Fact.num_stations f) 1) <$> rows);
        CubeDepthAnalysis.avg_gap :=
          AVG ((λ '(f, m, t), Fact.azimuthal_gap f) <$> rows);
        CubeDepthAnalysis.avg_horizontal_error :=
          AVG ((λ '(f, m, t), Fact.horizontal_error f) <$> rows);
        CubeDepthAnalysis.avg_depth_error :=
          AVG ((λ '(f, m, t), Fact.depth_error f) <$> rows) |})
  <$> GROUP_BY
        (λ '(f, m, t),
           (Fact.depth_category f, DimMagnitude.magnitude_category m,
            DimTime.season t))
        joined.

Definition _create_temporal_trends_cube (dim_time : list DimTime.row)
    (dim_location : list DimLocation.row)
    (dim_magnitude : list DimMagnitude.row) (fact : list Fact.row)
    : list CubeTemporalTrends.row :=
  let joined :=
    inner_join (λ ftm, on_location_id ftm.1.1)
      (inner_join (λ ft, on_magnitude_id ft.1)
         (inner_join on_time_id fact dim_time) dim_magnitude)
      dim_location in
  stable_sort (order_by Z.le CubeTemporalTrends.date)
    ((λ '((date, year, month, day_of_week), rows),
        {| CubeTemporalTrends.date := date;
           CubeTemporalTrends.year := year;
           CubeTemporalTrends.month := month;
           CubeTemporalTrends.day_of_week := day_of_week;
           CubeTemporalTrends.daily_event_count := COUNT rows;
           CubeTemporalTrends.daily_avg_magnitude :=
             AVG ((λ '(f, t, m, l), DimMagnitude.magnitude m) <$> rows);
           CubeTemporalTrends.daily_max_magnitude :=
             MAX ((λ '(f, t, m, l), DimMagnitude.magnitude m) <$> rows);
           CubeTemporalTrends.daily_total_energy :=
             SUM ((λ '(f, t, m, l), energy_joules m) <$> rows);
           CubeTemporalTrends.affected_regions :=
             COUNT_DISTINCT
               ((λ '(f, t, m, l), DimLocation.region l) <$> rows) |})
     <$> GROUP_BY
           (λ '(f, t, m, l),
              (DimTime.date t, DimTime.year t, DimTime.month t,
               DimTime.day_of_week t))
           joined).

Definition _create_moon_phase_cube (dim_magnitude : list DimMagnitude.row)
    (fact : list Fact.row) : list CubeMoonPhase.row :=
  let joined := inner_join on_magnitude_id fact dim_magnitude in
  stable_sort (order_by Qcle CubeMoonPhase.moon_phase)
    ((λ '((moon_phase_name, moon_phase, magnitude_group), rows),
        {| CubeMoonPhase.moon_phase_name := moon_phase_name;
           CubeMoonPhase.moon_phase := moon_phase;
           CubeMoonPhase.magnitude_group := magnitude_group;
           CubeMoonPhase.event_count := COUNT rows;
           CubeMoonPhase.avg_magnitude :=
             AVG ((λ '(f, m), DimMagnitude.magnitude m) <$> rows);
           CubeMoonPhase.max_magnitude :=
             MAX ((λ '(f, m), DimMagnitude.magnitude m) <$> rows);
           CubeMoonPhase.avg_depth :=
             AVG ((λ '(f, m), Fact.depth f) <$> rows) |})
     <$> GROUP_BY
           (λ '(f, m),
              (Fact.moon_phase_name f, Fact.moon_phase f,
               magnitude_group_of (DimMagnitude.magnitude m)))
           joined).

(** [create_cubes] over the tables of the star schema. *)
Definition create_cubes (dim_time : list DimTime.row)
    (dim_location : list DimLocation.row)
    (dim_magnitude : list DimMagnitude.row) (fact : list Fact.row)
    : cube_tables :=
  {| cube_time_magnitude :=
       _create_time_magnitude_cube dim_time dim_magnitude fact;
     cube_location_magnitude :=
       _create_location_magnitude_cube dim_location dim_magnitude fact;
     cube_depth_analysis :=
       _create_depth_analysis_cube dim_time dim_magnitude fact;
     cube_temporal_trends :=
       _create_temporal_trends_cube dim_time dim_location dim_magnitude fact;
     cube_moon_phase := _create_moon_phase_cube dim_magnitude fact |}.

(** ** The rebuild of the OLAP layer *)

(** The tables of the OLAP layer in the store; [None] is a table that does
    not exist. *)
Record olap_layer := OlapLayer {
  olap_dim_time : option (list DimTime.row);
  olap_dim_location : option (list DimLocation.row);
  olap_dim_magnitude : option (list DimMagnitude.row);
  olap_fact_earthquakes : option (list Fact.row);
  olap_cube_time_magnitude : option (list CubeTimeMagnitude.row);
  olap_cube_location_magnitude : option (list CubeLocationMagnitude.row);
  olap_cube_depth_analysis : option (list CubeDepthAnalysis.row);
  olap_cube_temporal_trends : option (list CubeTemporalTrends.row);
  olap_cube_moon_phase : option (list CubeMoonPhase.row)
}.

(** The step "Rebuild OLAP Layer" of [main]:
    [schema.create_star_schema(db_conn); cube.create_cubes(db_conn)] on a
    store that holds the raw table [raw] and the OLAP tables [old]. Every
    table is dropped or replaced before it is created from the raw table
    and the tables just built. When the fact build raises, the dimension
    tables are the new ones, the fact table is gone, [create_cubes] is not
    reached and the cubes are the old ones. The second component tells
    whether the step completed. *)
Definition rebuild_olap_layer (raw : list Raw.row) (old : olap_layer)
    : olap_layer * bool :=
  let s := create_star_schema raw in
  match fact_table s with
  | Some fact =>
      let c := create_cubes (dim_time s) (dim_location s) (dim_magnitude s)
                 fact in
      ({| olap_dim_time := Some (dim_time s);
          olap_dim_location := Some (dim_location s);
          olap_dim_magnitude := Some (dim_magnitude s);
          olap_fact_earthquakes := Some fact;
          olap_cube_time_magnitude := Some (cube_time_magnitude c);
          olap_cube_location_magnitude := Some (cube_location_magnitude c);
          olap_cube_depth_analysis := Some (cube_depth_analysis c);
          olap_cube_temporal_trends := Some (cube_temporal_trends c);
          olap_cube_moon_phase := Some (cube_moon_phase c) |}, true)
  | None =>
      ({| olap_dim_time := Some (dim_time s);
          olap_dim_location := Some (dim_location s);
          olap_dim_magnitude := Some (dim_magnitude s);
          olap_fact_earthquakes := None;
          olap_cube_time_magnitude := olap_cube_time_magnitude old;
          olap_cube_location_magnitude := olap_cube_location_magnitude old;
          olap_cube_depth_analysis := olap_cube_depth_analysis old;
          olap_cube_temporal_trends := olap_cube_temporal_trends old;
          olap_cube_moon_phase := olap_cube_moon_phase old |}, false)
  end.
End cubes.


(** A store without OLAP tables. *)
Definition no_olap_layer : olap_layer :=
  OlapLayer None None None None None None None None None.

(** * Properties of the load tracker *)

Section sorted_facts.
Implicit Types l : list Z.

Lemma sorted_Permutation l : sorted l ≡ₚ l.
Proof. apply merge_sort_Permutation. Qed.

Lemma elem_of_sorted l y : y ∈ sorted l ↔ y ∈ l.
Proof. by rewrite sorted_Permutation. Qed.

Lemma sorted_Sorted l : Sorted Z.le (sorted l).
Proof. apply (Sorted_merge_sort Z.le). Qed.

Lemma sorted_NoDup l : NoDup l → NoDup (sorted l).
Proof. by rewrite sorted_Permutation. Qed.

(** A list sorted by [≤] without repetition is strictly ascending. *)
Lemma Sorted_le_NoDup_lt l :
  Sorted Z.le l → NoDup l → StronglySorted Z.lt l.
Proof.
  intros Hs%(Sorted_StronglySorted Z.le) Hn.
  induction Hs as [|x l Hs IH Hx]; [constructor|].
  apply NoDup_cons in Hn as [Hx' Hn].
  constructor; [by apply IH|].
  apply Forall_forall. intros y Hy.
  rewrite Forall_forall in Hx. specialize (Hx y Hy).
  assert (x ≠ y) by (intros ->; done). lia.
Qed.

Lemma sorted_elements_ascending (X : gset Z) :
  StronglySorted Z.lt (sorted (elements X)).
Proof.
  apply Sorted_le_NoDup_lt; [apply sorted_Sorted|].
  apply sorted_NoDup, NoDup_elements.
Qed.

Lemma elem_of_sorted_elements (X : gset Z) y :
  y ∈ sorted (elements X) ↔ y ∈ X.
Proof. by rewrite elem_of_sorted, elem_of_elements. Qed.

Lemma list_to_set_sorted_elements (X : gset Z) :
  list_to_set (sorted (elements X)) =@{gset Z} X.
Proof.
  apply set_eq. intros y.
  by rewrite elem_of_list_to_set, elem_of_sorted_elements.
Qed.

(** Sorting a sorted list changes nothing. *)
Lemma sorted_id l : Sorted Z.le l → sorted l = l.
Proof.
  intros. apply (Sorted_unique Z.le);
    [apply sorted_Sorted|done|apply sorted_Permutation].
Qed.
End sorted_facts.

Lemma elem_of_requested_years s e y : y ∈ requested_years s e ↔ s ≤ y ≤ e.
Proof.
  unfold requested_years. rewrite elem_of_list_to_set, elem_of_seqZ. lia.
Qed.

(** The loaded set does not depend on the clock. *)
Lemma get_loaded_years_clock now now' f :
  get_loaded_years now f = get_loaded_years now' f.
Proof. by destruct f. Qed.

(** *** [validate_loaded_years] *)

Lemma elem_of_passing_years now f conn y :
  y ∈ passing_years now f conn ↔
  y ∈ get_loaded_years now f ∧ probe_year conn y = true.
Proof. unfold passing_years. rewrite elem_of_filter. tauto. Qed.

Lemma validate_returns now f conn :
  (validate_loaded_years now f conn).1 = sorted (elements (passing_years now f conn)).
Proof. done. Qed.

Lemma validate_persists now f conn :
  get_loaded_years now (validate_loaded_years now f conn).2
  = passing_years now f conn.
Proof.
  unfold validate_loaded_years, passing_years, get_loaded_years. simpl.
  set (claimed := list_to_set (get_loaded_list (_load_metadata now f)) : gset Z).
  set (actual := filter _ claimed).
  destruct (decide (claimed ∖ actual = ∅)) as [He|_]; simpl.
  - fold claimed. apply set_eq. intros y. split.
    + intros Hy. destruct (decide (y ∈ actual)) as [|Hn]; [done|].
      assert (y ∈ claimed ∖ actual) as Hd by set_solver.
      rewrite He in Hd. set_solver.
    + subst actual. rewrite elem_of_filter. tauto.
  - unfold get_loaded_list. simpl. apply list_to_set_sorted_elements.
Qed.

Lemma lookup_purge_details (X : gset Z) (d : gmap string year_detail) y :
  y ∈ X → purge_details X d !! pretty y = None.
Proof.
  unfold purge_details. rewrite <-elem_of_elements.
  induction (elements X) as [|x l IH]; simpl; [by intros ?%elem_of_nil|].
  intros [->|Hy]%elem_of_cons.
  - apply lookup_delete_eq.
  - destruct (decide (pretty x = pretty y)) as [->|Hne].
    + apply lookup_delete_eq.
    + rewrite lookup_delete_ne by done. by apply IH.
Qed.

Lemma lookup_purge_details_other (X : gset Z) (d : gmap string year_detail) y :
  y ∉ X → purge_details X d !! pretty y = d !! pretty y.
Proof.
  unfold purge_details. rewrite <-elem_of_elements.
  induction (elements X) as [|x l IH]; simpl; [done|].
  intros [Hne Hy]%not_elem_of_cons.
  rewrite lookup_delete_ne; [by apply IH|].
  intros Heq%(inj pretty). by subst.
Qed.

Lemma validate_purges_details now f conn y :
  y ∈ get_loaded_years now f → probe_year conn y = false →
  get_year_info now (validate_loaded_years now f conn).2 y = None.
Proof.
  intros Hy Hp.
  unfold validate_loaded_years, get_year_info, get_loaded_years in *. simpl.
  set (claimed := list_to_set (get_loaded_list (_load_metadata now f)) : gset Z) in *.
  set (actual := filter _ claimed).
  assert (y ∈ claimed ∖ actual) as Hm.
  { apply elem_of_difference. split; [done|].
    subst actual. rewrite elem_of_filter. intros [? _]. congruence. }
  destruct (decide (claimed ∖ actual = ∅)) as [He|_]; simpl.
  - rewrite He in Hm. set_solver.
  - destruct (year_details (_load_metadata now f)) as [d|]; simpl.
    + by apply lookup_purge_details.
    + apply lookup_empty.
Qed.

(** A raise, an empty answer and a count that is not positive all read as
    "not loaded". *)
Lemma probe_year_false conn y :
  probe_year conn y = false ↔
  conn (year_table y) = ProbeRaises ∨ conn (year_table y) = ProbeNone ∨
  ∃ n, conn (year_table y) = ProbeCount n ∧ n ≤ 0.
Proof.
  unfold probe_year. destruct (conn (year_table y)) as [| |n]; simpl.
  - naive_solver.
  - naive_solver.
  - rewrite bool_decide_eq_false. split.
    + intros. right; right. exists n. split; [done|lia].
    + intros [?|[?|(m & [= ->] & ?)]]; [done..|lia].
Qed.

(** *** [get_summary]: the gap list *)

(** The index loop of [get_summary] walks the neighbours of the list. *)
Lemma compute_gaps_cons a b t :
  compute_gaps (a :: b :: t) = gap_between a b ++ compute_gaps (b :: t).
Proof.
  unfold compute_gaps. simpl length.
  replace (S (S (length t)) - 1)%nat with (S (length t)) by lia.
  replace (S (length t) - 1)%nat with (length t) by lia.
  rewrite <-cons_seq, bind_cons, <-fmap_S_seq, list_fmap_bind.
  f_equal.
Qed.

Lemma compute_gaps_short a : compute_gaps [a] = [].
Proof. done. Qed.

Lemma elem_of_gap_between a b p :
  p ∈ gap_between a b ↔ p = (a + 1, b - 1) ∧ a + 1 ≤ b - 1.
Proof.
  unfold gap_between. case_decide.
  - rewrite list_elem_of_singleton. intuition lia.
  - rewrite elem_of_nil. intuition lia.
Qed.

(** Every gap lies above the head of the list it is computed from. *)
Lemma compute_gaps_above l x :
  StronglySorted Z.lt (x :: l) →
  Forall (λ g : Z * Z, x < g.1) (compute_gaps (x :: l)).
Proof.
  revert x. induction l as [|b t IH]; intros x Hs; [constructor|].
  rewrite compute_gaps_cons. apply Forall_app. split.
  - apply Forall_forall. intros p [-> ?]%elem_of_gap_between. simpl. lia.
  - apply StronglySorted_inv in Hs as [Hs Hx].
    apply Forall_cons in Hx as [Hxb _].
    eapply Forall_impl; [by apply IH|]. simpl. intros. lia.
Qed.

Lemma compute_gaps_span l :
  StronglySorted Z.lt l → gaps_of_span l (compute_gaps l).
Proof.
  induction l as [|x [|b t] IH]; intros Hs.
  - split; [|split]; [by intros ?? ?%elem_of_nil| |constructor].
    by intros ??? ?%elem_of_nil.
  - split; [|split]; [by intros ?? ?%elem_of_nil| |constructor].
    intros y lo hi ->%list_elem_of_singleton ->%list_elem_of_singleton. lia.
  - pose proof Hs as Hs'.
    apply StronglySorted_inv in Hs' as [Hbt Hx].
    destruct (IH Hbt) as (Hsound & Hcomplete & Hord).
    pose proof Hx as Hx'. apply Forall_cons in Hx' as [Hxb Hxt].
    assert (∀ z, z ∈ b :: t → x < z) as Hlow.
    { intros z Hz. rewrite Forall_forall in Hx. by apply Hx. }
    assert (∀ z, z ∈ t → b < z) as Hlow'.
    { apply StronglySorted_inv in Hbt as [_ Hb].
      intros z Hz. rewrite Forall_forall in Hb. by apply Hb. }
    rewrite compute_gaps_cons. split; [|split].
    + intros a' b' [[[= -> ->] ?]%elem_of_gap_between|Hin]%elem_of_app.
      * split; [lia|]. split; [replace (x + 1 - 1) with x by lia; apply elem_of_cons; by left|].
        split; [replace (b - 1 + 1) with b by lia; 
          apply elem_of_cons; right; apply elem_of_cons; by left|].
        intros y Hy [->|[->|Hyt]%elem_of_cons]%elem_of_cons; [lia..|].
        apply Hlow' in Hyt. lia.
      * destruct (Hsound _ _ Hin) as (? & Ha & Hb & Hmiss).
        split; [done|]. split; [by apply elem_of_cons; right|].
        split; [by apply elem_of_cons; right|].
        intros y Hy [->|Hyt]%elem_of_cons; [|by eapply Hmiss].
        apply Hlow in Ha. lia.
    + intros y lo hi Hlo Hhi Hy Hny.
      apply not_elem_of_cons in Hny as [Hyx Hny].
      pose proof Hny as Hny'. apply not_elem_of_cons in Hny' as [Hyb _].
      destruct (decide (y < b)) as [Hlt|Hge].
      * exists (x + 1), (b - 1). split.
        -- apply elem_of_app. left. apply elem_of_gap_between.
           split; [done|].
           assert (x ≤ lo).
           { apply elem_of_cons in Hlo as [->|?%Hlow]; lia. }
           lia.
        -- assert (x ≤ lo).
           { apply elem_of_cons in Hlo as [->|?%Hlow]; lia. }
           lia.
      * assert (hi ∈ b :: t) as Hhi'.
        { apply elem_of_cons in Hhi as [->|?]; [|done].
          assert (x ≤ lo) by (apply elem_of_cons in Hlo as [->|?%Hlow]; lia).
          lia. }
        destruct (Hcomplete y b hi) as (a' & b' & Hin & ?);
          [apply elem_of_cons; by left|done|lia|done|].
        exists a', b'. split; [|done]. apply elem_of_app. by right.
    + apply StronglySorted_app_2; [| |done].
      * intros g h [-> ?]%elem_of_gap_between Hh. simpl.
        pose proof (compute_gaps_above t b Hbt) as Hab.
        rewrite Forall_forall in Hab. specialize (Hab _ Hh). simpl in Hab. lia.
      * unfold gap_between. case_decide; repeat constructor.
Qed.

(** *** The claims about the tracker *)

(** C1, as the specification states it, fails: [get_years_to_load] reads the
    persisted list and never probes the store. With metadata that claims
    2021 over a store without yearly tables, the request 2021..2021 gives
    no year to load, while the request minus the validated set is 2021. *)
Lemma get_years_to_load_skips_validation :
  get_years_to_load "t" claims_2021 2021 2021 = [] ∧
  (validate_loaded_years "t" claims_2021 empty_store).1 = [] ∧
  sorted (elements (requested_years 2021 2021 ∖
            list_to_set (validate_loaded_years "t" claims_2021 empty_store).1))
  = [2021].
Proof. by vm_compute. Qed.

(** C1, amended: [get_years_to_load] returns the requested years that are
    not in the persisted loaded set, strictly ascending (so without
    duplicates); on the metadata [validate_loaded_years] has just corrected
    this is the request minus the validated set. *)
Theorem get_years_to_load_spec now f conn start_year end_year :
  StronglySorted Z.lt (get_years_to_load now f start_year end_year) ∧
  (∀ y, y ∈ get_years_to_load now f start_year end_year ↔
        start_year ≤ y ≤ end_year ∧ y ∉ get_loaded_years now f) ∧
  get_years_to_load now (validate_loaded_years now f conn).2 start_year end_year
  = sorted (elements (requested_years start_year end_year ∖
              list_to_set (validate_loaded_years now f conn).1)).
Proof.
  split; [apply sorted_elements_ascending|]. split.
  - intros y. unfold get_years_to_load.
    by rewrite elem_of_sorted_elements, elem_of_difference,
      elem_of_requested_years.
  - unfold get_years_to_load.
    by rewrite validate_persists, validate_returns, list_to_set_sorted_elements.
Qed.

Lemma probe_year_true conn y :
  probe_year conn y = true ↔
  ∃ n, conn ("raw_earthquakes_" +:+ pretty y) = ProbeCount n ∧ 0 < n.
Proof.
  unfold probe_year, year_table.
  destruct (conn ("raw_earthquakes_" +:+ pretty y)) as [| |n]; simpl.
  - split; [done|]. by intros (? & [=] & _).
  - split; [done|]. by intros (? & [=] & _).
  - rewrite bool_decide_eq_true. split.
    + intros Hn. by exists n.
    + by intros (? & [= <-] & ?).
Qed.

(** C4: [validate_loaded_years] probes, for every claimed year, the table
    [raw_earthquakes_<year>] of the live store. It returns, in ascending
    order, exactly the claimed years whose table answers the count with a
    positive number; it returns also where a probe raises. Every claimed
    year whose probe raises, returns no row, or counts no row is absent
    from the returned list, from the persisted [loaded_years] and from the
    persisted [year_details]; the persisted [loaded_years] are the returned
    years. *)
Theorem validate_loaded_years_spec now f conn :
  StronglySorted Z.lt (validate_loaded_years now f conn).1 ∧
  (∀ y, y ∈ (validate_loaded_years now f conn).1 ↔
        y ∈ get_loaded_years now f ∧
        ∃ n, conn ("raw_earthquakes_" +:+ pretty y) = ProbeCount n ∧ 0 < n) ∧
  get_loaded_years now (validate_loaded_years now f conn).2
  = list_to_set (validate_loaded_years now f conn).1 ∧
  (∀ y, y ∈ get_loaded_years now f →
        conn ("raw_earthquakes_" +:+ pretty y) = ProbeRaises ∨
        conn ("raw_earthquakes_" +:+ pretty y) = ProbeNone ∨
        (∃ n, conn ("raw_earthquakes_" +:+ pretty y) = ProbeCount n ∧ n ≤ 0) →
        (y ∉ (validate_loaded_years now f conn).1) ∧
        (y ∉ get_loaded_years now (validate_loaded_years now f conn).2) ∧
        get_year_info now (validate_loaded_years now f conn).2 y = None).
Proof.
  rewrite validate_persists, validate_returns.
  split; [apply sorted_elements_ascending|]. split.
  { intros y.
    by rewrite elem_of_sorted_elements, elem_of_passing_years, probe_year_true. }
  split; [by rewrite list_to_set_sorted_elements|].
  intros y Hy Hfail.
  assert (probe_year conn y = false) as Hp by (by apply probe_year_false).
  rewrite elem_of_sorted_elements, elem_of_passing_years.
  split; [|split]; [intros [_ ?]; congruence..|].
  by apply validate_purges_details.
Qed.

(** C5, as the specification states it, fails: once 2021 is purged the
    loaded years are 2020 and 2023, and the gap between them is 2021..2022,
    not 2022..2022. *)
Lemma validate_then_summary_gap_is_2021_2022 :
  (validate_loaded_years "t" claims_2020_2021_2023 store_2020_2023).1
  = [2020; 2023] ∧
  gaps (get_summary "t"
          (validate_loaded_years "t" claims_2020_2021_2023 store_2020_2023).2)
  = [(2021, 2022)] ∧
  gaps (get_summary "t"
          (validate_loaded_years "t" claims_2020_2021_2023 store_2020_2023).2)
  ≠ [(2022, 2022)].
Proof. by vm_compute. Qed.

(** C5, amended: on that metadata and store [validate_loaded_years] returns
    2020 and 2023, and the summary taken afterwards reports the single gap
    2021..2022; for every strictly ascending list of loaded years the
    reported gaps are the maximal ranges of missing years between two
    loaded years, in ascending order. *)
Theorem validate_then_summary_gaps :
  (validate_loaded_years "t" claims_2020_2021_2023 store_2020_2023).1
  = [2020; 2023] ∧
  gaps (get_summary "t"
          (validate_loaded_years "t" claims_2020_2021_2023 store_2020_2023).2)
  = [(2021, 2022)] ∧
  (∀ now f, StronglySorted Z.lt (stored_years f) →
            gaps_of_span (stored_years f) (gaps (get_summary now f))).
Proof.
  split; [by vm_compute|]. split; [by vm_compute|].
  intros now f Hs. unfold get_summary.
  replace (get_loaded_list (_load_metadata now f)) with (stored_years f)
    by (by destruct f).
  destruct (stored_years f) as [|y ys] eqn:Hl; simpl.
  - apply (compute_gaps_span []). constructor.
  - by apply compute_gaps_span.
Qed.

(** [mark_year_loaded] on the stored list. *)
Lemma stored_years_mark now f y :
  stored_years (mark_year_loaded now f y)
  = if decide (y ∈ stored_years f) then stored_years f
    else sorted (stored_years f ++ [y]).
Proof. by destruct f. Qed.

(** C9, as the specification states it, fails: on metadata whose list of
    loaded years is 2023, 2020, marking 2020, which is present, leaves the
    list as it is, and it is not sorted. *)
Lemma mark_year_loaded_leaves_unsorted :
  stored_years claims_2023_2020 = [2023; 2020] ∧
  stored_years (mark_year_loaded "t" claims_2023_2020 2020) = [2023; 2020] ∧
  ¬ Sorted Z.le (stored_years (mark_year_loaded "t" claims_2023_2020 2020)).
Proof.
  split; [done|]. split; [done|].
  intros Hs. change (Sorted Z.le [2023; 2020]) in Hs.
  apply Sorted_inv in Hs as [_ Hhd]. apply HdRel_inv in Hhd. lia.
Qed.

(** C9, amended: marking a year twice leaves the list of loaded years as
    marking it once does; the set of loaded years after the call is the old
    set with the year added; the list after the call is sorted exactly when
    it was sorted before or the year was not in it: the list is sorted only
    when a year is inserted. *)
Theorem mark_year_loaded_idempotent now now' f y :
  stored_years (mark_year_loaded now' (mark_year_loaded now f y) y)
  = stored_years (mark_year_loaded now f y) ∧
  list_to_set (stored_years (mark_year_loaded now f y))
  =@{gset Z} list_to_set (stored_years f) ∪ {[y]} ∧
  (Sorted Z.le (stored_years (mark_year_loaded now f y)) ↔
   Sorted Z.le (stored_years f) ∨ y ∉ stored_years f).
Proof.
  assert (y ∈ stored_years (mark_year_loaded now f y)) as Hin.
  { rewrite stored_years_mark. case_decide; [done|].
    rewrite elem_of_sorted, elem_of_app, list_elem_of_singleton. by right. }
  split; [|split].
  - rewrite (stored_years_mark now'). by rewrite decide_True.
  - rewrite stored_years_mark. apply set_eq. intros z.
    rewrite elem_of_union, elem_of_singleton, !elem_of_list_to_set.
    case_decide.
    + split; [by left|]. by intros [?| ->].
    + by rewrite elem_of_sorted, elem_of_app, list_elem_of_singleton.
  - rewrite stored_years_mark. case_decide as Hy.
    + split; [by left|]. by intros [?|?].
    + split; [by right|]. intros _. apply sorted_Sorted.
Qed.

(** * Properties of the SQL vocabulary *)

Section lex_le_order.
Context {A B : Type} (RA : relation A) (RB : relation B).
Context `{!PartialOrder RA, !Total RA, !PartialOrder RB, !Total RB}.

Global Instance lex_le_refl : Reflexive (lex_le RA RB).
Proof. intros [a b]. right. split; [done|]. simpl. reflexivity. Qed.

Global Instance lex_le_trans : Transitive (lex_le RA RB).
Proof.
  intros [a1 b1] [a2 b2] [a3 b3]. unfold lex_le. simpl.
  intros [[Hn1 H1]|[-> H1]] [[Hn2 H2]|[-> H2]].
  - left. split; [|by etrans].
    intros ->. apply Hn1. by apply (anti_symm RA).
  - left. done.
  - left. done.
  - right. split; [done|by etrans].
Qed.

Global Instance lex_le_antisymm : AntiSymm (=) (lex_le RA RB).
Proof.
  intros [a1 b1] [a2 b2]. unfold lex_le. simpl.
  intros [[Hn1 H1]|[-> H1]] [[Hn2 H2]|[Heq H2]].
  - destruct Hn1. by apply (anti_symm RA).
  - by destruct Hn1.
  - done.
  - f_equal. by apply (anti_symm RB).
Qed.

Global Instance lex_le_po : PartialOrder (lex_le RA RB).
Proof. repeat split; apply _. Qed.

Global Instance lex_le_total `{!EqDecision A} : Total (lex_le RA RB).
Proof.
  intros [a1 b1] [a2 b2]. unfold lex_le. simpl.
  destruct (decide (a1 = a2)) as [->|Hne].
  - destruct (total RB b1 b2); [left|right]; by right.
  - destruct (total RA a1 a2); [left|right]; left; split; done || by intros ->.
Qed.
End lex_le_order.

Section nulls_last_order.
Context {A : Type} (R : relation A) `{!PartialOrder R, !Total R}.

Global Instance nulls_last_refl : Reflexive (nulls_last R).
Proof. intros [a|]; simpl; done. Qed.

Global Instance nulls_last_trans : Transitive (nulls_last R).
Proof. intros [a|] [b|] [c|]; simpl; try done; apply transitivity. Qed.

Global Instance nulls_last_antisymm : AntiSymm (=) (nulls_last R).
Proof.
  intros [a|] [b|]; simpl; try done.
  intros. f_equal. by apply (anti_symm R).
Qed.

Global Instance nulls_last_po : PartialOrder (nulls_last R).
Proof. repeat split; apply _. Qed.

Global Instance nulls_last_total : Total (nulls_last R).
Proof. intros [a|] [b|]; simpl; auto; apply (total R). Qed.
End nulls_last_order.

Section order_by_order.
Context {A K : Type} (R : relation K) (key : A → K).

Global Instance order_by_refl `{!Reflexive R} : Reflexive (order_by R key).
Proof. intros x. unfold order_by. done. Qed.

Global Instance order_by_trans `{!Transitive R} : Transitive (order_by R key).
Proof. intros x y z. unfold order_by. apply transitivity. Qed.

Global Instance order_by_total `{!Total R} : Total (order_by R key).
Proof. intros x y. apply (total R). Qed.
End order_by_order.

Global Instance Qcle_po : PartialOrder Qcle := Qc_le_po.

Global Instance location_order_po : PartialOrder location_order.
Proof. unfold location_order. apply _. Qed.
Global Instance location_order_total : Total location_order.
Proof. unfold location_order. apply _. Qed.
Global Instance magnitude_order_po : PartialOrder magnitude_order.
Proof. unfold magnitude_order. apply _. Qed.
Global Instance magnitude_order_total : Total magnitude_order.
Proof. unfold magnitude_order. apply _. Qed.
Global Instance time_order_trans : Transitive time_order.
Proof. unfold time_order. apply _. Qed.
Global Instance time_order_total : Total time_order.
Proof. unfold time_order. apply _. Qed.

(** ** The stable sort *)

Section stable_sort.
Context {A : Type} (R : relation A) `{!RelDecision R}.

Lemma insert_sorted_Permutation x l : insert_sorted R x l ≡ₚ x :: l.
Proof.
  induction l as [|y l IH]; simpl; [done|].
  case_decide; [done|]. by rewrite IH, Permutation_swap.
Qed.

Lemma stable_sort_Permutation l : stable_sort R l ≡ₚ l.
Proof.
  induction l as [|x l IH]; simpl; [done|].
  by rewrite insert_sorted_Permutation, IH.
Qed.

Lemma StronglySorted_insert_sorted `{!Transitive R, !Total R} x l :
  StronglySorted R l → StronglySorted R (insert_sorted R x l).
Proof.
  induction 1 as [|y l Hs IH Hy]; simpl.
  - by repeat constructor.
  - case_decide as Hxy.
    + constructor; [by constructor|]. constructor; [done|].
      eapply Forall_impl; [done|]. intros z Hz. by trans y.
    + constructor; [done|]. rewrite insert_sorted_Permutation.
      constructor; [|done]. by destruct (total R x y).
Qed.

Lemma StronglySorted_stable_sort `{!Transitive R, !Total R} l :
  StronglySorted R (stable_sort R l).
Proof.
  induction l as [|x l IH]; simpl; [constructor|].
  by apply StronglySorted_insert_sorted.
Qed.

End stable_sort.



(** ** [ROW_NUMBER] and [SELECT DISTINCT] *)

Lemma remove_dups_NoDup `{EqDecision A} (l : list A) :
  NoDup l → remove_dups l = l.
Proof.
  induction 1 as [|x l Hx Hl IH]; simpl; [done|].
  destruct (decide_rel (∈) x l); [done|]. by rewrite IH.
Qed.

Lemma remove_dups_Permutation `{EqDecision A} (l k : list A) :
  l ≡ₚ k → remove_dups l ≡ₚ remove_dups k.
Proof.
  intros Hp. apply NoDup_Permutation; [apply NoDup_remove_dups..|].
  intros x. by rewrite !elem_of_remove_dups, Hp.
Qed.

Lemma StronglySorted_lookup {A} (R : relation A) (l : list A) i j x y :
  StronglySorted R l → l !! i = Some x → l !! j = Some y → (i < j)%nat →
  R x y.
Proof.
  intros Hs. revert i j. induction Hs as [|z l Hs IH Hz]; intros i j.
  - by rewrite lookup_nil.
  - destruct i as [|i], j as [|j]; simpl; try lia.
    + intros [= ->] Hy _. rewrite Forall_forall in Hz.
      apply Hz. by eapply list_elem_of_lookup_2.
    + intros ???. apply (IH i j); [done..|lia].
Qed.

Section row_number.
Context {K : Type} (R : relation K) `{!RelDecision R}.

Lemma row_number_fst (l : list K) :
  (row_number R l).*1 = seqZ 1 (Z.of_nat (length l)).
Proof.
  unfold row_number. rewrite fmap_imap.
  rewrite (imap_ext _ (λ j _, Z.of_nat j + 1)) by done.
  rewrite imap_seq_0. unfold seqZ.
  rewrite Nat2Z.id, (Permutation_length (stable_sort_Permutation R l)).
  done.
Qed.

Lemma row_number_snd (l : list K) : (row_number R l).*2 = stable_sort R l.
Proof.
  unfold row_number. rewrite fmap_imap.
  rewrite (imap_ext _ (const id)) by done.
  by rewrite imap_const, list_fmap_id.
Qed.

Lemma row_number_NoDup (l : list K) : NoDup (row_number R l).
Proof.
  apply (NoDup_fmap_1 fst). rewrite row_number_fst. apply NoDup_seqZ.
Qed.

Lemma row_number_monotone `{!Transitive R, !Total R} (l : list K) i x j y :
  (i, x) ∈ row_number R l → (j, y) ∈ row_number R l → i ≤ j → R x y.
Proof.
  unfold row_number.
  intros (a & x' & [= -> ->] & Ha)%elem_of_lookup_imap_1
         (b & y' & [= -> ->] & Hb)%elem_of_lookup_imap_1 Hij.
  destruct (decide (a = b)) as [->|Hne].
  - assert (x' = y') as -> by congruence.
    by destruct (total R y' y').
  - eapply StronglySorted_lookup; [|done..|lia].
    by apply (StronglySorted_stable_sort R).
Qed.

Lemma length_row_number (l : list K) : length (row_number R l) = length l.
Proof.
  unfold row_number.
  by rewrite length_imap, (Permutation_length (stable_sort_Permutation R l)).
Qed.

Lemma numbered_by_order_row_number `{!Transitive R, !Total R} (keys : list K) :
  NoDup keys → numbered_by_order R (λ k, k ∈ keys) (row_number R keys).
Proof.
  intros Hn. split; [by rewrite row_number_snd, stable_sort_Permutation|].
  split; [intros k; by rewrite row_number_snd, stable_sort_Permutation|].
  split; [by rewrite row_number_fst, length_row_number|].
  intros i x j y. apply row_number_monotone.
Qed.

Lemma numbered_by_order_Permutation (is_key : K → Prop) (e e' : list (Z * K)) :
  e ≡ₚ e' → numbered_by_order R is_key e → numbered_by_order R is_key e'.
Proof.
  intros Hp (Hn & Hk & H1 & Hm).
  split; [by rewrite <-Hp|]. split; [intros k; by rewrite <-Hp|].
  split; [by rewrite <-Hp|].
  intros i x j y. rewrite <-!Hp. apply Hm.
Qed.

Lemma numbered_by_order_iff (is_key is_key' : K → Prop) (e : list (Z * K)) :
  (∀ k, is_key k ↔ is_key' k) →
  numbered_by_order R is_key e → numbered_by_order R is_key' e.
Proof.
  intros Hiff (Hn & Hk & H1 & Hm).
  split; [done|]. split; [intros k; by rewrite Hk|]. done.
Qed.
End row_number.

(** ** The dimension tables *)

Lemma time_entry_row nk : time_entry (dim_time_row nk) = nk.
Proof. by destruct nk as [n [dt [[[[y mo] d] h] dow]]]. Qed.

Lemma location_entry_row nk : location_entry (dim_location_row nk) = nk.
Proof. by destruct nk as [n [[[lat lon] p] r]]. Qed.

Lemma magnitude_entry_row nk : magnitude_entry (dim_magnitude_row nk) = nk.
Proof. by destruct nk as [n [[m t] c]]. Qed.

(** [SELECT DISTINCT] over numbered rows removes nothing. *)
Lemma distinct_numbered {K D} `{EqDecision D} (R : relation K)
    `{!RelDecision R} (row : Z * K → D) (entry : D → Z * K) (keys : list K) :
  (∀ nk, entry (row nk) = nk) →
  DISTINCT (row <$> row_number R keys) = row <$> row_number R keys.
Proof.
  intros Hinv. apply remove_dups_NoDup.
  apply (NoDup_fmap_1 entry). rewrite <-list_fmap_compose.
  rewrite (list_fmap_ext _ id (row_number R keys))
    by (intros; apply Hinv).
  rewrite list_fmap_id. apply row_number_NoDup.
Qed.

Lemma entries_numbered {K D} (R : relation K) `{!RelDecision R}
    (row : Z * K → D) (entry : D → Z * K) (keys : list K) :
  (∀ nk, entry (row nk) = nk) →
  entry <$> (row <$> row_number R keys) = row_number R keys.
Proof.
  intros Hinv. rewrite <-list_fmap_compose.
  rewrite (list_fmap_ext _ id (row_number R keys))
    by (intros; apply Hinv).
  apply list_fmap_id.
Qed.

Lemma dim_location_window raw :
  _create_dim_location raw
  = dim_location_row <$> row_number location_order (location_keys raw).
Proof.
  unfold _create_dim_location.
  apply (distinct_numbered _ _ location_entry), location_entry_row.
Qed.

Lemma dim_magnitude_window raw :
  _create_dim_magnitude raw
  = dim_magnitude_row <$> row_number magnitude_order (magnitude_keys raw).
Proof.
  unfold _create_dim_magnitude.
  apply (distinct_numbered _ _ magnitude_entry), magnitude_entry_row.
Qed.

Lemma dim_time_window raw :
  _create_dim_time raw
  ≡ₚ dim_time_row <$> row_number time_order (time_keys raw).
Proof.
  unfold _create_dim_time. rewrite stable_sort_Permutation.
  by rewrite (distinct_numbered _ _ time_entry) by apply time_entry_row.
Qed.

Lemma dim_location_entries raw :
  location_entry <$> _create_dim_location raw
  = row_number location_order (location_keys raw).
Proof.
  rewrite dim_location_window.
  apply entries_numbered, location_entry_row.
Qed.

Lemma dim_magnitude_entries raw :
  magnitude_entry <$> _create_dim_magnitude raw
  = row_number magnitude_order (magnitude_keys raw).
Proof.
  rewrite dim_magnitude_window.
  apply entries_numbered, magnitude_entry_row.
Qed.

Lemma dim_time_entries raw :
  time_entry <$> _create_dim_time raw
  ≡ₚ row_number time_order (time_keys raw).
Proof.
  rewrite dim_time_window.
  by rewrite entries_numbered by apply time_entry_row.
Qed.

(** ** The joins of the fact query *)

Lemma elem_of_left_join {D} (cond : D → bool) (d : list D) (x : option D) :
  x ∈ left_join cond d ↔
  (x = None ∧ ∀ y, y ∈ d → cond y = false) ∨
  (∃ y, x = Some y ∧ y ∈ d ∧ cond y = true).
Proof.
  unfold left_join.
  destruct (List.filter cond d) as [|z zs] eqn:Hf.
  - rewrite list_elem_of_singleton. split.
    + intros ->. left. split; [done|]. intros y Hy.
      destruct (cond y) eqn:Hc; [|done].
      assert (In y (List.filter cond d)) as Hin.
      { apply filter_In. split; [by apply list_elem_of_In|done]. }
      rewrite Hf in Hin. destruct Hin.
    + intros [[-> _]|(y & -> & Hy & Hc)]; [done|].
      assert (In y (List.filter cond d)) as Hin.
      { apply filter_In. split; [by apply list_elem_of_In|done]. }
      rewrite Hf in Hin. destruct Hin.
  - rewrite <-Hf. rewrite list_elem_of_fmap. split.
    + intros (y & -> & Hy). right. exists y. split; [done|].
      apply list_elem_of_In, filter_In in Hy as [Hy Hc].
      split; [by apply list_elem_of_In|done].
    + intros [[-> Hnone]|(y & -> & Hy & Hc)].
      * assert (In z (List.filter cond d)) as Hin by (rewrite Hf; by left).
        apply filter_In in Hin as [Hz Hc].
        apply list_elem_of_In, Hnone in Hz. congruence.
      * exists y. split; [done|].
        apply list_elem_of_In, filter_In. split; [by apply list_elem_of_In|done].
Qed.

Lemma left_join_inhabited {D} (cond : D → bool) (d : list D) :
  ∃ x, x ∈ left_join cond d.
Proof.
  unfold left_join. destruct (List.filter cond d) as [|z zs].
  - exists None. by apply list_elem_of_singleton.
  - exists (Some z). simpl. apply elem_of_cons. by left.
Qed.

(** A join with a matching row yields matched rows only. *)
Lemma left_join_resolved {D} (cond : D → bool) (d : list D) y x :
  y ∈ d → cond y = true → x ∈ left_join cond d →
  ∃ z, x = Some z ∧ z ∈ d ∧ cond z = true.
Proof.
  intros Hy Hc [[_ Hnone]|?]%elem_of_left_join; [|done].
  apply Hnone in Hy. congruence.
Qed.

Lemma elem_of_fact_from dt dl dm raw (j : joined_row) :
  j ∈ fact_from dt dl dm raw ↔
  j.1.1.1 ∈ raw ∧
  j.1.1.2 ∈ left_join (on_time j.1.1.1) dt ∧
  j.1.2 ∈ left_join (on_location j.1.1.1) dl ∧
  j.2 ∈ left_join (on_magnitude j.1.1.1) dm.
Proof.
  unfold fact_from. destruct j as [[[r t] l] m]. simpl.
  rewrite list_elem_of_bind. split.
  - intros (r' & (t' & (l' & (m' & Hj & Hm)%list_elem_of_bind & Hl)
                   %list_elem_of_bind & Ht)%list_elem_of_bind & Hr).
    apply list_elem_of_singleton in Hj as [= -> -> -> ->]. done.
  - intros (Hr & Ht & Hl & Hm). exists r. split; [|done].
    apply list_elem_of_bind. exists t. split; [|done].
    apply list_elem_of_bind. exists l. split; [|done].
    apply list_elem_of_bind. exists m. split; [|done].
    by apply list_elem_of_singleton.
Qed.

Lemma elem_of_fact_where dt dl dm raw (j : joined_row) :
  j ∈ fact_where dt dl dm raw ↔
  j.1.1.1 ∈ raw ∧ prerequisites j.1.1.1 ∧
  j.1.1.2 ∈ left_join (on_time j.1.1.1) dt ∧
  j.1.2 ∈ left_join (on_location j.1.1.1) dl ∧
  j.2 ∈ left_join (on_magnitude j.1.1.1) dm.
Proof.
  unfold fact_where. rewrite list_elem_of_filter, elem_of_fact_from. tauto.
Qed.

(** ** The cast of the [SELECT] list *)

Lemma CAST_INTEGER_Some x n : CAST_INTEGER x = Some n → n = x.
Proof.
  destruct x as [v|]; simpl; [|by intros [= <-]].
  case_decide; [by intros [= <-]|done].
Qed.

Lemma fits_integer_spec x :
  fits_integer x ↔ ∀ v, x = Some v → -2147483648 ≤ v ≤ 2147483647.
Proof.
  unfold fits_integer. destruct x as [v|]; simpl.
  - case_decide as Hrange; split.
    + by intros _ ? [= <-].
    + by eexists.
    + by intros [? [=]].
    + intros Hv. destruct Hrange. by apply Hv.
  - split; [done|]. by eexists.
Qed.

Lemma fact_select_Some j f :
  fact_select j = Some f ↔
  fits_integer (Raw.num_stations j.1.1.1) ∧
  f = select_list j (Raw.num_stations j.1.1.1).
Proof.
  unfold fact_select, fits_integer. split.
  - destruct (CAST_INTEGER _) as [n|] eqn:Hn; simpl; [|done].
    intros [= <-]. split; [by eexists|].
    by rewrite (CAST_INTEGER_Some _ _ Hn).
  - intros [[n Hn] ->]. rewrite Hn. simpl.
    by rewrite (CAST_INTEGER_Some _ _ Hn).
Qed.

Lemma mapM_Some_elem {A B} (f : A → option B) (l : list A) (k : list B) y :
  mapM f l = Some k → y ∈ k ↔ ∃ x, x ∈ l ∧ f x = Some y.
Proof.
  intros Hm%mapM_Some_1. induction Hm as [|x z l k Hx _ IH].
  - split; [by intros ?%elem_of_nil|]. by intros (? & ?%elem_of_nil & _).
  - rewrite elem_of_cons, IH. split.
    + intros [->|(x' & ? & ?)].
      * exists x. split; [by apply elem_of_cons; left|done].
      * exists x'. split; [by apply elem_of_cons; right|done].
    + intros (x' & [->|?]%elem_of_cons & Hy).
      * left. congruence.
      * right. by exists x'.
Qed.

Lemma elem_of_fact_query dt dl dm raw q f :
  fact_query dt dl dm raw = Some q →
  f ∈ q ↔
  ∃ r t l m, fact_select (r, t, l, m) = Some f ∧ r ∈ raw ∧ prerequisites r ∧
             t ∈ left_join (on_time r) dt ∧
             l ∈ left_join (on_location r) dl ∧
             m ∈ left_join (on_magnitude r) dm.
Proof.
  intros Hq. rewrite (mapM_Some_elem _ _ _ _ Hq). split.
  - intros ([[[r t] l] m] & Hj%elem_of_fact_where & Hf). simpl in *.
    exists r, t, l, m. by destruct Hj as (? & ? & ? & ? & ?).
  - intros (r & t & l & m & Hf & Hr & Hp & Ht & Hl & Hm).
    exists (r, t, l, m). split; [|done]. by apply elem_of_fact_where.
Qed.

(** The first statement raises exactly when a row that passes the [WHERE]
    clause has a station count outside the 32-bit range. *)
Lemma fact_query_is_Some dt dl dm raw :
  is_Some (fact_query dt dl dm raw) ↔
  ∀ r, r ∈ raw → prerequisites r → fits_integer (Raw.num_stations r).
Proof.
  unfold fact_query. rewrite mapM_is_Some, Forall_forall. split.
  - intros Hall r Hr Hp.
    destruct (left_join_inhabited (on_time r) dt) as [t Ht].
    destruct (left_join_inhabited (on_location r) dl) as [l Hl].
    destruct (left_join_inhabited (on_magnitude r) dm) as [m Hm].
    destruct (Hall (r, t, l, m)) as [f Hf]; [by apply elem_of_fact_where|].
    by apply fact_select_Some in Hf as [? _].
  - intros Hall [[[r t] l] m] (Hr & Hp & _)%elem_of_fact_where. simpl in *.
    eexists. apply fact_select_Some. split; [by apply Hall|done].
Qed.

(** ** Key resolution *)

Lemma elem_of_row_number_key {K} (R : relation K) `{!RelDecision R}
    (keys : list K) k :
  k ∈ keys ↔ ∃ n, (n, k) ∈ row_number R keys.
Proof.
  rewrite <-(stable_sort_Permutation R keys), <-row_number_snd.
  rewrite list_elem_of_fmap. split.
  - intros ([n k'] & -> & ?). by exists n.
  - intros (n & ?). by exists (n, k).
Qed.

Lemma elem_of_distinct_omap {A K} `{EqDecision K} (f : A → option K)
    (l : list A) k :
  k ∈ DISTINCT (omap f l) ↔ ∃ x, x ∈ l ∧ f x = Some k.
Proof. unfold DISTINCT. by rewrite elem_of_remove_dups, list_elem_of_omap. Qed.

Lemma elem_of_dim_time raw d :
  d ∈ _create_dim_time raw ↔
  ∃ n k, d = dim_time_row (n, k) ∧ (n, k) ∈ row_number time_order (time_keys raw).
Proof.
  rewrite dim_time_window, list_elem_of_fmap. split.
  - intros ([n k] & -> & ?). by exists n, k.
  - intros (n & k & -> & ?). by exists (n, k).
Qed.

Lemma elem_of_dim_location raw d :
  d ∈ _create_dim_location raw ↔
  ∃ n k, d = dim_location_row (n, k) ∧
         (n, k) ∈ row_number location_order (location_keys raw).
Proof.
  rewrite dim_location_window, list_elem_of_fmap. split.
  - intros ([n k] & -> & ?). by exists n, k.
  - intros (n & k & -> & ?). by exists (n, k).
Qed.

Lemma elem_of_dim_magnitude raw d :
  d ∈ _create_dim_magnitude raw ↔
  ∃ n k, d = dim_magnitude_row (n, k) ∧
         (n, k) ∈ row_number magnitude_order (magnitude_keys raw).
Proof.
  rewrite dim_magnitude_window, list_elem_of_fmap. split.
  - intros ([n k] & -> & ?). by exists n, k.
  - intros (n & k & -> & ?). by exists (n, k).
Qed.

Lemma sql_eq_refl `{EqDecision A} (a : A) : sql_eq (Some a) (Some a) = true.
Proof. simpl. by apply bool_decide_eq_true. Qed.

(** A row with a datetime finds its row of [dim_time]. *)
Lemma time_match raw r :
  r ∈ raw → is_Some (Raw.datetime r) →
  ∃ t, t ∈ _create_dim_time raw ∧ on_time r t = true.
Proof.
  intros Hr [dt Hdt].
  set (k := (dt, (Raw.year r, Raw.month r, Raw.day r, Raw.hour r,
                  Raw.day_of_week r)) : time_key).
  assert (k ∈ time_keys raw) as Hk.
  { apply elem_of_distinct_omap. exists r. split; [done|].
    unfold time_key_of. by rewrite Hdt. }
  apply (elem_of_row_number_key time_order) in Hk as [n Hn].
  exists (dim_time_row (n, k)). split.
  - apply elem_of_dim_time. by exists n, k.
  - unfold on_time. rewrite Hdt. simpl. by apply bool_decide_eq_true.
Qed.

(** A row with coordinates finds its row of [dim_location]. *)
Lemma location_match raw r :
  r ∈ raw → is_Some (Raw.latitude r) → is_Some (Raw.longitude r) →
  ∃ l, l ∈ _create_dim_location raw ∧ on_location r l = true.
Proof.
  intros Hr [lat Hlat] [lon Hlon].
  set (k := (lat, lon, COALESCE (Raw.place r) "Unknown",
             COALESCE (Raw.region r) "Unknown") : location_key).
  assert (k ∈ location_keys raw) as Hk.
  { apply elem_of_distinct_omap. exists r. split; [done|].
    unfold location_key_of. by rewrite Hlat, Hlon. }
  apply (elem_of_row_number_key location_order) in Hk as [n Hn].
  exists (dim_location_row (n, k)). split.
  - apply elem_of_dim_location. by exists n, k.
  - unfold on_location. rewrite Hlat, Hlon. simpl.
    by rewrite !bool_decide_eq_true_2.
Qed.

(** A row with a magnitude and a magnitude category finds its row of
    [dim_magnitude]. *)
Lemma magnitude_match raw r :
  r ∈ raw → is_Some (Raw.magnitude r) → is_Some (Raw.magnitude_category r) →
  ∃ m, m ∈ _create_dim_magnitude raw ∧ on_magnitude r m = true.
Proof.
  intros Hr [mag Hmag] [cat Hcat].
  set (k := (mag, COALESCE (Raw.magnitude_type r) "Unknown", Some cat)
            : magnitude_key).
  assert (k ∈ magnitude_keys raw) as Hk.
  { apply elem_of_distinct_omap. exists r. split; [done|].
    unfold magnitude_key_of. by rewrite Hmag, Hcat. }
  apply (elem_of_row_number_key magnitude_order) in Hk as [n Hn].
  exists (dim_magnitude_row (n, k)). split.
  - apply elem_of_dim_magnitude. by exists n, k.
  - unfold on_magnitude. rewrite Hmag, Hcat. simpl.
    by rewrite !bool_decide_eq_true_2.
Qed.

(** A NULL magnitude category matches no row of any table. *)
Lemma magnitude_miss r m :
  Raw.magnitude_category r = None → on_magnitude r m = false.
Proof.
  intros Hc. unfold on_magnitude. rewrite Hc. simpl.
  by rewrite andb_false_r.
Qed.

(** *** The claim about the surrogate keys *)

(** Two rows of [dim_time] with one datetime are one row where the calendar
    is a function of the time. *)
Lemma dim_time_datetime_NoDup raw :
  calendar_by_datetime raw → NoDup (DimTime.datetime <$> _create_dim_time raw).
Proof.
  intros Hcal.
  replace (DimTime.datetime <$> _create_dim_time raw)
    with (fst <$> (time_entry <$> _create_dim_time raw).*2)
    by (by rewrite <-!list_fmap_compose).
  rewrite dim_time_entries, row_number_snd, stable_sort_Permutation.
  apply NoDup_fmap_2_strong; [|apply NoDup_remove_dups].
  intros k1 k2 (r1 & Hr1 & Hk1)%elem_of_distinct_omap
               (r2 & Hr2 & Hk2)%elem_of_distinct_omap Hfst.
  assert (time_key_of r1 = time_key_of r2) as Heq; [|congruence].
  apply Hcal; [done..|].
  destruct k1 as [d1 c1], k2 as [d2 c2].
  unfold time_key_of in Hk1, Hk2.
  destruct (Raw.datetime r1) as [e1|], (Raw.datetime r2) as [e2|];
    simplify_eq/=. done.
Qed.

(** C7, as the specification states it, fails: [dim_time] numbers the
    distinct tuples of datetime and calendar columns, so two raw rows of one
    datetime that differ in the year get the keys 1 and 2; and
    [dim_magnitude] does not coalesce the magnitude category, so a NULL
    category and the category 'Unknown' get the keys 1 and 2 although the
    coalesced tuples are one. *)
Lemma dimension_keys_exceed_natural_keys :
  length (DISTINCT (omap Raw.datetime two_calendars)) = 1%nat ∧
  DimTime.time_id <$> _create_dim_time two_calendars = [1; 2] ∧
  length (DISTINCT ((λ r, (Raw.magnitude r,
                           COALESCE (Raw.magnitude_type r) "Unknown",
                           COALESCE (Raw.magnitude_category r) "Unknown"))
                      <$> null_and_unknown)) = 1%nat ∧
  DimMagnitude.magnitude_id <$> _create_dim_magnitude null_and_unknown
  = [1; 2].
Proof. by vm_compute. Qed.

(** C7, amended: in each dimension table the surrogate keys are the numbers
    1..N, each once, for the N rows of the table, one row for every
    distinct tuple of the dimension's subquery and for no other, numbered
    in the order of the [ORDER BY] columns. The tuple of [dim_time] is the
    datetime of a raw row with a datetime together with its calendar
    columns; the tuple of [dim_location] is latitude, longitude, place and
    region of a raw row with both coordinates, place and region with
    'Unknown' for NULL; the tuple of [dim_magnitude] is magnitude, magnitude
    type and magnitude category of a raw row with a magnitude, the type with
    'Unknown' for NULL and the category as it is. Where the calendar columns
    are a function of the datetime, [dim_time] has one row per distinct
    datetime. *)
Theorem dimension_keys_dense raw :
  numbered_by_order time_order
    (λ '(datetime, (year, month, day, hour, day_of_week)),
       ∃ r, r ∈ raw ∧ Raw.datetime r = Some datetime ∧
            Raw.year r = year ∧ Raw.month r = month ∧ Raw.day r = day ∧
            Raw.hour r = hour ∧ Raw.day_of_week r = day_of_week)
    (time_entry <$> _create_dim_time raw) ∧
  numbered_by_order location_order
    (λ '(latitude, longitude, place, region),
       ∃ r, r ∈ raw ∧ Raw.latitude r = Some latitude ∧
            Raw.longitude r = Some longitude ∧
            COALESCE (Raw.place r) "Unknown" = place ∧
            COALESCE (Raw.region r) "Unknown" = region)
    (location_entry <$> _create_dim_location raw) ∧
  numbered_by_order magnitude_order
    (λ '(magnitude, magnitude_type, magnitude_category),
       ∃ r, r ∈ raw ∧ Raw.magnitude r = Some magnitude ∧
            COALESCE (Raw.magnitude_type r) "Unknown" = magnitude_type ∧
            Raw.magnitude_category r = magnitude_category)
    (magnitude_entry <$> _create_dim_magnitude raw) ∧
  (calendar_by_datetime raw →
   NoDup (DimTime.datetime <$> _create_dim_time raw)).
Proof.
  split; [|split; [|split]]; [| | |apply dim_time_datetime_NoDup].
  - eapply numbered_by_order_Permutation; [symmetry; apply dim_time_entries|].
    eapply numbered_by_order_iff;
      [|apply numbered_by_order_row_number; [apply _..|apply NoDup_remove_dups]].
    intros [dt [[[[y mo] d] h] dow]]. unfold time_keys.
    rewrite elem_of_distinct_omap. unfold time_key_of. split.
    + intros (r & Hr & Hk). exists r.
      destruct (Raw.datetime r); by simplify_eq/=.
    + intros (r & Hr & Hdt & <- & <- & <- & <- & <-). exists r.
      by rewrite Hdt.
  - rewrite dim_location_entries.
    eapply numbered_by_order_iff;
      [|apply numbered_by_order_row_number; [apply _..|apply NoDup_remove_dups]].
    intros [[[lat lon] p] g]. unfold location_keys.
    rewrite elem_of_distinct_omap. unfold location_key_of. split.
    + intros (r & Hr & Hk). exists r.
      destruct (Raw.latitude r), (Raw.longitude r); by simplify_eq/=.
    + intros (r & Hr & Hlat & Hlon & <- & <-). exists r.
      by rewrite Hlat, Hlon.
  - rewrite dim_magnitude_entries.
    eapply numbered_by_order_iff;
      [|apply numbered_by_order_row_number; [apply _..|apply NoDup_remove_dups]].
    intros [[m t] c]. unfold magnitude_keys.
    rewrite elem_of_distinct_omap. unfold magnitude_key_of. split.
    + intros (r & Hr & Hk). exists r.
      destruct (Raw.magnitude r); by simplify_eq/=.
    + intros (r & Hr & Hm & <- & <-). exists r. by rewrite Hm.
Qed.

(** ** Deduplication *)

Section first_per_key.
Context {A K : Type} `{EqDecision K} (key : A → K).

Lemma elem_of_first_per_key seen l x :
  x ∈ first_per_key key seen l → x ∈ l ∧ key x ∉ seen.
Proof.
  revert seen. induction l as [|y l IH]; intros seen; simpl.
  - by intros ?%elem_of_nil.
  - case_decide as Hy.
    + intros [? ?]%IH. split; [by apply elem_of_cons; right|done].
    + intros [->|[? Hx]%IH]%elem_of_cons.
      * split; [by apply elem_of_cons; left|done].
      * split; [by apply elem_of_cons; right|].
        by apply not_elem_of_cons in Hx as [_ ?].
Qed.

Lemma first_per_key_NoDup seen l : NoDup (key <$> first_per_key key seen l).
Proof.
  revert seen. induction l as [|y l IH]; intros seen; simpl; [constructor|].
  case_decide; [apply IH|]. rewrite ?fmap_cons. apply NoDup_cons. split; [|apply IH].
  intros (x & Hk & [_ Hx]%elem_of_first_per_key)%list_elem_of_fmap.
  apply Hx. rewrite <-Hk. apply elem_of_cons. by left.
Qed.

Lemma first_per_key_keys seen l k :
  k ∈ key <$> first_per_key key seen l ↔ k ∈ key <$> l ∧ k ∉ seen.
Proof.
  revert seen. induction l as [|y l IH]; intros seen; simpl.
  - rewrite elem_of_nil. tauto.
  - case_decide as Hy.
    + rewrite IH, ?fmap_cons, elem_of_cons. split; [tauto|].
      intros [[->|?] ?]; tauto.
    + rewrite ?fmap_cons, !elem_of_cons, IH, not_elem_of_cons. split.
      * intros [->|(? & ? & ?)]; tauto.
      * intros [[->|?] ?]; [tauto|].
        destruct (decide (k = key y)); tauto.
Qed.

Lemma first_per_key_keeps seen l x :
  x ∈ l → key x ∉ seen → (∀ y, y ∈ l → key y = key x → y = x) →
  x ∈ first_per_key key seen l.
Proof.
  revert seen. induction l as [|z l IH]; intros seen; simpl.
  - by intros ?%elem_of_nil.
  - intros Hx Hseen Huniq. case_decide as Hz.
    + apply IH; [|done|].
      * apply elem_of_cons in Hx as [->|?]; [done|done].
      * intros y Hy. apply Huniq. by apply elem_of_cons; right.
    + destruct (decide (key z = key x)) as [Heq|Hne].
      * assert (z = x) as ->.
        { apply Huniq; [by apply elem_of_cons; left|done]. }
        apply elem_of_cons. by left.
      * apply elem_of_cons. right. apply IH.
        -- apply elem_of_cons in Hx as [->|?]; [done|done].
        -- apply not_elem_of_cons. split; [congruence|done].
        -- intros y Hy. apply Huniq. by apply elem_of_cons; right.
Qed.
End first_per_key.

Section distinct_on.
Context {A K : Type} `{EqDecision K} (key : A → K).
Context (R : relation K) `{!RelDecision R}.

Lemma DISTINCT_ON_NoDup l : NoDup (key <$> DISTINCT_ON key R l).
Proof. apply first_per_key_NoDup. Qed.

Lemma DISTINCT_ON_keys l k : k ∈ key <$> DISTINCT_ON key R l ↔ k ∈ key <$> l.
Proof.
  unfold DISTINCT_ON. rewrite first_per_key_keys, stable_sort_Permutation.
  rewrite elem_of_nil. tauto.
Qed.

Lemma elem_of_DISTINCT_ON l x : x ∈ DISTINCT_ON key R l → x ∈ l.
Proof.
  intros [Hx _]%elem_of_first_per_key.
  by rewrite stable_sort_Permutation in Hx.
Qed.

Lemma DISTINCT_ON_keeps l x :
  x ∈ l → (∀ y, y ∈ l → key y = key x → y = x) → x ∈ DISTINCT_ON key R l.
Proof.
  intros Hx Huniq. apply first_per_key_keeps.
  - by rewrite stable_sort_Permutation.
  - apply not_elem_of_nil.
  - intros y. rewrite stable_sort_Permutation. apply Huniq.
Qed.
End distinct_on.

Lemma length_remove_dups_le `{EqDecision A} (l : list A) :
  (length (remove_dups l) ≤ length l)%nat.
Proof.
  induction l as [|x l IH]; simpl; [done|].
  destruct (decide_rel (∈) x l); simpl; lia.
Qed.

Lemma length_remove_dups_NoDup `{EqDecision A} (l : list A) :
  length (remove_dups l) = length l → NoDup l.
Proof.
  induction l as [|x l IH]; simpl; [constructor|].
  pose proof (length_remove_dups_le l).
  destruct (decide_rel (∈) x l); simpl; [lia|].
  intros [=]. apply NoDup_cons. auto.
Qed.

Lemma length_omap_le {A B} (f : A → option B) (l : list A) :
  (length (omap f l) ≤ length l)%nat.
Proof.
  induction l as [|x l IH]; csimpl; [done|].
  destruct (f x); csimpl; lia.
Qed.

Lemma length_omap_total {A B} (f : A → option B) (l : list A) :
  length (omap f l) = length l → f <$> l = Some <$> omap f l.
Proof.
  induction l as [|x l IH]; csimpl; [done|].
  pose proof (length_omap_le f l).
  destruct (f x) eqn:Hfx; csimpl; [|lia].
  intros [=]. f_equal. auto.
Qed.

(** The duplicate count is zero exactly when no event id is NULL or
    repeated. *)
Lemma count_duplicates_nonneg fact : 0 ≤ count_duplicates fact.
Proof.
  unfold count_duplicates, DISTINCT.
  pose proof (length_remove_dups_le (omap Fact.event_id fact)).
  pose proof (length_omap_le Fact.event_id fact). lia.
Qed.

Lemma count_duplicates_zero fact :
  ¬ 0 < count_duplicates fact → NoDup (Fact.event_id <$> fact).
Proof.
  unfold count_duplicates, DISTINCT. intros Hc.
  pose proof (length_remove_dups_le (omap Fact.event_id fact)).
  pose proof (length_omap_le Fact.event_id fact).
  rewrite length_omap_total by lia.
  apply NoDup_fmap_2; [apply _|].
  apply length_remove_dups_NoDup. lia.
Qed.

Lemma remove_duplicates_NoDup fact :
  NoDup (Fact.event_id <$> remove_duplicates fact).
Proof.
  unfold remove_duplicates. case_decide.
  - apply DISTINCT_ON_NoDup.
  - by apply count_duplicates_zero.
Qed.

Lemma remove_duplicates_keys fact k :
  k ∈ Fact.event_id <$> remove_duplicates fact ↔ k ∈ Fact.event_id <$> fact.
Proof.
  unfold remove_duplicates. case_decide; [|done].
  apply DISTINCT_ON_keys.
Qed.

Lemma elem_of_remove_duplicates fact f :
  f ∈ remove_duplicates fact → f ∈ fact.
Proof.
  unfold remove_duplicates. case_decide; [|done].
  apply elem_of_DISTINCT_ON.
Qed.

Lemma remove_duplicates_keeps fact f :
  f ∈ fact →
  (∀ g, g ∈ fact → Fact.event_id g = Fact.event_id f → g = f) →
  f ∈ remove_duplicates fact.
Proof.
  intros Hf Huniq. unfold remove_duplicates. case_decide; [|done].
  by apply DISTINCT_ON_keeps.
Qed.

Lemma length_remove_duplicates fact :
  length (remove_duplicates fact)
  = length (remove_dups (Fact.event_id <$> fact)).
Proof.
  rewrite <-(length_fmap Fact.event_id (remove_duplicates fact)).
  apply Permutation_length, NoDup_Permutation.
  - apply remove_duplicates_NoDup.
  - apply NoDup_remove_dups.
  - intros k. by rewrite remove_duplicates_keys, elem_of_remove_dups.
Qed.

Lemma filter_none {A} (P : A → Prop) `{!∀ x, Decision (P x)} (l : list A) :
  (∀ x, x ∈ l → ¬ P x) → filter P l = [].
Proof.
  induction l as [|x l IH]; [done|]. intros Hl.
  rewrite filter_cons, decide_False.
  - apply IH. intros y Hy. apply Hl. by apply elem_of_cons; right.
  - apply Hl. by apply elem_of_cons; left.
Qed.

Lemma filter_all {A} (P : A → Prop) `{!∀ x, Decision (P x)} (l : list A) :
  (∀ x, x ∈ l → P x) → filter P l = l.
Proof.
  induction l as [|x l IH]; [done|]. intros Hl.
  rewrite filter_cons, decide_True.
  - f_equal. apply IH. intros y Hy. apply Hl. by apply elem_of_cons; right.
  - apply Hl. by apply elem_of_cons; left.
Qed.

(** In a list without repeated keys a key that occurs marks one row. *)
Lemma length_filter_key {A K} `{EqDecision K} (key : A → K) (l : list A) k :
  NoDup (key <$> l) → k ∈ key <$> l →
  length (filter (λ x, key x = k) l) = 1%nat.
Proof.
  induction l as [|x l IH].
  - by intros _ ?%elem_of_nil.
  - rewrite fmap_cons. intros [Hx Hn]%NoDup_cons Hk.
    rewrite filter_cons. case_decide as Hkx.
    + simpl. f_equal. apply length_zero_iff_nil, filter_none.
      intros y Hy Hyk. apply Hx. rewrite Hkx, <-Hyk.
      apply list_elem_of_fmap. by exists y.
    + apply IH; [done|].
      apply elem_of_cons in Hk as [->|?]; [done|done].
Qed.

(** ** The rows of the fact table *)

(** The [WHERE] clause on a row given by its columns. *)
Ltac solve_prerequisites := repeat split; eexists; reflexivity.

Lemma elem_of_fact_rows_of raw r f :
  f ∈ fact_rows_of raw r ↔
  prerequisites r ∧
  ∃ t l m, fact_select (r, t, l, m) = Some f ∧
           t ∈ left_join (on_time r) (_create_dim_time raw) ∧
           l ∈ left_join (on_location r) (_create_dim_location raw) ∧
           m ∈ left_join (on_magnitude r) (_create_dim_magnitude raw).
Proof.
  unfold fact_rows_of. rewrite list_elem_of_omap. split.
  - intros ([[[r' t] l] m] & (Hr & Hp & ?)%elem_of_fact_where & Hf).
    simpl in *. apply list_elem_of_singleton in Hr as ->.
    split; [done|]. by exists t, l, m.
  - intros (Hp & t & l & m & Hf & ?). exists (r, t, l, m).
    split; [|done]. apply elem_of_fact_where.
    split; [by apply list_elem_of_singleton|done].
Qed.

(** Every row that passes the [WHERE] clause with a station count the cast
    accepts yields a row of the query. *)
Lemma fact_rows_of_inhabited raw r :
  prerequisites r → fits_integer (Raw.num_stations r) →
  ∃ f, f ∈ fact_rows_of raw r.
Proof.
  intros Hp Hfit.
  destruct (left_join_inhabited (on_time r) (_create_dim_time raw)) as [t Ht].
  destruct (left_join_inhabited (on_location r) (_create_dim_location raw))
    as [l Hl].
  destruct (left_join_inhabited (on_magnitude r) (_create_dim_magnitude raw))
    as [m Hm].
  exists (select_list (r, t, l, m) (Raw.num_stations r)).
  apply elem_of_fact_rows_of. split; [done|]. exists t, l, m.
  split; [by apply fact_select_Some|done].
Qed.

Lemma fact_rows_of_event_id raw r f :
  f ∈ fact_rows_of raw r → Fact.event_id f = Raw.event_id r.
Proof.
  by intros (_ & t & l & m & [_ ->]%fact_select_Some & _)%elem_of_fact_rows_of.
Qed.

(** Which keys of a fact row are resolved. *)
Lemma fact_rows_of_keys raw r f :
  r ∈ raw → f ∈ fact_rows_of raw r →
  is_Some (Fact.time_id f) ∧ is_Some (Fact.location_id f) ∧
  (Fact.magnitude_id f = None ↔ Raw.magnitude_category r = None).
Proof.
  intros Hr ((Hdt & Hlat & Hlon & Hmag) & t & l & m
             & [_ ->]%fact_select_Some & Ht & Hl & Hm)%elem_of_fact_rows_of.
  simpl. split; [|split].
  - destruct (time_match raw r Hr Hdt) as (t0 & Ht0 & Hc).
    destruct (left_join_resolved _ _ _ _ Ht0 Hc Ht) as (z & -> & _). by eexists.
  - destruct (location_match raw r Hr Hlat Hlon) as (l0 & Hl0 & Hc).
    destruct (left_join_resolved _ _ _ _ Hl0 Hc Hl) as (z & -> & _). by eexists.
  - destruct (Raw.magnitude_category r) as [c|] eqn:Hcat.
    + destruct (magnitude_match raw r Hr Hmag) as (m0 & Hm0 & Hc).
      { rewrite Hcat. by eexists. }
      destruct (left_join_resolved _ _ _ _ Hm0 Hc Hm) as (z & -> & _).
      split; intros [=].
    + split; [done|]. intros _.
      apply elem_of_left_join in Hm as [[-> _]|(z & _ & _ & Hc)]; [done|].
      by rewrite magnitude_miss in Hc.
Qed.

(** The [COALESCE] defaults of the [SELECT] list. *)
Lemma null_to_COALESCE {A} (d : A) (x : option A) : null_to d x (COALESCE x d).
Proof. by destruct x. Qed.

(** The fact query works row by row. *)
Lemma elem_of_fact_query_rows raw q f :
  fact_query (_create_dim_time raw) (_create_dim_location raw)
    (_create_dim_magnitude raw) raw = Some q →
  f ∈ q ↔ ∃ r, r ∈ raw ∧ f ∈ fact_rows_of raw r.
Proof.
  intros Hq. rewrite (elem_of_fact_query _ _ _ _ _ _ Hq). split.
  - intros (r & t & l & m & Hf & Hr & Hp & ?). exists r. split; [done|].
    apply elem_of_fact_rows_of. split; [done|]. by exists t, l, m.
  - intros (r & Hr & (Hp & t & l & m & Hf & ?)%elem_of_fact_rows_of).
    by exists r, t, l, m.
Qed.

(** The table the build leaves is the query's, after the duplicate pass. *)
Lemma fact_table_Some raw fact :
  fact_table (create_star_schema raw) = Some fact ↔
  ∃ q, fact_query (_create_dim_time raw) (_create_dim_location raw)
         (_create_dim_magnitude raw) raw = Some q ∧
       fact = remove_duplicates q.
Proof.
  simpl. unfold _create_fact_earthquakes.
  destruct (fact_query _ _ _ _) as [q|]; simpl; split.
  - intros [= <-]. by exists q.
  - by intros (q' & [= <-] & ->).
  - done.
  - by intros (? & ? & _).
Qed.

(** The build of the fact table completes exactly when every row that
    passes the [WHERE] clause has a station count the cast accepts. *)
Lemma fact_table_is_Some raw :
  is_Some (fact_table (create_star_schema raw)) ↔
  ∀ r, r ∈ raw → prerequisites r → fits_integer (Raw.num_stations r).
Proof.
  rewrite <-(fact_query_is_Some (_create_dim_time raw)
               (_create_dim_location raw) (_create_dim_magnitude raw) raw).
  simpl. unfold _create_fact_earthquakes.
  destruct (fact_query _ _ _ _) as [q|]; simpl; [|done].
  split; intros _; by eexists.
Qed.

Lemma fact_table_fits raw fact r :
  fact_table (create_star_schema raw) = Some fact →
  r ∈ raw → prerequisites r → fits_integer (Raw.num_stations r).
Proof.
  intros Hfact. apply fact_table_is_Some. by eexists.
Qed.

Lemma fact_earthquakes_Some raw fact :
  fact_table (create_star_schema raw) = Some fact →
  fact_earthquakes (create_star_schema raw) = fact.
Proof. unfold fact_earthquakes. by intros ->. Qed.

(** Every row of the fact table derives from a raw row. *)
Lemma fact_table_origin raw fact f :
  fact_table (create_star_schema raw) = Some fact → f ∈ fact →
  ∃ r, r ∈ raw ∧ f ∈ fact_rows_of raw r.
Proof.
  intros (q & Hq & ->)%fact_table_Some Hf%elem_of_remove_duplicates.
  by apply (elem_of_fact_query_rows raw q).
Qed.

Lemma fact_earthquakes_origin raw f :
  f ∈ fact_earthquakes (create_star_schema raw) →
  ∃ r, r ∈ raw ∧ f ∈ fact_rows_of raw r.
Proof.
  unfold fact_earthquakes.
  destruct (fact_table (create_star_schema raw)) as [fact|] eqn:Hfact; simpl.
  - by apply fact_table_origin.
  - by intros ?%elem_of_nil.
Qed.

(** What the duplicate pass leaves of a row of the query. *)
Lemma fact_row_survives raw fact r f :
  fact_table (create_star_schema raw) = Some fact →
  r ∈ raw → f ∈ fact_rows_of raw r →
  Fact.event_id f ∈ Fact.event_id <$> fact ∧
  ((∀ r' g, r' ∈ raw → g ∈ fact_rows_of raw r' →
            Fact.event_id g = Fact.event_id f → g = f) →
   f ∈ fact).
Proof.
  intros (q & Hq & ->)%fact_table_Some Hr Hf.
  assert (f ∈ q) as Hfq by (apply (elem_of_fact_query_rows raw q); eauto).
  split.
  - apply remove_duplicates_keys, list_elem_of_fmap. by exists f.
  - intros Huniq. apply remove_duplicates_keeps; [done|].
    intros g (r' & Hr' & Hg)%(elem_of_fact_query_rows raw q g Hq). eauto.
Qed.

(** The event ids of the table are those of the rows that pass the [WHERE]
    clause. *)
Lemma fact_table_event_ids raw fact k :
  fact_table (create_star_schema raw) = Some fact →
  k ∈ Fact.event_id <$> fact ↔
  k ∈ Raw.event_id <$> filter prerequisites raw.
Proof.
  intros Hfact.
  pose proof (fact_table_fits raw fact) as Hfit.
  apply fact_table_Some in Hfact as (q & Hq & ->).
  rewrite remove_duplicates_keys, !list_elem_of_fmap. split.
  - intros (f & -> & (r & Hr & Hf)%(elem_of_fact_query_rows raw q f Hq)).
    exists r. split; [by apply fact_rows_of_event_id in Hf|].
    apply list_elem_of_filter. split; [|done].
    by apply elem_of_fact_rows_of in Hf as [? _].
  - intros (r & -> & [Hp Hr]%list_elem_of_filter).
    destruct (fact_rows_of_inhabited raw r Hp) as [f Hf].
    { apply Hfit; [|done..]. apply fact_table_Some. by exists q. }
    exists f. split; [symmetry; by eapply fact_rows_of_event_id|].
    apply (elem_of_fact_query_rows raw q f Hq). by exists r.
Qed.

Lemma length_fact_table raw fact :
  fact_table (create_star_schema raw) = Some fact →
  length fact
  = length (remove_dups (Raw.event_id <$> filter prerequisites raw)).
Proof.
  intros Hfact.
  rewrite <-(length_fmap Fact.event_id fact).
  apply Permutation_length, NoDup_Permutation.
  - apply fact_table_Some in Hfact as (q & _ & ->).
    apply remove_duplicates_NoDup.
  - apply NoDup_remove_dups.
  - intros k. by rewrite elem_of_remove_dups, (fact_table_event_ids raw fact).
Qed.

(** *** The claims about the fact table *)

(** C2, as the specification states it, fails: a raw row that passes the
    prerequisites with a NULL magnitude category matches no row of
    [dim_magnitude], and the fact table keeps it with a NULL
    [magnitude_id]. *)
Lemma unresolved_magnitude_row_is_kept :
  prerequisites uncategorised_row ∧
  left_join (on_magnitude uncategorised_row)
    (_create_dim_magnitude [uncategorised_row]) = [None] ∧
  fmap (M := list) (λ f, (Fact.event_id f, Fact.magnitude_id f))
    <$> fact_table (create_star_schema [uncategorised_row])
  = Some [(Some "usgs003", None)].
Proof.
  split; [|split]; [|by vm_compute..].
  solve_prerequisites.
Qed.

(** C2, amended: where the fact build completes, a raw row that passes the
    prerequisite filter always resolves its time and location keys; its
    magnitude key fails to resolve exactly when its magnitude category is
    NULL, and the row is then kept by the fact query with a NULL
    [magnitude_id]. The duplicate pass leaves a row of its event id in the
    fact table, the row itself when no other row of the query carries that
    event id. *)
Theorem unresolved_key_is_kept raw r fact :
  r ∈ raw → prerequisites r →
  fact_table (create_star_schema raw) = Some fact →
  (∃ f, f ∈ fact_rows_of raw r) ∧
  ∀ f, f ∈ fact_rows_of raw r →
    (∃ q, fact_before_dedup raw = Some q ∧ f ∈ q) ∧
    is_Some (Fact.time_id f) ∧ is_Some (Fact.location_id f) ∧
    (Fact.magnitude_id f = None ↔ Raw.magnitude_category r = None) ∧
    Raw.event_id r ∈ Fact.event_id <$> fact ∧
    ((∀ r' g, r' ∈ raw → g ∈ fact_rows_of raw r' →
              Fact.event_id g = Fact.event_id f → g = f) →
     f ∈ fact).
Proof.
  intros Hr Hp Hfact. split.
  { apply fact_rows_of_inhabited; [done|]. by eapply fact_table_fits. }
  intros f Hf.
  destruct (fact_rows_of_keys raw r f Hr Hf) as (? & ? & ?).
  destruct (fact_row_survives raw fact r f Hfact Hr Hf) as [Hid Hkeep].
  rewrite (fact_rows_of_event_id raw r f Hf) in Hid.
  split; [|done].
  apply fact_table_Some in Hfact as (q & Hq & _). exists q. split; [done|].
  apply (elem_of_fact_query_rows raw q f Hq). by exists r.
Qed.

Lemma unresolved_key_is_kept_witness :
  ∃ fact,
    fact_table (create_star_schema [uncategorised_row]) = Some fact ∧
    (∃ f, f ∈ fact_rows_of [uncategorised_row] uncategorised_row) ∧
    ∀ f, f ∈ fact_rows_of [uncategorised_row] uncategorised_row →
      (∃ q, fact_before_dedup [uncategorised_row] = Some q ∧ f ∈ q) ∧
      is_Some (Fact.time_id f) ∧ is_Some (Fact.location_id f) ∧
      (Fact.magnitude_id f = None ↔
       Raw.magnitude_category uncategorised_row = None) ∧
      Raw.event_id uncategorised_row ∈ Fact.event_id <$> fact ∧
      ((∀ r' g, r' ∈ [uncategorised_row] →
                g ∈ fact_rows_of [uncategorised_row] r' →
                Fact.event_id g = Fact.event_id f → g = f) →
       f ∈ fact).
Proof.
  eexists. split; [vm_compute; reflexivity|].
  apply (unresolved_key_is_kept [uncategorised_row] uncategorised_row).
  - apply list_elem_of_singleton. reflexivity.
  - solve_prerequisites.
  - vm_compute. reflexivity.
Defined.

(** The cast of the [SELECT] list: with a station count past the 32-bit
    range in a row that passes the prerequisites the first statement raises
    and the build leaves no fact table. *)
Remark overflowing_station_count_leaves_no_fact_table :
  Forall prerequisites overflowing_rows ∧
  Raw.num_stations <$> overflowing_rows = [None; Some 2147483648] ∧
  fact_table (create_star_schema overflowing_rows) = None ∧
  fact_earthquakes (create_star_schema overflowing_rows) = [].
Proof.
  split; [|by vm_compute].
  repeat constructor; eexists; reflexivity.
Qed.

(** C10: the fact build completes when every station count of a row that
    passes the prerequisites is NULL or within the 32-bit range of the
    [INTEGER] cast. A raw row that passes the prerequisites then yields a
    row of the fact query, whatever is NULL in its other columns; in that
    row a NULL depth, moon phase or numeric quality field reads 0, and a
    NULL depth category, network, status, event type or moon phase name
    reads 'Unknown'. The duplicate pass leaves a row of its event id in the
    fact table, the row itself when no other row of the query carries that
    event id. *)
Theorem null_measures_get_defaults raw r :
  r ∈ raw → prerequisites r →
  (∀ r' v, r' ∈ raw → prerequisites r' → Raw.num_stations r' = Some v →
           -2147483648 ≤ v ≤ 2147483647) →
  ∃ fact,
    fact_table (create_star_schema raw) = Some fact ∧
    (∃ f, f ∈ fact_rows_of raw r) ∧
    ∀ f, f ∈ fact_rows_of raw r →
      null_to (dbl 0 1) (Raw.depth r) (Fact.depth f) ∧
      null_to (dbl 0 1) (Raw.moon_phase r) (Fact.moon_phase f) ∧
      null_to 0 (Raw.num_stations r) (Fact.num_stations f) ∧
      null_to (dbl 0 1) (Raw.azimuthal_gap r) (Fact.azimuthal_gap f) ∧
      null_to (dbl 0 1) (Raw.min_distance r) (Fact.min_distance f) ∧
      null_to (dbl 0 1) (Raw.rms r) (Fact.rms f) ∧
      null_to (dbl 0 1) (Raw.horizontal_error r) (Fact.horizontal_error f) ∧
      null_to (dbl 0 1) (Raw.depth_error r) (Fact.depth_error f) ∧
      null_to (dbl 0 1) (Raw.magnitude_error r) (Fact.magnitude_error f) ∧
      null_to "Unknown" (Raw.depth_category r) (Fact.depth_category f) ∧
      null_to "Unknown" (Raw.network r) (Fact.network f) ∧
      null_to "Unknown" (Raw.status r) (Fact.status f) ∧
      null_to "Unknown" (Raw.event_type r) (Fact.event_type f) ∧
      null_to "Unknown" (Raw.moon_phase_name r) (Fact.moon_phase_name f) ∧
      Raw.event_id r ∈ Fact.event_id <$> fact ∧
      ((∀ r' g, r' ∈ raw → g ∈ fact_rows_of raw r' →
                Fact.event_id g = Fact.event_id f → g = f) →
       f ∈ fact).
Proof.
  intros Hr Hp Hrange.
  assert (∀ r', r' ∈ raw → prerequisites r' →
                fits_integer (Raw.num_stations r')) as Hfit.
  { intros r' Hr' Hp'. apply fits_integer_spec. intros v Hv. by eapply Hrange. }
  destruct (proj2 (fact_table_is_Some raw) Hfit) as [fact Hfact].
  exists fact. split; [done|].
  split; [apply fact_rows_of_inhabited; auto|]. intros f Hf.
  destruct (fact_row_survives raw fact r f Hfact Hr Hf) as [Hid Hkeep].
  rewrite (fact_rows_of_event_id raw r f Hf) in Hid.
  apply elem_of_fact_rows_of in Hf as (_ & t & l & m & [_ ->]%fact_select_Some & _).
  simpl. repeat (split; [first [done | apply null_to_COALESCE]|]). done.
Qed.

Lemma null_measures_get_defaults_witness :
  ∃ fact,
    fact_table (create_star_schema [uncategorised_row]) = Some fact ∧
    (∃ f, f ∈ fact_rows_of [uncategorised_row] uncategorised_row) ∧
    ∀ f, f ∈ fact_rows_of [uncategorised_row] uncategorised_row →
      null_to (dbl 0 1) (Some (dbl 5 1)) (Fact.depth f) ∧
      null_to (dbl 0 1) None (Fact.moon_phase f) ∧
      null_to 0 None (Fact.num_stations f) ∧
      null_to (dbl 0 1) None (Fact.azimuthal_gap f) ∧
      null_to (dbl 0 1) None (Fact.min_distance f) ∧
      null_to (dbl 0 1) None (Fact.rms f) ∧
      null_to (dbl 0 1) None (Fact.horizontal_error f) ∧
      null_to (dbl 0 1) None (Fact.depth_error f) ∧
      null_to (dbl 0 1) None (Fact.magnitude_error f) ∧
      null_to "Unknown" (Some "Shallow") (Fact.depth_category f) ∧
      null_to "Unknown" (Some "ci") (Fact.network f) ∧
      null_to "Unknown" None (Fact.status f) ∧
      null_to "Unknown" (Some "earthquake") (Fact.event_type f) ∧
      null_to "Unknown" None (Fact.moon_phase_name f) ∧
      Some "usgs003" ∈ Fact.event_id <$> fact ∧
      ((∀ r' g, r' ∈ [uncategorised_row] →
                g ∈ fact_rows_of [uncategorised_row] r' →
                Fact.event_id g = Fact.event_id f → g = f) →
       f ∈ fact).
Proof.
  apply (null_measures_get_defaults [uncategorised_row] uncategorised_row).
  - apply list_elem_of_singleton. reflexivity.
  - solve_prerequisites.
  - intros r' v ->%list_elem_of_singleton _. discriminate.
Defined.

(** C3: after the fact build completes, duplicate pass included, no event
    id occurs twice in the fact table, whatever the raw table holds; the
    table has one row for every event id among the raw rows that pass the
    prerequisites. For three such rows of which the first and the third
    share the id "usgs001" and differ in depth, the table has two rows, one
    of them with that id. *)
Theorem fact_event_id_unique raw fact :
  fact_table (create_star_schema raw) = Some fact →
  NoDup (Fact.event_id <$> fact) ∧
  length fact
  = length (remove_dups (Raw.event_id <$> filter prerequisites raw)) ∧
  ∀ r1 r2 r3,
    raw = [r1; r2; r3] →
    prerequisites r1 → prerequisites r2 → prerequisites r3 →
    Raw.event_id r1 = Some "usgs001" → Raw.event_id r3 = Some "usgs001" →
    Raw.event_id r2 ≠ Some "usgs001" → Raw.depth r1 ≠ Raw.depth r3 →
    length fact = 2%nat ∧
    length (filter (λ f, Fact.event_id f = Some "usgs001") fact) = 1%nat.
Proof.
  intros Hfact.
  assert (NoDup (Fact.event_id <$> fact)) as Hnd.
  { apply fact_table_Some in Hfact as (q & _ & ->).
    apply remove_duplicates_NoDup. }
  split; [done|]. split; [by apply length_fact_table|].
  intros r1 r2 r3 -> Hp1 Hp2 Hp3 H1 H3 H2 _. split.
  - rewrite (length_fact_table _ _ Hfact).
    rewrite !filter_cons, !decide_True, filter_nil by done.
    rewrite !fmap_cons, H1, H3. simpl.
    destruct (decide_rel _ _ _) as [_|Hn].
    + destruct (decide_rel _ _ _) as [Hin|_]; [|done].
      apply elem_of_cons in Hin as [?|Hin]; [done|].
      by apply elem_of_nil in Hin.
    + destruct Hn. apply elem_of_cons. right. apply elem_of_cons. by left.
  - apply length_filter_key; [done|].
    apply (fact_table_event_ids _ _ _ Hfact).
    apply list_elem_of_fmap. exists r1. split; [done|].
    apply list_elem_of_filter. split; [done|]. apply elem_of_cons. by left.
Qed.

Lemma fact_event_id_unique_witness :
  ∃ fact,
    fact_table (create_star_schema three_rows) = Some fact ∧
    NoDup (Fact.event_id <$> fact) ∧
    length fact = 2%nat ∧
    length (filter (λ f, Fact.event_id f = Some "usgs001") fact) = 1%nat.
Proof.
  eexists. split; [vm_compute; reflexivity|].
  destruct (fact_event_id_unique three_rows _ eq_refl) as (Hn & _ & Hex).
  split; [exact Hn|].
  refine (Hex _ _ _ eq_refl _ _ _ eq_refl eq_refl _ _).
  - solve_prerequisites.
  - solve_prerequisites.
  - solve_prerequisites.
  - discriminate.
  - vm_compute. discriminate.
Defined.

(** ** At most one match per join *)

Lemma NoDup_fmap_elem_eq {A B} (f : A → B) (l : list A) x y :
  NoDup (f <$> l) → x ∈ l → y ∈ l → f x = f y → x = y.
Proof.
  induction l as [|z l IH]; [by intros _ ?%elem_of_nil|].
  rewrite fmap_cons. intros [Hz Hn]%NoDup_cons.
  intros [->|Hx]%elem_of_cons [->|Hy]%elem_of_cons Heq; [done| | |by apply IH].
  - destruct Hz. rewrite Heq. apply list_elem_of_fmap. by exists y.
  - destruct Hz. rewrite <-Heq. apply list_elem_of_fmap. by exists x.
Qed.

(** A natural key has one surrogate key. *)
Lemma row_number_key_unique {K} (R : relation K) `{!RelDecision R}
    (keys : list K) n1 n2 k :
  NoDup keys → (n1, k) ∈ row_number R keys → (n2, k) ∈ row_number R keys →
  n1 = n2.
Proof.
  intros Hn H1 H2.
  assert ((n1, k) = (n2, k)) as [=]; [|done].
  apply (NoDup_fmap_elem_eq snd (row_number R keys)); [|done..].
  by rewrite row_number_snd, stable_sort_Permutation.
Qed.

Lemma left_join_unique {D} (cond : D → bool) (d : list D) x y :
  (∀ a b, a ∈ d → b ∈ d → cond a = true → cond b = true → a = b) →
  x ∈ left_join cond d → y ∈ left_join cond d → x = y.
Proof.
  intros Huniq [[-> Hx]|(a & -> & Ha & Hca)]%elem_of_left_join
               [[-> Hy]|(b & -> & Hb & Hcb)]%elem_of_left_join.
  - done.
  - apply Hx in Hb. congruence.
  - apply Hy in Ha. congruence.
  - f_equal. by apply Huniq.
Qed.

Lemma sql_eq_true `{EqDecision A} (x y : option A) :
  sql_eq x y = true → ∃ a, x = Some a ∧ y = Some a.
Proof.
  destruct x as [a|], y as [b|]; simpl; try done.
  intros ->%bool_decide_eq_true. by exists b.
Qed.

Lemma time_match_unique raw r a b :
  calendar_by_datetime raw →
  a ∈ _create_dim_time raw → b ∈ _create_dim_time raw →
  on_time r a = true → on_time r b = true → a = b.
Proof.
  intros Hcal (n1 & k1 & -> & H1)%elem_of_dim_time
              (n2 & k2 & -> & H2)%elem_of_dim_time
              (dt & Hdt & Ha)%sql_eq_true (dt' & Hdt' & Hb)%sql_eq_true.
  assert (k1 ∈ time_keys raw) as Hk1
    by (apply (elem_of_row_number_key time_order); by exists n1).
  assert (k2 ∈ time_keys raw) as Hk2
    by (apply (elem_of_row_number_key time_order); by exists n2).
  assert (k1 = k2) as ->.
  { apply elem_of_distinct_omap in Hk1 as (r1 & Hr1 & Hkey1).
    apply elem_of_distinct_omap in Hk2 as (r2 & Hr2 & Hkey2).
    assert (time_key_of r1 = time_key_of r2) as Heq; [|congruence].
    apply Hcal; [done..|].
    destruct k1 as [d1 c1], k2 as [d2 c2].
    unfold time_key_of in Hkey1, Hkey2.
    destruct (Raw.datetime r1) as [e1|], (Raw.datetime r2) as [e2|];
      simplify_eq/=. done. }
  f_equal. f_equal.
  eapply (row_number_key_unique time_order); [apply NoDup_remove_dups|done..].
Qed.

Lemma location_match_unique raw r a b :
  a ∈ _create_dim_location raw → b ∈ _create_dim_location raw →
  on_location r a = true → on_location r b = true → a = b.
Proof.
  intros (n1 & [[[lat1 lon1] p1] g1] & -> & H1)%elem_of_dim_location
         (n2 & [[[lat2 lon2] p2] g2] & -> & H2)%elem_of_dim_location.
  unfold on_location. simpl.
  intros [[[(x1 & Hx1 & ?)%sql_eq_true (y1 & Hy1 & ?)%sql_eq_true]%andb_true_iff
             ?%bool_decide_eq_true]%andb_true_iff
            ?%bool_decide_eq_true]%andb_true_iff.
  intros [[[(x2 & Hx2 & ?)%sql_eq_true (y2 & Hy2 & ?)%sql_eq_true]%andb_true_iff
             ?%bool_decide_eq_true]%andb_true_iff
            ?%bool_decide_eq_true]%andb_true_iff.
  simplify_eq/=. f_equal. f_equal.
  eapply (row_number_key_unique location_order);
    [apply NoDup_remove_dups|done..].
Qed.

Lemma magnitude_match_unique raw r a b :
  a ∈ _create_dim_magnitude raw → b ∈ _create_dim_magnitude raw →
  on_magnitude r a = true → on_magnitude r b = true → a = b.
Proof.
  intros (n1 & [[m1 t1] c1] & -> & H1)%elem_of_dim_magnitude
         (n2 & [[m2 t2] c2] & -> & H2)%elem_of_dim_magnitude.
  unfold on_magnitude. simpl.
  intros [[(x1 & Hx1 & ?)%sql_eq_true ?%bool_decide_eq_true]%andb_true_iff
            (z1 & Hz1 & ?)%sql_eq_true]%andb_true_iff.
  intros [[(x2 & Hx2 & ?)%sql_eq_true ?%bool_decide_eq_true]%andb_true_iff
            (z2 & Hz2 & ?)%sql_eq_true]%andb_true_iff.
  simplify_eq/=. f_equal. f_equal.
  eapply (row_number_key_unique magnitude_order);
    [apply NoDup_remove_dups|done..].
Qed.

(** With the calendar a function of the time, a raw row yields one fact
    row. *)
Lemma fact_rows_of_unique raw r f g :
  calendar_by_datetime raw →
  f ∈ fact_rows_of raw r → g ∈ fact_rows_of raw r → f = g.
Proof.
  intros Hcal
    (_ & t1 & l1 & m1 & [_ ->]%fact_select_Some & Ht1 & Hl1 & Hm1)
      %elem_of_fact_rows_of
    (_ & t2 & l2 & m2 & [_ ->]%fact_select_Some & Ht2 & Hl2 & Hm2)
      %elem_of_fact_rows_of.
  assert (t1 = t2) as ->.
  { eapply left_join_unique; [|done..]. intros a b. by apply time_match_unique. }
  assert (l1 = l2) as ->.
  { eapply left_join_unique; [|done..]. intros a b. apply location_match_unique. }
  assert (m1 = m2) as ->.
  { eapply left_join_unique; [|done..]. intros a b. apply magnitude_match_unique. }
  done.
Qed.

Lemma calendar_by_datetime_Forall raw :
  Forall (λ r1, Forall (λ r2, Raw.datetime r1 = Raw.datetime r2 →
                          time_key_of r1 = time_key_of r2) raw) raw →
  calendar_by_datetime raw.
Proof.
  intros H r1 r2 Hr1 Hr2. rewrite Forall_forall in H.
  specialize (H r1 Hr1). rewrite Forall_forall in H. by apply H.
Qed.

(** ** Which row of an event id the duplicate pass keeps *)













(** *** The claim about rebuilding *)

Section rebuild.
Variable POWER : Qc → Qc → Qc.

Local Abbreviation rebuild := (rebuild_olap_layer POWER).


End rebuild.

(** On the three sample rows, of which the first and the third carry the
    event "usgs001", the variant of the first row, with depth 5, is the one
    in the fact table; with the rows stored in the reverse order it is the
    variant with depth 9. *)
Remark first_arrival_survives POWER :
  (fmap (M := list) (λ f, (Fact.event_id f, Fact.depth f)) <$>
     olap_fact_earthquakes
       (rebuild_olap_layer POWER three_rows no_olap_layer).1)
  = Some [(Some "usgs001", dbl 5 1); (Some "usgs002", dbl 7 1)] ∧
  (fmap (M := list) (λ f, (Fact.event_id f, Fact.depth f)) <$>
     olap_fact_earthquakes
       (rebuild_olap_layer POWER (reverse three_rows) no_olap_layer).1)
  = Some [(Some "usgs001", dbl 9 1); (Some "usgs002", dbl 7 1)].
Proof. split; by vm_compute. Qed.

(** * Properties of the transformer *)

Lemma latitude_95_invalid : ¬ within (dbl (-90) 1) (dbl 90 1) (Some (dbl 95 1)).
Proof. intros [_ H]. revert H. by apply Qclt_not_le. Qed.

Lemma clean_validate_app cfg a b :
  _validate_data cfg (_clean_data (a ++ b))
  = _validate_data cfg (_clean_data a) ++ _validate_data cfg (_clean_data b).
Proof.
  unfold _validate_data, _clean_data.
  by rewrite filter_app, fmap_app, !filter_app.
Qed.

(** A row at latitude 95 does not pass [_clean_data] and [_validate_data]. *)
Lemma clean_validate_latitude_95 cfg bad :
  in_latitude bad = Some (dbl 95 1) →
  _validate_data cfg (_clean_data [bad]) = [].
Proof.
  intros Hlat. unfold _validate_data. apply filter_none.
  intros r [_ [_ Hr]%list_elem_of_filter]%list_elem_of_filter.
  unfold _clean_data in Hr.
  apply list_elem_of_fmap in Hr as (x & -> & [_ Hx]%list_elem_of_filter).
  apply list_elem_of_singleton in Hx as ->.
  intros [Hc _]. simpl in Hc. rewrite Hlat in Hc.
  by apply latitude_95_invalid.
Qed.

(** A valid row passes both, with its depth and place filled. *)
Lemma clean_validate_valid strptime cfg l :
  Forall (valid_frame_row strptime cfg) l →
  _validate_data cfg (_clean_data l) = fill_depth_place <$> l.
Proof.
  induction 1 as [|r l (Hc & Hm & Hd & Hco & _) _ IH]; [done|].
  change (r :: l) with ([r] ++ l).
  rewrite clean_validate_app, IH, fmap_app. f_equal.
  unfold _clean_data, _validate_data.
  rewrite (filter_cons critical_present), decide_True, filter_nil by done.
  rewrite !fmap_cons, fmap_nil.
  rewrite (filter_cons (magnitude_valid cfg)), decide_True, filter_nil by done.
  rewrite (filter_cons (depth_valid cfg)), decide_True, filter_nil by done.
  by rewrite (filter_cons coordinates_valid), decide_True, filter_nil.
Qed.

Lemma Forall2_elem_of_r {A B} (P : A → B → Prop) l k y :
  Forall2 P l k → y ∈ k → ∃ x, x ∈ l ∧ P x y.
Proof.
  induction 1 as [|x y' l k HP _ IH]; [by intros ?%elem_of_nil|].
  intros [->|Hy]%elem_of_cons.
  - exists x. split; [by apply elem_of_cons; left|done].
  - destruct (IH Hy) as (x' & ? & ?). exists x'.
    split; [by apply elem_of_cons; right|done].
Qed.

Section transform_facts.
Variable strptime : string → option Z.
Variables dt_year dt_month dt_day dt_hour dt_weekday : Z → Z.
Variable moon_phase_degrees : Z → option Qc.

Local Abbreviation enrich_row' :=
  (enrich_row strptime dt_year dt_month dt_day dt_hour dt_weekday).
Local Abbreviation transform' :=
  (transform strptime dt_year dt_month dt_day dt_hour dt_weekday
     moon_phase_degrees).

Lemma enrich_row_valid cfg r :
  valid_frame_row strptime cfg r → is_Some (enrich_row' (fill_depth_place r)).
Proof.
  intros (_ & _ & _ & _ & [t Ht]). unfold enrich_row. simpl.
  destruct (in_time r) as [s|]; simpl in *; [|done].
  rewrite Ht. simpl. by eexists.
Qed.

Lemma enrich_row_latitude r r' :
  enrich_row' r = Some r' → Raw.latitude r' = in_latitude r.
Proof.
  unfold enrich_row. intros Hr.
  destruct (match in_time r with Some s => Some <$> strptime s | None => Some None end);
    simplify_eq/=. done.
Qed.

Lemma add_moon_row_latitude r :
  Raw.latitude (add_moon_row moon_phase_degrees r) = Raw.latitude r.
Proof. done. Qed.

(** What [transform] returns on a frame of valid rows around dropped
    ones. *)
Lemma transform_kept cfg df kept :
  _validate_data cfg (_clean_data df) = fill_depth_place <$> kept →
  Forall (valid_frame_row strptime cfg) kept →
  ∃ out,
    transform' cfg df
    = Some (out, Z.of_nat (length df) - Z.of_nat (length kept)) ∧
    length out = length kept ∧
    ∀ r, r ∈ out → ∃ x, x ∈ kept ∧ Raw.latitude r = in_latitude x.
Proof.
  intros Hk Hv. unfold transform, _standardize_columns. rewrite Hk.
  assert (is_Some (_enrich_data strptime dt_year dt_month dt_day dt_hour
                     dt_weekday (fill_depth_place <$> kept))) as [df3 H3].
  { apply mapM_is_Some_2, Forall_fmap.
    eapply Forall_impl; [done|]. intros r Hr. by apply (enrich_row_valid cfg). }
  rewrite H3. simpl.
  pose proof (length_mapM _ _ _ H3) as Hlen. rewrite length_fmap in Hlen.
  eexists. split; [|split].
  - unfold _add_moon_phase. by rewrite length_fmap, <-Hlen.
  - unfold _add_moon_phase. by rewrite length_fmap.
  - intros r (r3 & -> & Hr3)%list_elem_of_fmap.
    apply mapM_Some_1 in H3.
    destruct (Forall2_elem_of_r _ _ _ _ H3 Hr3) as (x' & Hx' & He).
    apply list_elem_of_fmap in Hx' as (x & -> & Hx).
    exists x. split; [done|].
    by rewrite add_moon_row_latitude, (enrich_row_latitude _ _ He).
Qed.
End transform_facts.

(** Every row of [dim_location] takes its latitude from a raw row. *)
Lemma dim_location_latitude raw d :
  d ∈ _create_dim_location raw →
  ∃ r, r ∈ raw ∧ Raw.latitude r = Some (DimLocation.latitude d).
Proof.
  intros (n & k & -> & Hk)%elem_of_dim_location.
  assert (k ∈ location_keys raw) as Hin.
  { apply (elem_of_row_number_key location_order). by exists n. }
  apply elem_of_distinct_omap in Hin as (r & Hr & Hkey).
  exists r. split; [done|].
  unfold location_key_of in Hkey.
  destruct (Raw.latitude r) as [lat|], (Raw.longitude r) as [lon|];
    simplify_eq/=. done.
Qed.

(** *** The claim about an invalid latitude *)

(** The range test is the transformer's: [create_star_schema] tests the
    coordinates for NULL only, and a table that held a row at latitude 95
    would pass it on to [dim_location]. *)
Remark schema_builder_has_no_range_test :
  DimLocation.latitude
    <$> dim_location
          (create_star_schema [sample_row_at 95 "usgs004" 400 5 (Some "Light")])
  = [dbl 95 1].
Proof. by vm_compute. Qed.

(** C8: of a frame whose rows are valid except for one row at latitude 95,
    [transform] returns the valid rows and reports one removed row; the
    result is the one for the frame without that row, so the row reaches
    no table: every raw row and every row of [dim_location] has its
    latitude within -90..90, and every row of the fact table derives from
    one of the raw rows. *)
Theorem invalid_latitude_row_is_dropped
    (strptime : string → option Z)
    (dt_year dt_month dt_day dt_hour dt_weekday : Z → Z)
    (moon_phase_degrees : Z → option Qc)
    (cfg : validation_config) (l1 : list frame_row) (bad : frame_row)
    (l2 : list frame_row) :
  in_latitude bad = Some (dbl 95 1) →
  Forall (valid_frame_row strptime cfg) (l1 ++ l2) →
  ∃ out,
    transform strptime dt_year dt_month dt_day dt_hour dt_weekday
      moon_phase_degrees cfg (l1 ++ bad :: l2) = Some (out, 1) ∧
    transform strptime dt_year dt_month dt_day dt_hour dt_weekday
      moon_phase_degrees cfg (l1 ++ l2) = Some (out, 0) ∧
    (∀ r, r ∈ load_raw_data out →
          within (dbl (-90) 1) (dbl 90 1) (Raw.latitude r)) ∧
    (∀ d, d ∈ dim_location (create_star_schema (load_raw_data out)) →
          between (DimLocation.latitude d) (dbl (-90) 1) (dbl 90 1)) ∧
    (∀ f, f ∈ fact_earthquakes (create_star_schema (load_raw_data out)) →
          ∃ r, r ∈ load_raw_data out ∧ f ∈ fact_rows_of (load_raw_data out) r).
Proof.
  intros Hlat Hv.
  pose proof (clean_validate_valid strptime cfg _ Hv) as Hkept.
  assert (_validate_data cfg (_clean_data (l1 ++ bad :: l2))
          = fill_depth_place <$> (l1 ++ l2)) as Hkept'.
  { rewrite <-Hkept. change (bad :: l2) with ([bad] ++ l2).
    rewrite !clean_validate_app, (clean_validate_latitude_95 cfg bad Hlat).
    done. }
  destruct (transform_kept strptime dt_year dt_month dt_day dt_hour dt_weekday
              moon_phase_degrees cfg _ _ Hkept' Hv) as (out & Ht & Hlen & Hrows).
  destruct (transform_kept strptime dt_year dt_month dt_day dt_hour dt_weekday
              moon_phase_degrees cfg _ _ Hkept Hv) as (out' & Ht' & _ & _).
  assert (out' = out) as ->.
  { unfold transform, _standardize_columns in Ht, Ht'.
    rewrite Hkept' in Ht. rewrite Hkept in Ht'.
    destruct (_enrich_data _ _ _ _ _ _ _); simplify_eq/=. done. }
  assert (∀ r, r ∈ out → within (dbl (-90) 1) (dbl 90 1) (Raw.latitude r))
    as Hraw.
  { intros r (x & Hx & ->)%Hrows.
    rewrite Forall_forall in Hv.
    by destruct (Hv x Hx) as (_ & _ & _ & [? _] & _). }
  exists out. split; [|split; [|split; [|split]]].
  - rewrite Ht. do 2 f_equal. rewrite !length_app. simpl. lia.
  - rewrite Ht'. do 2 f_equal. lia.
  - done.
  - unfold load_raw_data. simpl.
    intros d (r & Hr & Hd)%dim_location_latitude.
    specialize (Hraw r Hr). by rewrite Hd in Hraw.
  - unfold load_raw_data. apply fact_earthquakes_origin.
Qed.

Lemma invalid_latitude_row_is_dropped_witness :
  in_latitude (frame_row_at "usgs002" 95) = Some (dbl 95 1) ∧
  Forall (valid_frame_row sample_strptime default_validation)
    ([frame_row_at "usgs001" 35] ++ [frame_row_at "usgs003" 36]) ∧
  ∃ out,
    transform sample_strptime sample_calendar sample_calendar sample_calendar
      sample_calendar sample_calendar sample_moon default_validation
      ([frame_row_at "usgs001" 35] ++
       frame_row_at "usgs002" 95 :: [frame_row_at "usgs003" 36])
    = Some (out, 1) ∧
    transform sample_strptime sample_calendar sample_calendar sample_calendar
      sample_calendar sample_calendar sample_moon default_validation
      ([frame_row_at "usgs001" 35] ++ [frame_row_at "usgs003" 36])
    = Some (out, 0) ∧
    (∀ r, r ∈ load_raw_data out →
          within (dbl (-90) 1) (dbl 90 1) (Raw.latitude r)) ∧
    (∀ d, d ∈ dim_location (create_star_schema (load_raw_data out)) →
          between (DimLocation.latitude d) (dbl (-90) 1) (dbl 90 1)) ∧
    (∀ f, f ∈ fact_earthquakes (create_star_schema (load_raw_data out)) →
          ∃ r, r ∈ load_raw_data out ∧ f ∈ fact_rows_of (load_raw_data out) r).
Proof.
  assert (Forall (valid_frame_row sample_strptime default_validation)
            ([frame_row_at "usgs001" 35] ++ [frame_row_at "usgs003" 36]))
    as Hv.
  { apply (bool_decide_unpack _). vm_compute. exact I. }
  split; [reflexivity|]. split; [exact Hv|].
  exact (invalid_latitude_row_is_dropped sample_strptime sample_calendar
           sample_calendar sample_calendar sample_calendar sample_calendar
           sample_moon default_validation [frame_row_at "usgs001" 35]
           (frame_row_at "usgs002" 95) [frame_row_at "usgs003" 36]
           eq_refl Hv).
Defined.

(** * Further properties of the load tracker *)

Lemma stored_years_clock now f :
  get_loaded_list (_load_metadata now f) = stored_years f.
Proof. by destruct f. Qed.

Lemma get_loaded_years_stored now f :
  get_loaded_years now f = list_to_set (stored_years f).
Proof. unfold get_loaded_years. by rewrite stored_years_clock. Qed.

Lemma get_year_info_clock now now' f y :
  get_year_info now f y = get_year_info now' f y.
Proof. by destruct f. Qed.

Lemma StronglySorted_filter {A} (R : relation A) (P : A → Prop)
    `{!∀ x, Decision (P x)} (l : list A) :
  StronglySorted R l → StronglySorted R (filter P l).
Proof.
  induction 1 as [|x l Hs IH Hx]; [constructor|].
  rewrite filter_cons. case_decide; [|done].
  constructor; [done|]. apply Forall_forall. intros y [_ Hy]%list_elem_of_filter.
  rewrite Forall_forall in Hx. by apply Hx.
Qed.

Lemma seqZ_ascending m n : StronglySorted Z.lt (seqZ m n).
Proof.
  remember (Z.to_nat n) as k eqn:Hk. revert m n Hk.
  induction k as [|k IH]; intros m n Hk.
  - rewrite seqZ_nil by lia. constructor.
  - rewrite seqZ_cons by lia. constructor; [apply IH; lia|].
    apply Forall_forall. intros y Hy%elem_of_seqZ. lia.
Qed.

Lemma ascending_unique (l k : list Z) :
  StronglySorted Z.lt l → StronglySorted Z.lt k → (∀ y, y ∈ l ↔ y ∈ k) → l = k.
Proof.
  intros Hl Hk Hlk. apply (StronglySorted_unique_strong Z.lt); [|done..|].
  - intros x y _ _ ??. lia.
  - apply NoDup_Permutation; [| |done].
    + clear Hlk Hk. induction Hl as [|x l' Hs IH Hx]; constructor; [|done].
      intros Hin. rewrite Forall_forall in Hx. specialize (Hx x Hin). lia.
    + clear Hlk Hl. induction Hk as [|x k' Hs IH Hx]; constructor; [|done].
      intros Hin. rewrite Forall_forall in Hx. specialize (Hx x Hin). lia.
Qed.

Lemma years_to_process_get_years_to_load now f start_year end_year :
  years_to_process (year_range_list start_year end_year)
    (get_loaded_years now f)
  = get_years_to_load now f start_year end_year.
Proof.
  apply ascending_unique.
  - apply StronglySorted_filter, seqZ_ascending.
  - apply sorted_elements_ascending.
  - intros y. unfold years_to_process, year_range_list, get_years_to_load.
    rewrite list_elem_of_filter, elem_of_sorted_elements, elem_of_difference.
    rewrite elem_of_requested_years, elem_of_seqZ. intuition lia.
Qed.

(** X9: over a year range, the loop of [main] that collects the years to
    process gives the list [get_years_to_load] gives. *)
Theorem years_to_process_range now f start_year end_year :
  years_to_process (year_range_list start_year end_year)
    (get_loaded_years now f)
  = get_years_to_load now f start_year end_year.
Proof. apply years_to_process_get_years_to_load. Qed.

Lemma get_year_info_record now now' f year details y :
  get_year_info now' (record_year_details now f year details) y
  = (if decide (y = year)
     then Some {| row_count := row_count details;
                  file_size_bytes := file_size_bytes details;
                  date_range := date_range details;
                  loaded_at := Some now |}
     else get_year_info now' f y) ∧
  stored_years (record_year_details now f year details) = stored_years f.
Proof.
  split; [|by destruct f].
  unfold get_year_info, record_year_details. simpl. case_decide as Hy.
  - subst. apply lookup_insert_eq.
  - rewrite lookup_insert_ne; [by destruct f|].
    intros Heq%(inj pretty). by subst.
Qed.

(** X1: after [record_year_details] for a year, [get_year_info] of that
    year returns the details with the clock reading as [loaded_at]; the
    entries of the other years and the loaded years are as before. *)
Theorem record_year_details_get_year_info now now' f year details y :
  get_year_info now' (record_year_details now f year details) y
  = (if decide (y = year)
     then Some {| row_count := row_count details;
                  file_size_bytes := file_size_bytes details;
                  date_range := date_range details;
                  loaded_at := Some now |}
     else get_year_info now' f y) ∧
  stored_years (record_year_details now f year details) = stored_years f.
Proof. apply get_year_info_record. Qed.

(** [list.remove(year)] *)
Lemma list_remove_first_absent y l : y ∉ l → list_remove_first y l = l.
Proof.
  induction l as [|x l IH]; [done|]. simpl.
  intros [? ?]%not_elem_of_cons. rewrite decide_False by done. f_equal. auto.
Qed.

Lemma list_remove_first_Permutation y l :
  y ∈ l → l ≡ₚ y :: list_remove_first y l.
Proof.
  induction l as [|x l IH]; [by intros ?%elem_of_nil|]. simpl.
  case_decide as Hx; [by subst|].
  intros [->|Hy]%elem_of_cons; [done|].
  rewrite (IH Hy) at 1. apply Permutation_swap.
Qed.

Lemma elem_of_list_remove_first y l z :
  NoDup l → z ∈ list_remove_first y l ↔ z ∈ l ∧ z ≠ y.
Proof.
  intros Hn. destruct (decide (y ∈ l)) as [Hy|Hy].
  - pose proof (list_remove_first_Permutation y l Hy) as Hp.
    rewrite Hp in Hn. apply NoDup_cons in Hn as [Hy' _].
    rewrite Hp at 2. rewrite elem_of_cons. split.
    + intros Hz. split; [by right|]. by intros ->.
    + intros [[->|?] ?]; done.
  - rewrite list_remove_first_absent by done. split; [|tauto].
    intros Hz. split; [done|]. by intros ->.
Qed.

Lemma list_remove_first_sorted y l :
  Sorted Z.le l → Sorted Z.le (list_remove_first y l).
Proof.
  intros Hs%(Sorted_StronglySorted Z.le).
  apply StronglySorted_Sorted.
  induction Hs as [|x l Hs IH Hx]; simpl; [constructor|].
  case_decide; [done|]. constructor; [done|].
  apply Forall_forall. intros z Hz. rewrite Forall_forall in Hx. apply Hx.
  destruct (decide (y ∈ l)) as [Hy|Hy].
  - rewrite (list_remove_first_Permutation y l Hy). by right.
  - by rewrite list_remove_first_absent in Hz.
Qed.

Lemma stored_years_clear now f y :
  stored_years (clear_year now f y) = list_remove_first y (stored_years f).
Proof. destruct f as [| |[[l|] ? ? ?]]; done. Qed.

(** X2: [clear_year] on a loaded list without repetition removes the year
    and no other, keeps the list sorted, and removes the year's details and
    no other; the year is then due again in every request that covers
    it. *)
Theorem clear_year_spec now now' f year :
  NoDup (stored_years f) →
  (∀ y, y ∈ stored_years (clear_year now f year) ↔
        y ∈ stored_years f ∧ y ≠ year) ∧
  (Sorted Z.le (stored_years f) →
   Sorted Z.le (stored_years (clear_year now f year))) ∧
  (∀ y, get_year_info now' (clear_year now f year) y
        = if decide (y = year) then None else get_year_info now' f y) ∧
  (∀ start_year end_year,
     year ∈ get_years_to_load now' (clear_year now f year) start_year end_year
     ↔ start_year ≤ year ≤ end_year).
Proof.
  intros Hn. rewrite stored_years_clear.
  split; [intros y; by apply elem_of_list_remove_first|].
  split; [apply list_remove_first_sorted|]. split.
  - intros y. rewrite (get_year_info_clock now' now f y).
    unfold get_year_info, clear_year. simpl.
    destruct (year_details (_load_metadata now f)) as [d|] eqn:Hd; simpl.
    + case_decide as Hy; [subst; apply lookup_delete_eq|].
      rewrite lookup_delete_ne; [done|].
      intros Heq%(inj pretty). by subst.
    + rewrite lookup_empty. by case_decide.
  - intros s e. unfold get_years_to_load.
    rewrite elem_of_sorted_elements, elem_of_difference, elem_of_requested_years.
    rewrite get_loaded_years_stored, elem_of_list_to_set, stored_years_clear.
    rewrite elem_of_list_remove_first by done. tauto.
Qed.

Lemma clear_year_spec_witness :
  NoDup (stored_years claims_2020_2021_2023) ∧
  (∀ y, y ∈ stored_years (clear_year "t" claims_2020_2021_2023 2021) ↔
        y ∈ stored_years claims_2020_2021_2023 ∧ y ≠ 2021) ∧
  (Sorted Z.le (stored_years claims_2020_2021_2023) →
   Sorted Z.le (stored_years (clear_year "t" claims_2020_2021_2023 2021))) ∧
  (∀ y, get_year_info "u" (clear_year "t" claims_2020_2021_2023 2021) y
        = if decide (y = 2021) then None
          else get_year_info "u" claims_2020_2021_2023 y) ∧
  (∀ start_year end_year,
     2021 ∈ get_years_to_load "u" (clear_year "t" claims_2020_2021_2023 2021)
              start_year end_year
     ↔ start_year ≤ 2021 ≤ end_year).
Proof.
  assert (NoDup (stored_years claims_2020_2021_2023)) as Hn.
  { apply (bool_decide_unpack _). vm_compute. exact I. }
  exact (conj Hn (clear_year_spec "t" "u" claims_2020_2021_2023 2021 Hn)).
Defined.

(** X3: after [reset_all] the summary is the empty one, no year has
    details, and every requested year is due. *)
Theorem reset_all_spec now now' start_year end_year :
  get_summary now' (reset_all now)
  = {| total_years := 0; year_range := None; summary_loaded_years := None;
       gaps := []; total_events := 0; summary_last_updated := None |} ∧
  (∀ y, get_year_info now' (reset_all now) y = None) ∧
  get_years_to_load now' (reset_all now) start_year end_year
  = year_range_list start_year end_year.
Proof.
  split; [done|]. split; [intros y; unfold get_year_info; simpl; by rewrite lookup_empty|].
  rewrite <-years_to_process_get_years_to_load. unfold years_to_process.
  apply filter_all. intros y _. apply not_elem_of_empty.
Qed.

(** X4: marking a year that is not loaded and clearing it again gives the
    sorted list of loaded years back. *)
Theorem mark_then_clear now now' f year :
  Sorted Z.le (stored_years f) → year ∉ stored_years f →
  stored_years (clear_year now' (mark_year_loaded now f year) year)
  = stored_years f.
Proof.
  intros Hs Hy. rewrite stored_years_clear, stored_years_mark.
  rewrite decide_False by done.
  apply (Sorted_unique Z.le); [|done|].
  - apply list_remove_first_sorted, sorted_Sorted.
  - apply (Permutation_cons_inv (a := year)).
    rewrite <-list_remove_first_Permutation.
    + rewrite sorted_Permutation. by rewrite Permutation_app_comm.
    + rewrite elem_of_sorted, elem_of_app, list_elem_of_singleton. by right.
Qed.

Lemma mark_then_clear_witness :
  Sorted Z.le (stored_years claims_2020_2021_2023) ∧
  (2022 ∉ stored_years claims_2020_2021_2023) ∧
  stored_years (clear_year "u" (mark_year_loaded "t" claims_2020_2021_2023 2022)
                  2022)
  = stored_years claims_2020_2021_2023.
Proof.
  assert (Sorted Z.le (stored_years claims_2020_2021_2023)) as Hs.
  { apply (bool_decide_unpack _). vm_compute. exact I. }
  assert (2022 ∉ stored_years claims_2020_2021_2023) as Hn.
  { apply (bool_decide_unpack _). vm_compute. exact I. }
  exact (conj Hs (conj Hn
           (mark_then_clear "t" "u" claims_2020_2021_2023 2022 Hs Hn))).
Defined.

Lemma validate_file_unchanged now f conn :
  get_loaded_years now f ∖ passing_years now f conn = ∅ →
  validate_loaded_years now f conn
  = (sorted (elements (passing_years now f conn)), f).
Proof.
  intros He. unfold validate_loaded_years.
  fold (get_loaded_years now f). fold (passing_years now f conn).
  cbv zeta. fold (get_loaded_years now f). fold (passing_years now f conn).
  by rewrite decide_True.
Qed.

(** X5: validating a second time against the same store returns the same
    list and leaves the file as the first validation left it. *)
Theorem validate_loaded_years_idempotent now now' f conn :
  validate_loaded_years now'
    (validate_loaded_years now f conn).2 conn
  = validate_loaded_years now f conn.
Proof.
  pose proof (validate_persists now f conn) as Hp.
  rewrite (get_loaded_years_clock now now') in Hp.
  pose proof (validate_returns now f conn) as Hr.
  destruct (validate_loaded_years now f conn) as [l f'] eqn:Hv.
  simpl in *. subst l.
  assert (passing_years now' f' conn = passing_years now f conn) as Hfix.
  { unfold passing_years at 1. rewrite Hp. apply set_eq. intros y.
    rewrite elem_of_filter, elem_of_passing_years. tauto. }
  rewrite validate_file_unchanged; [by rewrite Hfix|].
  rewrite Hfix, Hp.
  apply set_eq. intros y. rewrite elem_of_difference.
  split; [tauto|by intros ?%not_elem_of_empty].
Qed.

(** X6: validation leaves the details of every year it does not purge as
    they are, and leaves the whole file as it is when every claimed year
    answers the probe. *)
Theorem validate_loaded_years_frame now f conn :
  (∀ y, (y ∈ get_loaded_years now f → probe_year conn y = true) →
        get_year_info now (validate_loaded_years now f conn).2 y
        = get_year_info now f y) ∧
  ((∀ y, y ∈ get_loaded_years now f → probe_year conn y = true) →
   (validate_loaded_years now f conn).2 = f).
Proof.
  unfold validate_loaded_years, get_year_info, get_loaded_years. simpl.
  set (claimed := list_to_set (get_loaded_list (_load_metadata now f)) : gset Z).
  set (actual := filter _ claimed).
  split.
  - intros y Hy.
    destruct (decide (claimed ∖ actual = ∅)) as [He|_]; simpl; [done|].
    destruct (year_details (_load_metadata now f)) as [d|]; simpl; [|done].
    apply lookup_purge_details_other.
    rewrite elem_of_difference. intros [Hc Ha]. apply Ha.
    subst actual. rewrite elem_of_filter. auto.
  - intros Hall. rewrite decide_True; [done|].
    apply set_eq. intros y. rewrite elem_of_difference. split.
    + intros [Hc Ha]. destruct Ha. subst actual. rewrite elem_of_filter. auto.
    + by intros ?%not_elem_of_empty.
Qed.

(** ** [get_summary] *)

Lemma list_min_spec x l :
  list_min x l ∈ x :: l ∧ ∀ y, y ∈ x :: l → list_min x l ≤ y.
Proof.
  unfold list_min. induction l as [|z l [Hin Hle]]; simpl.
  - split; [by apply list_elem_of_singleton|].
    intros y ->%list_elem_of_singleton. lia.
  - split.
    + destruct (Z.min_spec z (foldr Z.min x l)) as [[_ ->]|[_ ->]].
      * apply elem_of_cons. right. apply elem_of_cons. by left.
      * apply elem_of_cons in Hin as [->|?].
        -- apply elem_of_cons. by left.
        -- apply elem_of_cons. right. apply elem_of_cons. by right.
    + intros y [->|[->|Hy]%elem_of_cons]%elem_of_cons.
      * specialize (Hle x ltac:(apply elem_of_cons; by left)). lia.
      * lia.
      * specialize (Hle y ltac:(apply elem_of_cons; by right)). lia.
Qed.

Lemma list_max_spec x l :
  list_max x l ∈ x :: l ∧ ∀ y, y ∈ x :: l → y ≤ list_max x l.
Proof.
  unfold list_max. induction l as [|z l [Hin Hle]]; simpl.
  - split; [by apply list_elem_of_singleton|].
    intros y ->%list_elem_of_singleton. lia.
  - split.
    + destruct (Z.max_spec z (foldr Z.max x l)) as [[_ ->]|[_ ->]].
      * apply elem_of_cons in Hin as [->|?].
        -- apply elem_of_cons. by left.
        -- apply elem_of_cons. right. apply elem_of_cons. by right.
      * apply elem_of_cons. right. apply elem_of_cons. by left.
    + intros y [->|[->|Hy]%elem_of_cons]%elem_of_cons.
      * specialize (Hle x ltac:(apply elem_of_cons; by left)). lia.
      * lia.
      * specialize (Hle y ltac:(apply elem_of_cons; by right)). lia.
Qed.

(** X7: [get_summary] counts the loaded years; with none it reports no
    range and no events, whatever details are recorded; otherwise the range
    runs from the least to the greatest loaded year, and on a strictly
    ascending list every reported gap lies strictly inside it. *)
Theorem get_summary_range now f :
  total_years (get_summary now f) = Z.of_nat (length (stored_years f)) ∧
  match year_range (get_summary now f) with
  | None =>
      stored_years f = [] ∧ total_events (get_summary now f) = 0 ∧
      gaps (get_summary now f) = []
  | Some (lo, hi) =>
      lo ∈ stored_years f ∧ hi ∈ stored_years f ∧
      (∀ y, y ∈ stored_years f → lo ≤ y ≤ hi) ∧
      (StronglySorted Z.lt (stored_years f) →
       ∀ a b, (a, b) ∈ gaps (get_summary now f) → lo < a ∧ a ≤ b ∧ b < hi)
  end.
Proof.
  unfold get_summary. rewrite stored_years_clock.
  destruct (stored_years f) as [|x l] eqn:Hl; simpl; [done|].
  split; [done|].
  destruct (list_min_spec x l) as [Hmin Hmin'].
  destruct (list_max_spec x l) as [Hmax Hmax'].
  split; [done|]. split; [done|]. split; [by split; auto|].
  intros Hs a b Hab.
  destruct (compute_gaps_span (x :: l) Hs) as (Hsound & _ & _).
  destruct (Hsound a b Hab) as (? & Ha & Hb & _).
  apply Hmin' in Ha. apply Hmax' in Hb. lia.
Qed.

Lemma total_events_insert (yd : gmap string year_detail) k entry :
  map_fold add_row_count 0 (<[k := entry]> yd)
  = map_fold add_row_count 0 yd
    - default 0 (yd !! k ≫= row_count) + default 0 (row_count entry).
Proof.
  assert (∀ (m : gmap string year_detail) e,
            m !! k = None →
            map_fold add_row_count 0 (<[k := e]> m)
            = map_fold add_row_count 0 m + default 0 (row_count e)) as Hins.
  { intros m e Hm. rewrite map_fold_insert_L; [done| |done].
    intros. unfold add_row_count. lia. }
  destruct (yd !! k) as [old|] eqn:Hk; simpl.
  - rewrite <-(insert_delete_id yd k old Hk) at 2.
    rewrite <-insert_delete_eq.
    rewrite !Hins by apply lookup_delete_eq. lia.
  - rewrite Hins by done. lia.
Qed.

(** X8: while some year is loaded, recording the details of a year changes
    the total of events by the recorded row count, less the row count the
    year had before. *)
Theorem record_year_details_total_events now now' f year details :
  stored_years f ≠ [] →
  total_events (get_summary now' (record_year_details now f year details))
  = total_events (get_summary now' f)
    - default 0 (get_year_info now' f year ≫= row_count)
    + default 0 (row_count details).
Proof.
  intros Hne.
  rewrite (get_year_info_clock now' now f year).
  unfold get_summary. rewrite !stored_years_clock.
  replace (stored_years (record_year_details now f year details))
    with (stored_years f) by (by destruct f).
  destruct (stored_years f) as [|x l]; [done|]. simpl.
  unfold get_year_info.
  replace (default ∅ (year_details (_load_metadata now' f)))
    with (default ∅ (year_details (_load_metadata now f))) by (by destruct f).
  etrans; [apply (total_events_insert _ (pretty year))|done].
Qed.

Lemma record_year_details_total_events_witness :
  stored_years claims_2020_2021_2023 ≠ [] ∧
  total_events
    (get_summary "u"
       (record_year_details "t" claims_2020_2021_2023 2021
          (YearDetail (Some 10) None None None)))
  = 15 - 3 + 10.
Proof.
  split; [discriminate|].
  exact (record_year_details_total_events "t" "u" claims_2020_2021_2023 2021
           (YearDetail (Some 10) None None None) ltac:(discriminate)).
Defined.

(** * Properties of the orchestration *)

(** ** [cleanup_old_yearly_tables] *)

Lemma prefix_app (p s : string) : String.prefix p (p +:+ s) = true.
Proof.
  induction p as [|a p IH]; simpl; [by destruct s|].
  by destruct (Ascii.ascii_dec a a).
Qed.

Lemma year_table_is_yearly year : is_yearly_table (year_table year).
Proof. apply prefix_app. Qed.

Lemma lookup_cleanup (store : gmap string (list Raw.row)) t :
  (cleanup_old_yearly_tables store).1 !! t
  = if decide (is_yearly_table t) then None else store !! t.
Proof.
  unfold cleanup_old_yearly_tables. simpl. rewrite map_lookup_filter.
  destruct (store !! t) as [rows|]; simpl; [|by case_decide].
  case_decide.
  - by rewrite option_guard_False by (simpl; tauto).
  - by rewrite option_guard_True.
Qed.

(** X11: [cleanup_old_yearly_tables] drops every yearly table and no other
    table, [raw_earthquakes] included, and counts the tables it drops. The
    validation of the next run then finds no year loaded, whatever the
    metadata claims, and every requested year is due again. *)
Theorem cleanup_then_validate now f store start_year end_year :
  (∀ t, (cleanup_old_yearly_tables store).1 !! t
        = if decide (is_yearly_table t) then None else store !! t) ∧
  (cleanup_old_yearly_tables store).1 !! "raw_earthquakes"
  = store !! "raw_earthquakes" ∧
  Z.of_nat (size store)
  = Z.of_nat (size (cleanup_old_yearly_tables store).1)
    + (cleanup_old_yearly_tables store).2 ∧
  (validate_loaded_years now f
     (connect (cleanup_old_yearly_tables store).1)).1 = [] ∧
  get_years_to_load now
    (validate_loaded_years now f
       (connect (cleanup_old_yearly_tables store).1)).2
    start_year end_year
  = year_range_list start_year end_year.
Proof.
  split; [apply lookup_cleanup|]. split; [by rewrite lookup_cleanup|]. split.
  { unfold cleanup_old_yearly_tables. simpl.
    rewrite <-(map_filter_union_complement (λ kv, is_yearly_table kv.1) store)
      at 1.
    rewrite map_size_disj_union by apply map_disjoint_filter_complement. lia. }
  assert (passing_years now f (connect (cleanup_old_yearly_tables store).1)
          = ∅) as Hnone.
  { apply set_eq. intros y. rewrite elem_of_passing_years.
    split; [|by intros ?%not_elem_of_empty]. intros [_ Hp].
    unfold probe_year, connect in Hp. rewrite lookup_cleanup in Hp.
    rewrite decide_True in Hp by apply year_table_is_yearly. done. }
  split.
  - by rewrite validate_returns, Hnone.
  - rewrite <-years_to_process_get_years_to_load, validate_persists, Hnone.
    apply filter_all. intros y _. apply not_elem_of_empty.
Qed.

(** ** [merge_yearly_tables] *)

Global Instance flip_Zle_po : PartialOrder (flip Z.le).
Proof.
  split; [split|]; unfold flip.
  - intros x. lia.
  - intros x y z ??. lia.
  - intros x y ??. lia.
Qed.

Global Instance flip_Zle_total : Total (flip Z.le).
Proof. intros x y. unfold flip. lia. Qed.

Global Instance merge_order_trans : Transitive merge_order.
Proof. unfold merge_order. apply _. Qed.

Global Instance merge_order_total : Total merge_order.
Proof. unfold merge_order. apply _. Qed.

Global Instance merge_order_refl : Reflexive merge_order.
Proof. intros r. by destruct (total merge_order r r). Qed.

(** On a sorted list the row kept for a key comes before every row of that
    key. *)
Lemma first_per_key_first {A K} `{EqDecision K} (key : A → K)
    (R : relation A) `{!Reflexive R} seen (l : list A) x y :
  StronglySorted R l → x ∈ first_per_key key seen l → y ∈ l →
  key y = key x → R x y.
Proof.
  intros Hs. revert seen. induction Hs as [|z l Hs IH Hz]; intros seen; simpl.
  - by intros ?%elem_of_nil.
  - rewrite Forall_forall in Hz. case_decide as Hseen.
    + intros Hx [->|Hy]%elem_of_cons Hk; [|by eapply IH].
      apply elem_of_first_per_key in Hx as [_ Hx]. congruence.
    + intros [->|Hx]%elem_of_cons [->|Hy]%elem_of_cons Hk.
      * done.
      * by apply Hz.
      * apply elem_of_first_per_key in Hx as [_ Hx].
        destruct Hx. rewrite <-Hk. apply elem_of_cons. by left.
      * by eapply IH.
Qed.

Lemma merge_distinct_spec rows :
  NoDup (Raw.event_id <$> merge_distinct rows) ∧
  (∀ r, r ∈ merge_distinct rows → r ∈ rows) ∧
  (∀ r, r ∈ rows → Raw.event_id r ∈ Raw.event_id <$> merge_distinct rows) ∧
  (∀ r r' d', r ∈ merge_distinct rows → r' ∈ rows →
     Raw.event_id r' = Raw.event_id r → Raw.datetime r' = Some d' →
     ∃ d, Raw.datetime r = Some d ∧ d' ≤ d).
Proof.
  unfold merge_distinct. split; [apply first_per_key_NoDup|].
  split; [|split].
  - intros r [Hr _]%elem_of_first_per_key.
    by rewrite stable_sort_Permutation in Hr.
  - intros r Hr. apply first_per_key_keys. split; [|apply not_elem_of_nil].
    rewrite stable_sort_Permutation. apply list_elem_of_fmap. by exists r.
  - intros r r' d' Hr Hr' Hid Hd'.
    assert (merge_order r r') as Hord.
    { apply (first_per_key_first Raw.event_id merge_order []
               (stable_sort merge_order rows)); [|done| |done].
      - apply (StronglySorted_stable_sort merge_order).
      - by rewrite stable_sort_Permutation. }
    unfold merge_order, order_by, lex_le in Hord. simpl in Hord.
    destruct Hord as [[Hne _]|[_ Hdt]]; [by rewrite Hid in Hne|].
    rewrite Hd' in Hdt.
    destruct (Raw.datetime r) as [d|]; simpl in Hdt; [|done].
    by exists d.
Qed.

Lemma elem_of_union_all store tables r :
  r ∈ union_all store tables ↔
  ∃ t rows, t ∈ tables ∧ store !! t = Some rows ∧ r ∈ rows.
Proof.
  unfold union_all. rewrite list_elem_of_bind. split.
  - intros (t & Hr & Ht). destruct (store !! t) as [rows|] eqn:Hs; simpl in Hr.
    + by exists t, rows.
    + by apply elem_of_nil in Hr.
  - intros (t & rows & Ht & Hs & Hr). exists t. by rewrite Hs.
Qed.

Lemma table_has_rows_elem store t rows r :
  store !! t = Some rows → r ∈ rows → table_has_rows store t.
Proof.
  intros Hs Hr. unfold table_has_rows, connect. rewrite Hs.
  destruct rows; [by apply elem_of_nil in Hr|]. simpl. lia.
Qed.

Lemma elem_of_union_all_existing store years r :
  r ∈ union_all store (filter (table_has_rows store) (year_table <$> years))
  ↔ in_yearly_tables store years r.
Proof.
  rewrite elem_of_union_all. split.
  - intros (t & rows & [_ (y & -> & Hy)%list_elem_of_fmap]%list_elem_of_filter
              & Hs & Hr).
    by exists y, rows.
  - intros (y & rows & Hy & Hs & Hr). exists (year_table y), rows.
    split; [|done]. apply list_elem_of_filter.
    split; [by eapply table_has_rows_elem|].
    apply list_elem_of_fmap. by exists y.
Qed.

(** X12: where one of the named yearly tables has rows,
    [merge_yearly_tables] replaces [raw_earthquakes] by a table without a
    repeated event id, whose rows are rows of the named yearly tables, which
    holds every event id of those tables, and in which the row kept for an
    event id carries the latest datetime among the rows of that id. *)
Theorem merge_yearly_tables_spec store years year :
  year ∈ years → table_has_rows store (year_table year) →
  ∃ merged,
    merge_yearly_tables store years !! "raw_earthquakes" = Some merged ∧
    NoDup (Raw.event_id <$> merged) ∧
    (∀ r, r ∈ merged → in_yearly_tables store years r) ∧
    (∀ r, in_yearly_tables store years r →
          Raw.event_id r ∈ Raw.event_id <$> merged) ∧
    (∀ r r' d', r ∈ merged → in_yearly_tables store years r' →
       Raw.event_id r' = Raw.event_id r → Raw.datetime r' = Some d' →
       ∃ d, Raw.datetime r = Some d ∧ d' ≤ d).
Proof.
  intros Hy Ht. unfold merge_yearly_tables.
  destruct (filter (table_has_rows store) (year_table <$> years))
    as [|t ts] eqn:Hex.
  { assert (year_table year ∈ filter (table_has_rows store) (year_table <$> years))
      as Hin.
    { apply list_elem_of_filter. split; [done|].
      apply list_elem_of_fmap. by exists year. }
    rewrite Hex in Hin. by apply elem_of_nil in Hin. }
  rewrite <-Hex. eexists. split; [apply lookup_insert_eq|].
  destruct (merge_distinct_spec
              (union_all store
                 (filter (table_has_rows store) (year_table <$> years))))
    as (Hn & Hsub & Hall & Hlatest).
  split; [done|]. split; [|split].
  - intros r Hr. by apply elem_of_union_all_existing, Hsub.
  - intros r Hr. by apply Hall, elem_of_union_all_existing.
  - intros r r' d' Hr Hr'. apply Hlatest; [done|].
    by apply elem_of_union_all_existing.
Qed.

(** X13: [merge_yearly_tables] touches no table but [raw_earthquakes], and
    leaves that one as it is, rather than dropping it, when none of the
    named yearly tables has rows. *)
Theorem merge_yearly_tables_frame store years :
  (∀ t, t ≠ "raw_earthquakes" →
        merge_yearly_tables store years !! t = store !! t) ∧
  ((∀ year, year ∈ years → ¬ table_has_rows store (year_table year)) →
   merge_yearly_tables store years = store).
Proof.
  unfold merge_yearly_tables. split.
  - intros t Ht.
    destruct (filter _ _); [done|]. by rewrite lookup_insert_ne.
  - intros Hnone. rewrite filter_none; [done|].
    intros t (y & -> & Hy)%list_elem_of_fmap. by apply Hnone.
Qed.

Lemma merge_yearly_tables_spec_witness :
  2020 ∈ [2020; 2021] ∧
  table_has_rows two_year_store (year_table 2020) ∧
  ∃ merged,
    merge_yearly_tables two_year_store [2020; 2021] !! "raw_earthquakes"
    = Some merged ∧
    NoDup (Raw.event_id <$> merged) ∧
    (∀ r, r ∈ merged → in_yearly_tables two_year_store [2020; 2021] r) ∧
    (∀ r, in_yearly_tables two_year_store [2020; 2021] r →
          Raw.event_id r ∈ Raw.event_id <$> merged) ∧
    (∀ r r' d', r ∈ merged → in_yearly_tables two_year_store [2020; 2021] r' →
       Raw.event_id r' = Raw.event_id r → Raw.datetime r' = Some d' →
       ∃ d, Raw.datetime r = Some d ∧ d' ≤ d).
Proof.
  assert (2020 ∈ [2020; 2021]) as Hy by (apply elem_of_cons; by left).
  assert (table_has_rows two_year_store (year_table 2020)) as Ht.
  { apply (bool_decide_unpack _). vm_compute. exact I. }
  exact (conj Hy (conj Ht
           (merge_yearly_tables_spec two_year_store [2020; 2021] 2020 Hy Ht))).
Defined.

(** ** [process_year] *)

Section process_year_facts.
Variable strptime : string → option Z.
Variables dt_year dt_month dt_day dt_hour dt_weekday : Z → Z.
Variable moon_phase_degrees : Z → option Qc.

Local Abbreviation transform' :=
  (transform strptime dt_year dt_month dt_day dt_hour dt_weekday
     moon_phase_degrees).
Local Abbreviation process_year' :=
  (process_year strptime dt_year dt_month dt_day dt_hour dt_weekday
     moon_phase_degrees).

Lemma probe_year_connect store year :
  probe_year (connect store) year = true ↔
  ∃ rows, store !! year_table year = Some rows ∧ rows ≠ [].
Proof.
  unfold probe_year, connect.
  destruct (store !! year_table year) as [rows|]; simpl.
  - rewrite bool_decide_eq_true. split.
    + intros Hn. exists rows. split; [done|]. intros ->. simpl in Hn. lia.
    + intros (rows' & [= <-] & Hne). destruct rows; [done|]. simpl. lia.
  - split; [done|]. by intros (? & ? & _).
Qed.

(** X10: [process_year] on an empty frame returns 0 and changes neither the
    store nor the metadata; it raises when [transform] raises; otherwise it
    writes the transformed rows to the year's table and to no other, returns
    their number, records that number with the file size, and marks the year
    loaded. The year then survives a validation exactly when [transform]
    kept a row. *)
Theorem process_year_spec cfg now1 now2 now3 year total_size df store f :
  process_year' cfg now1 now2 year total_size [] store f
  = Some {| result_store := store; result_file := f; result_rows := 0 |} ∧
  (df ≠ [] →
   match transform' cfg df with
   | None => process_year' cfg now1 now2 year total_size df store f = None
   | Some (out, _) =>
       ∃ res,
         process_year' cfg now1 now2 year total_size df store f = Some res ∧
         result_rows res = Z.of_nat (length out) ∧
         result_store res !! year_table year = Some out ∧
         (∀ t, t ≠ year_table year → result_store res !! t = store !! t) ∧
         year ∈ stored_years (result_file res) ∧
         (get_year_info now3 (result_file res) year ≫= row_count)
         = Some (Z.of_nat (length out)) ∧
         (get_year_info now3 (result_file res) year ≫= file_size_bytes)
         = Some total_size ∧
         (year ∈ (validate_loaded_years now3 (result_file res)
                    (connect (result_store res))).1 ↔ out ≠ [])
   end).
Proof.
  split; [done|]. intros Hne.
  unfold process_year. destruct df as [|r df]; [done|].
  destruct (transform' cfg (r :: df)) as [[out removed]|] eqn:Ht; [|done].
  cbn -[validate_loaded_years get_year_info mark_year_loaded
        record_year_details stored_years connect].
  eexists. split; [done|].
  cbn -[validate_loaded_years get_year_info mark_year_loaded
        record_year_details stored_years connect].
  assert (year ∈ stored_years
            (mark_year_loaded now2
               (record_year_details now1 f year
                  {| row_count := Some (Z.of_nat (length out));
                     file_size_bytes := Some total_size;
                     date_range := Some (pretty year +:+ "-01-01",
                                         pretty year +:+ "-12-31");
                     loaded_at := None |}) year)) as Hin.
  { rewrite stored_years_mark. case_decide; [done|].
    rewrite elem_of_sorted, elem_of_app, list_elem_of_singleton. by right. }
  split; [done|]. split; [apply lookup_insert_eq|].
  split; [intros t Hn; by rewrite lookup_insert_ne|].
  split; [done|].
  assert (∀ g, get_year_info now3
                 (mark_year_loaded now2 g year) year
               = get_year_info now3 g year) as Hmark by (by intros []).
  rewrite Hmark.
  destruct (get_year_info_record now1 now3 f year
              {| row_count := Some (Z.of_nat (length out));
                 file_size_bytes := Some total_size;
                 date_range := Some (pretty year +:+ "-01-01",
                                     pretty year +:+ "-12-31");
                 loaded_at := None |} year) as [-> _].
  rewrite decide_True by done.
  cbn -[validate_loaded_years mark_year_loaded record_year_details
        stored_years connect].
  split; [done|]. split; [done|].
  assert (∀ g c, year ∈ (validate_loaded_years now3 g c).1 ↔
                 year ∈ stored_years g ∧ probe_year c year = true) as Hv.
  { intros g c.
    rewrite validate_returns, elem_of_sorted_elements, elem_of_passing_years.
    by rewrite get_loaded_years_stored, elem_of_list_to_set. }
  rewrite Hv.
  rewrite probe_year_connect, lookup_insert_eq. unfold load_raw_data.
  split.
  - by intros (_ & rows & [= <-] & ?).
  - intros. split; [done|]. by exists out.
Qed.
End process_year_facts.

(** * Further properties of the transformer *)

Lemma clean_validate_single cfg r :
  _validate_data cfg (_clean_data [r])
  = if decide (keeps cfg r) then [fill_depth_place r] else [].
Proof.
  unfold _clean_data, _validate_data, keeps.
  rewrite (filter_cons critical_present), filter_nil.
  destruct (decide (critical_present r)) as [Hc|Hc];
    [|rewrite decide_False by tauto; done].
  rewrite fmap_cons, fmap_nil.
  rewrite (filter_cons (magnitude_valid cfg)), filter_nil.
  destruct (decide (magnitude_valid cfg (fill_depth_place r))) as [Hm|Hm];
    [|rewrite decide_False by tauto; done].
  rewrite (filter_cons (depth_valid cfg)), filter_nil.
  destruct (decide (depth_valid cfg (fill_depth_place r))) as [Hd|Hd];
    [|rewrite decide_False by tauto; done].
  rewrite (filter_cons coordinates_valid), filter_nil.
  destruct (decide (coordinates_valid (fill_depth_place r))) as [Hco|Hco];
    [|rewrite decide_False by tauto; done].
  by rewrite decide_True.
Qed.

(** [_clean_data] and [_validate_data] together are one filter. *)
Lemma clean_validate_filter cfg df :
  _validate_data cfg (_clean_data df)
  = fill_depth_place <$> filter (keeps cfg) df.
Proof.
  induction df as [|r df IH]; [done|].
  change (r :: df) with ([r] ++ df).
  rewrite clean_validate_app, IH, clean_validate_single, filter_app, fmap_app.
  f_equal. rewrite filter_cons, filter_nil. by case_decide.
Qed.

Lemma fill_depth_place_idemp r :
  fill_depth_place (fill_depth_place r) = fill_depth_place r.
Proof. done. Qed.

Lemma keeps_fill cfg r : keeps cfg r → keeps cfg (fill_depth_place r).
Proof.
  intros (Hc & Hm & Hd & Hco). split; [|done].
  destruct Hc as (? & ? & ? & ?). by repeat split.
Qed.

(** X14: cleaning and validating the cleaned and validated frame again
    removes nothing and changes nothing. *)
Theorem clean_validate_idempotent cfg df :
  _validate_data cfg (_clean_data (_validate_data cfg (_clean_data df)))
  = _validate_data cfg (_clean_data df).
Proof.
  rewrite !clean_validate_filter.
  rewrite filter_all.
  - rewrite <-list_fmap_compose. apply list_fmap_ext. by intros.
  - intros x (r & -> & [Hk _]%list_elem_of_filter)%list_elem_of_fmap.
    by apply keeps_fill.
Qed.

Section transform_more.
Variable strptime : string → option Z.
Variables dt_year dt_month dt_day dt_hour dt_weekday : Z → Z.
Variable moon_phase_degrees : Z → option Qc.

Local Abbreviation enrich_row' :=
  (enrich_row strptime dt_year dt_month dt_day dt_hour dt_weekday).
Local Abbreviation transform' :=
  (transform strptime dt_year dt_month dt_day dt_hour dt_weekday
     moon_phase_degrees).

Lemma transform_unfold cfg df :
  transform' cfg df
  = (λ rows, (add_moon_row moon_phase_degrees <$> rows,
              Z.of_nat (length df)
              - Z.of_nat (length (add_moon_row moon_phase_degrees <$> rows))))
    <$> mapM enrich_row' (fill_depth_place <$> filter (keeps cfg) df).
Proof.
  unfold transform, _standardize_columns, _enrich_data, _add_moon_phase.
  rewrite clean_validate_filter. by destruct (mapM _ _).
Qed.

Lemma enrich_row_Some r e :
  enrich_row' r = Some e →
  ∃ dt, (in_time r = None ∧ dt = None ∨
         ∃ s t, in_time r = Some s ∧ strptime s = Some t ∧ dt = Some t) ∧
        Raw.datetime e = dt ∧
        Raw.event_id e = in_event_id r ∧
        Raw.latitude e = in_latitude r ∧ Raw.longitude e = in_longitude r ∧
        Raw.magnitude e = in_magnitude r ∧ Raw.depth e = in_depth r ∧
        Raw.place e = in_place r ∧ Raw.region e = split_last <$> in_place r ∧
        Raw.magnitude_category e = Some (magnitude_category_of (in_magnitude r)) ∧
        Raw.depth_category e = Some (depth_category_of (in_depth r)) ∧
        Raw.year e = dt_year <$> dt ∧ Raw.month e = dt_month <$> dt ∧
        Raw.day e = dt_day <$> dt ∧ Raw.hour e = dt_hour <$> dt ∧
        Raw.day_of_week e = dt_weekday <$> dt.
Proof.
  unfold enrich_row. intros He.
  destruct (in_time r) as [s|] eqn:Hs; simpl in He.
  - destruct (strptime s) as [t|] eqn:Ht; simplify_eq/=.
    exists (Some t). split; [|done]. right. by exists s, t.
  - simplify_eq/=. exists None. split; [|done]. by left.
Qed.

Lemma enrich_row_None r :
  enrich_row' r = None ↔ is_Some (in_time r) ∧ in_time r ≫= strptime = None.
Proof.
  unfold enrich_row. destruct (in_time r) as [s|]; simpl.
  - destruct (strptime s); simpl; split.
    + intros [=].
    + intros [_ [=]].
    + intros _. split; [by eexists|done].
    + done.
  - split; [intros [=]|]. intros [[? [=]] _].
Qed.

(** X15: [transform] raises exactly when the time of a row that cleaning
    and validation keep does not parse; a row they remove cannot make it
    raise. *)
Theorem transform_raises_iff cfg df :
  transform' cfg df = None ↔
  ∃ r, r ∈ df ∧ keeps cfg r ∧ in_time r ≫= strptime = None.
Proof.
  rewrite transform_unfold, fmap_None, mapM_None, Exists_exists. split.
  - intros (x & (r & -> & [Hk Hr]%list_elem_of_filter)%list_elem_of_fmap
              & [_ Hn]%enrich_row_None).
    by exists r.
  - intros (r & Hr & Hk & Hn). exists (fill_depth_place r). split.
    + apply list_elem_of_fmap. exists r. split; [done|].
      by apply list_elem_of_filter.
    + apply enrich_row_None. split; [|done].
      by destruct Hk as ((? & _) & _).
Qed.

Lemma transform_Some_rows cfg df out removed :
  transform' cfg df = Some (out, removed) →
  (0 ≤ removed) ∧
  Z.of_nat (length out) + removed = Z.of_nat (length df) ∧
  length out = length (filter (keeps cfg) df) ∧
  ∀ r, r ∈ out →
    (∃ t, Raw.datetime r = Some t ∧
          Raw.year r = Some (dt_year t) ∧ Raw.month r = Some (dt_month t) ∧
          Raw.day r = Some (dt_day t) ∧ Raw.hour r = Some (dt_hour t) ∧
          Raw.day_of_week r = Some (dt_weekday t)) ∧
    within (COALESCE (min_magnitude cfg) (dbl (-2) 1))
           (COALESCE (max_magnitude cfg) (dbl 10 1)) (Raw.magnitude r) ∧
    within (COALESCE (min_depth cfg) (dbl (-10) 1))
           (COALESCE (max_depth cfg) (dbl 1000 1)) (Raw.depth r) ∧
    within (dbl (-90) 1) (dbl 90 1) (Raw.latitude r) ∧
    within (dbl (-180) 1) (dbl 180 1) (Raw.longitude r) ∧
    is_Some (Raw.place r) ∧ is_Some (Raw.region r) ∧
    Raw.magnitude_category r
      = Some (magnitude_category_of (Raw.magnitude r)) ∧
    Raw.depth_category r = Some (depth_category_of (Raw.depth r)) ∧
    is_Some (Raw.moon_phase r) ∧ is_Some (Raw.moon_phase_name r).
Proof.
  rewrite transform_unfold. intros Ht.
  apply fmap_Some in Ht as (rows & Hrows & [= -> ->]).
  pose proof (length_mapM _ _ _ Hrows) as Hlen.
  rewrite length_fmap in Hlen.
  pose proof (length_filter (keeps cfg) df) as Hle.
  rewrite !length_fmap, <-Hlen.
  split; [lia|]. split; [lia|]. split; [done|].
  intros r (e & -> & He)%list_elem_of_fmap.
  apply mapM_Some_1 in Hrows.
  destruct (Forall2_elem_of_r _ _ _ _ Hrows He) as (x & Hx & Hxe).
  apply list_elem_of_fmap in Hx as (r0 & -> & [Hk _]%list_elem_of_filter).
  destruct Hk as ((Htime & _) & Hm & Hd & Hlat & Hlon).
  destruct Htime as [s Hs].
  unfold enrich_row in Hxe. simpl in Hxe. rewrite Hs in Hxe. simpl in Hxe.
  destruct (strptime s) as [t|]; simplify_eq/=.
  split; [by exists t|].
  split; [done|]. split; [done|]. split; [done|]. split; [done|].
  split; [by destruct (in_place r0); eexists|].
  split; [by destruct (in_place r0); eexists|].
  split; [done|]. split; [done|]. split; by eexists.
Qed.

(** X16: what [transform] returns. The count it reports is the number of
    input rows it did not keep; every row it returns has a parsed time,
    magnitude, depth and coordinates inside the configured bounds, a place,
    a region, both categories and both moon columns, and its calendar
    columns are those of its parsed time. *)
Theorem transform_postcondition cfg df out removed :
  transform' cfg df = Some (out, removed) →
  (0 ≤ removed) ∧
  Z.of_nat (length out) + removed = Z.of_nat (length df) ∧
  length out = length (filter (keeps cfg) df) ∧
  ∀ r, r ∈ out →
    (∃ t, Raw.datetime r = Some t ∧
          Raw.year r = Some (dt_year t) ∧ Raw.month r = Some (dt_month t) ∧
          Raw.day r = Some (dt_day t) ∧ Raw.hour r = Some (dt_hour t) ∧
          Raw.day_of_week r = Some (dt_weekday t)) ∧
    within (COALESCE (min_magnitude cfg) (dbl (-2) 1))
           (COALESCE (max_magnitude cfg) (dbl 10 1)) (Raw.magnitude r) ∧
    within (COALESCE (min_depth cfg) (dbl (-10) 1))
           (COALESCE (max_depth cfg) (dbl 1000 1)) (Raw.depth r) ∧
    within (dbl (-90) 1) (dbl 90 1) (Raw.latitude r) ∧
    within (dbl (-180) 1) (dbl 180 1) (Raw.longitude r) ∧
    is_Some (Raw.place r) ∧ is_Some (Raw.region r) ∧
    Raw.magnitude_category r
      = Some (magnitude_category_of (Raw.magnitude r)) ∧
    Raw.depth_category r = Some (depth_category_of (Raw.depth r)) ∧
    is_Some (Raw.moon_phase r) ∧ is_Some (Raw.moon_phase_name r).
Proof. apply transform_Some_rows. Qed.
End transform_more.

Lemma transform_postcondition_witness :
  ∃ out,
    transform sample_strptime sample_calendar sample_calendar sample_calendar
      sample_calendar sample_calendar sample_moon default_validation
      [frame_row_at "usgs001" 35; frame_row_at "usgs002" 95]
    = Some (out, 1) ∧
    length out = 1%nat ∧
    ∀ r, r ∈ out → within (dbl (-90) 1) (dbl 90 1) (Raw.latitude r).
Proof.
  eexists. split; [vm_compute; reflexivity|].
  destruct (transform_postcondition sample_strptime sample_calendar
              sample_calendar sample_calendar sample_calendar sample_calendar
              sample_moon default_validation
              [frame_row_at "usgs001" 35; frame_row_at "usgs002" 95] _ 1
              eq_refl) as (_ & _ & Hlen & Hrows).
  split; [exact Hlen|].
  intros r Hr. exact (proj1 (proj2 (proj2 (proj2 (Hrows r Hr))))).
Defined.

(** * Further properties of the star schema *)

Lemma dim_time_ids_NoDup raw :
  NoDup (DimTime.time_id <$> _create_dim_time raw).
Proof.
  replace (DimTime.time_id <$> _create_dim_time raw)
    with ((time_entry <$> _create_dim_time raw).*1)
    by (by rewrite <-list_fmap_compose).
  rewrite dim_time_entries, row_number_fst. apply NoDup_seqZ.
Qed.

Lemma dim_location_ids_NoDup raw :
  NoDup (DimLocation.location_id <$> _create_dim_location raw).
Proof.
  replace (DimLocation.location_id <$> _create_dim_location raw)
    with ((location_entry <$> _create_dim_location raw).*1)
    by (by rewrite <-list_fmap_compose).
  rewrite dim_location_entries, row_number_fst. apply NoDup_seqZ.
Qed.

Lemma dim_magnitude_ids_NoDup raw :
  NoDup (DimMagnitude.magnitude_id <$> _create_dim_magnitude raw).
Proof.
  replace (DimMagnitude.magnitude_id <$> _create_dim_magnitude raw)
    with ((magnitude_entry <$> _create_dim_magnitude raw).*1)
    by (by rewrite <-list_fmap_compose).
  rewrite dim_magnitude_entries, row_number_fst. apply NoDup_seqZ.
Qed.

Lemma left_join_references {D} (id : D → Z) (cond : D → bool) (dim : list D) x :
  NoDup (id <$> dim) → x ∈ left_join cond dim → references id dim (id <$> x).
Proof.
  intros Hn [[-> _]|(y & -> & Hy & _)]%elem_of_left_join n; [done|].
  intros [= <-]. exists y. split; [done|]. split; [done|].
  intros d' Hd' Heq. by apply (NoDup_fmap_elem_eq id dim).
Qed.

(** X17: referential integrity. In the fact table a [time_id],
    [location_id] or [magnitude_id] that is not NULL is the key of exactly one
    row of its dimension table. *)
Theorem fact_keys_reference raw :
  Forall (λ f,
    references DimTime.time_id (dim_time (create_star_schema raw))
      (Fact.time_id f) ∧
    references DimLocation.location_id (dim_location (create_star_schema raw))
      (Fact.location_id f) ∧
    references DimMagnitude.magnitude_id
      (dim_magnitude (create_star_schema raw)) (Fact.magnitude_id f))
    (fact_earthquakes (create_star_schema raw)).
Proof.
  apply Forall_forall. intros f Hf.
  apply fact_earthquakes_origin in Hf as (r & Hr & Hf).
  apply elem_of_fact_rows_of in Hf
    as (_ & t & l & m & [_ ->]%fact_select_Some & Ht & Hl & Hm).
  simpl. split; [|split].
  - by apply (left_join_references _ (on_time r)); [apply dim_time_ids_NoDup|].
  - by apply (left_join_references _ (on_location r));
      [apply dim_location_ids_NoDup|].
  - by apply (left_join_references _ (on_magnitude r));
      [apply dim_magnitude_ids_NoDup|].
Qed.

Lemma remove_dups_nil `{EqDecision A} (l : list A) :
  remove_dups l = [] ↔ l = [].
Proof.
  split; [|by intros ->].
  destruct l as [|x l]; [done|]. intros Hnil.
  assert (x ∈ remove_dups (x :: l)) as Hx
    by (apply elem_of_remove_dups, elem_of_cons; by left).
  rewrite Hnil in Hx. by apply elem_of_nil in Hx.
Qed.

(** X18: no table of the star schema has more rows than the raw table, and
    the build leaves an empty fact table exactly when no raw row has a
    datetime, a latitude, a longitude and a magnitude. *)
Theorem star_schema_sizes raw :
  (length (dim_time (create_star_schema raw)) ≤ length raw)%nat ∧
  (length (dim_location (create_star_schema raw)) ≤ length raw)%nat ∧
  (length (dim_magnitude (create_star_schema raw)) ≤ length raw)%nat ∧
  (length (fact_earthquakes (create_star_schema raw)) ≤ length raw)%nat ∧
  (fact_table (create_star_schema raw) = Some [] ↔
   Forall (λ r, ¬ prerequisites r) raw).
Proof.
  split; [|split; [|split; [|split]]].
  - simpl.
    rewrite <-(length_fmap time_entry), dim_time_entries, length_row_number.
    etrans; [apply length_remove_dups_le|apply length_omap_le].
  - simpl.
    rewrite <-(length_fmap location_entry), dim_location_entries,
      length_row_number.
    etrans; [apply length_remove_dups_le|apply length_omap_le].
  - simpl.
    rewrite <-(length_fmap magnitude_entry), dim_magnitude_entries,
      length_row_number.
    etrans; [apply length_remove_dups_le|apply length_omap_le].
  - unfold fact_earthquakes.
    destruct (fact_table (create_star_schema raw)) as [fact|] eqn:Hfact;
      simpl; [|lia].
    rewrite (length_fact_table _ _ Hfact).
    etrans; [apply length_remove_dups_le|].
    rewrite length_fmap. apply length_filter.
  - rewrite Forall_forall. split.
    + intros Hfact r Hr Hp.
      pose proof (length_fact_table _ _ Hfact) as Hlen. simpl in Hlen.
      symmetry in Hlen.
      apply length_zero_iff_nil, remove_dups_nil, fmap_nil_inv in Hlen.
      assert (r ∈ filter prerequisites raw) as Hin
        by (by apply list_elem_of_filter).
      rewrite Hlen in Hin. by apply elem_of_nil in Hin.
    + intros Hall.
      destruct (proj2 (fact_table_is_Some raw)) as [fact Hfact].
      { intros r Hr Hp. by destruct (Hall r Hr). }
      rewrite Hfact. f_equal. apply length_zero_iff_nil.
      rewrite (length_fact_table _ _ Hfact), filter_none; [done|].
      intros r Hr. by apply Hall.
Qed.

Lemma day_name_weekend dow :
  sql_in dow [6; 7] = true ↔
  day_name_of dow = Some "Saturday" ∨ day_name_of dow = Some "Sunday".
Proof.
  split.
  - destruct dow as [d|]; simpl; [|done].
    intros [->|[->|[]%elem_of_nil]%elem_of_cons]%bool_decide_eq_true%elem_of_cons;
      [by left|by right].
  - intros [H|H]; unfold day_name_of in H; repeat case_match; simplify_eq;
      by apply bool_decide_eq_true; set_solver.
Qed.

Lemma day_name_range dow :
  is_Some (day_name_of dow) ↔ ∃ d, dow = Some d ∧ 1 ≤ d ≤ 7.
Proof.
  split.
  - intros [s H]. unfold day_name_of in H.
    repeat case_match; simplify_eq; eexists; (split; [done|lia]).
  - intros (d & -> & Hd).
    assert (d = 1 ∨ d = 2 ∨ d = 3 ∨ d = 4 ∨ d = 5 ∨ d = 6 ∨ d = 7)
      as [->|[->|[->|[->|[->|[->| ->]]]]]] by lia; by eexists.
Qed.

(** X19: in [dim_time] a row is flagged as weekend exactly when its day name
    is Saturday or Sunday, and it has a day name exactly when its day of
    week is one of 1..7. *)
Theorem dim_time_weekend raw :
  Forall (λ t,
    (DimTime.is_weekend t = true ↔
     DimTime.day_name t = Some "Saturday" ∨
     DimTime.day_name t = Some "Sunday") ∧
    (is_Some (DimTime.day_name t) ↔
     ∃ d, DimTime.day_of_week t = Some d ∧ 1 ≤ d ≤ 7))
    (dim_time (create_star_schema raw)).
Proof.
  apply Forall_forall. intros t (n & k & -> & _)%elem_of_dim_time.
  destruct k as (dt & (((y & mo) & d) & h) & dow). simpl.
  split; [apply day_name_weekend|apply day_name_range].
Qed.

Section pipeline.
Variable strptime : string → option Z.
Variables dt_year dt_month dt_day dt_hour dt_weekday : Z → Z.
Variable moon_phase_degrees : Z → option Qc.

Local Abbreviation transform' :=
  (transform strptime dt_year dt_month dt_day dt_hour dt_weekday
     moon_phase_degrees).

Lemma transform_calendar cfg df out removed :
  transform' cfg df = Some (out, removed) → calendar_by_datetime out.
Proof.
  intros Ht r1 r2 H1 H2 Hdt.
  destruct (transform_Some_rows _ _ _ _ _ _ _ _ _ _ _ Ht) as (_ & _ & _ & Hrows).
  destruct (Hrows r1 H1) as ((t1 & Hd1 & Hy1 & Hm1 & Hday1 & Hh1 & Hw1) & _).
  destruct (Hrows r2 H2) as ((t2 & Hd2 & Hy2 & Hm2 & Hday2 & Hh2 & Hw2) & _).
  unfold time_key_of.
  rewrite Hd1, Hy1, Hm1, Hday1, Hh1, Hw1, Hd2, Hy2, Hm2, Hday2, Hh2, Hw2.
  rewrite Hd1, Hd2 in Hdt. by simplify_eq.
Qed.

Lemma transform_prerequisites cfg df out removed r :
  transform' cfg df = Some (out, removed) → r ∈ out →
  prerequisites r ∧ is_Some (Raw.magnitude_category r).
Proof.
  intros Ht Hr.
  destruct (transform_Some_rows _ _ _ _ _ _ _ _ _ _ _ Ht) as (_ & _ & _ & Hrows).
  destruct (Hrows r Hr)
    as ((t & Hd & _) & Hm & _ & Hlat & Hlon & _ & _ & Hcat & _).
  split; [|by rewrite Hcat].
  unfold prerequisites, within in *. rewrite Hd.
  by destruct (Raw.magnitude r), (Raw.latitude r), (Raw.longitude r).
Qed.

Lemma transform_num_stations cfg df out removed r :
  transform' cfg df = Some (out, removed) → r ∈ out →
  ∃ x, x ∈ df ∧ Raw.num_stations r = in_num_stations x.
Proof.
  rewrite transform_unfold. intros Ht Hr.
  apply fmap_Some in Ht as (rows & Hrows & [= -> ->]).
  apply list_elem_of_fmap in Hr as (e & -> & He).
  apply mapM_Some_1 in Hrows.
  destruct (Forall2_elem_of_r _ _ _ _ Hrows He) as (x & Hx & Hxe).
  apply list_elem_of_fmap in Hx as (x0 & -> & [_ Hx0]%list_elem_of_filter).
  exists x0. split; [done|].
  unfold enrich_row in Hxe. destruct (_ : option (option Z)); by simplify_eq/=.
Qed.

(** X20: the star schema built from what [transform] returns, where every
    station count of the input frame is NULL or within the 32-bit range of
    the [INTEGER] cast. The calendar columns are a function of the
    datetime, the fact build completes, every fact row has its three
    dimension keys resolved, every transformed row has its event id in the
    fact table, and the fact table has one row per event id of the
    transformed frame. *)
Theorem pipeline_fact_complete cfg df out removed :
  transform' cfg df = Some (out, removed) →
  (∀ x v, x ∈ df → in_num_stations x = Some v →
          -2147483648 ≤ v ≤ 2147483647) →
  calendar_by_datetime (load_raw_data out) ∧
  ∃ fact,
    fact_table (create_star_schema (load_raw_data out)) = Some fact ∧
    (∀ f, f ∈ fact →
       is_Some (Fact.time_id f) ∧ is_Some (Fact.location_id f) ∧
       is_Some (Fact.magnitude_id f)) ∧
    (∀ r, r ∈ out → Raw.event_id r ∈ Fact.event_id <$> fact) ∧
    length fact = length (remove_dups (Raw.event_id <$> out)).
Proof.
  intros Ht Hrange. unfold load_raw_data.
  split; [by eapply transform_calendar|].
  assert (∀ r, r ∈ out → fits_integer (Raw.num_stations r)) as Hfit.
  { intros r Hr. apply fits_integer_spec. intros v Hv.
    destruct (transform_num_stations _ _ _ _ _ Ht Hr) as (x & Hx & Heq).
    apply (Hrange x v Hx). congruence. }
  destruct (proj2 (fact_table_is_Some out)) as [fact Hfact]; [by auto|].
  exists fact. split; [done|]. split; [|split].
  - intros f (r & Hr & Hf)%(fact_table_origin out fact); [|done].
    destruct (fact_rows_of_keys _ _ _ Hr Hf) as (Htime & Hloc & Hmag).
    destruct (transform_prerequisites _ _ _ _ _ Ht Hr) as [_ [c Hc]].
    split; [done|]. split; [done|].
    destruct (Fact.magnitude_id f); [by eexists|].
    destruct Hmag as [Hmag _]. rewrite Hmag in Hc; done.
  - intros r Hr.
    destruct (transform_prerequisites _ _ _ _ _ Ht Hr) as [Hp _].
    destruct (fact_rows_of_inhabited out r Hp (Hfit r Hr)) as [f Hf].
    rewrite <-(fact_rows_of_event_id _ _ _ Hf).
    by apply (fact_row_survives out fact r f).
  - rewrite (length_fact_table _ _ Hfact), filter_all; [done|].
    intros r Hr. by apply (transform_prerequisites _ _ _ _ _ Ht Hr).
Qed.
End pipeline.

Lemma pipeline_fact_complete_witness :
  ∃ out,
    transform sample_strptime sample_calendar sample_calendar sample_calendar
      sample_calendar sample_calendar sample_moon default_validation
      [frame_row_at "usgs001" 35; frame_row_at "usgs002" 95]
    = Some (out, 1) ∧
    ∃ fact,
      fact_table (create_star_schema (load_raw_data out)) = Some fact ∧
      (∀ f, f ∈ fact →
         is_Some (Fact.time_id f) ∧ is_Some (Fact.location_id f) ∧
         is_Some (Fact.magnitude_id f)) ∧
      (∀ r, r ∈ out → Raw.event_id r ∈ Fact.event_id <$> fact) ∧
      length fact = length (remove_dups (Raw.event_id <$> out)).
Proof.
  eexists. split; [vm_compute; reflexivity|].
  refine (proj2 (pipeline_fact_complete sample_strptime sample_calendar
           sample_calendar sample_calendar sample_calendar sample_calendar
           sample_moon default_validation
           [frame_row_at "usgs001" 35; frame_row_at "usgs002" 95] _ 1
           eq_refl _)).
  intros x v Hx Hv.
  apply elem_of_cons in Hx as [->|Hx]; [discriminate|].
  apply list_elem_of_singleton in Hx as ->. discriminate.
Defined.

(** * [extract_multiple_csv] *)

Lemma read_frames_None files : read_frames files = None ↔ None ∈ files.
Proof.
  induction files as [|[df|] files IH]; simpl.
  - split; [done|by intros ?%elem_of_nil].
  - rewrite elem_of_cons, <-IH.
    destruct (read_frames files); simpl; split; try done.
    + by intros [?|?].
    + by right.
  - split; [|done]. intros _. apply elem_of_cons. by left.
Qed.

Lemma read_frames_Some files dfs :
  read_frames files = Some dfs →
  (None ∉ files) ∧ concat dfs = file_rows files ∧ Forall (λ df, df ≠ []) dfs.
Proof.
  revert dfs. induction files as [|[df|] files IH]; intros dfs; simpl.
  - intros [= <-]. split; [apply not_elem_of_nil|done].
  - destruct (read_frames files) as [dfs'|]; simpl; [|done].
    intros [= <-]. destruct (IH dfs' eq_refl) as (Hn & Hc & Hne).
    split; [|split].
    + by intros [?|?]%elem_of_cons.
    + unfold file_rows in *. csimpl. destruct df; simpl; by rewrite Hc.
    + destruct df; [done|]. by apply Forall_cons.
  - done.
Qed.

(** What [first_per_key] keeps: the rows whose key occurs neither among the
    keys seen nor earlier in the list. *)
Lemma elem_of_first_per_key_first {A K} `{EqDecision K} (key : A → K)
    seen (l : list A) x :
  x ∈ first_per_key key seen l ↔
  ∃ before after, l = before ++ x :: after ∧
                  (key x ∉ key <$> before) ∧ key x ∉ seen.
Proof.
  revert seen. induction l as [|y l IH]; intros seen; simpl.
  - split; [by intros ?%elem_of_nil|].
    intros (before & after & Hl & _). by destruct before.
  - case_decide as Hy.
    + rewrite IH. split.
      * intros (before & after & -> & Hb & Hs).
        exists (y :: before), after. split; [done|]. split; [|done].
        rewrite fmap_cons. intros [Heq|Hin]%elem_of_cons; [|done].
        by rewrite Heq in Hs.
      * intros (before & after & Hl & Hb & Hs).
        destruct before as [|z before]; simplify_eq/=; [done|].
        exists before, after. split; [done|]. split; [|done].
        intros Hin. apply Hb, elem_of_cons. by right.
    + rewrite elem_of_cons, IH. split.
      * intros [->|(before & after & -> & Hb & Hs)].
        -- exists [], l. split; [done|]. split; [apply not_elem_of_nil|done].
        -- exists (y :: before), after. split; [done|].
           rewrite fmap_cons. split.
           ++ intros [Heq|Hin]%elem_of_cons; [|done].
              apply Hs, elem_of_cons. by left.
           ++ intros Hin. apply Hs, elem_of_cons. by right.
      * intros (before & after & Hl & Hb & Hs).
        destruct before as [|z before]; simplify_eq/=; [by left|].
        right. exists before, after. split; [done|]. split.
        -- intros Hin. apply Hb, elem_of_cons. by right.
        -- intros [Heq|Hin]%elem_of_cons; [|done].
           apply Hb, elem_of_cons. by left.
Qed.

(** X21: [extract_multiple_csv] raises for a missing file exactly when one
    of the paths does not exist, whatever the other files hold; it raises
    for empty input exactly when every file exists and none has a row;
    otherwise the frame it returns is not empty, has no repeated id, and
    holds of the rows of the files exactly those whose id does not occur in
    an earlier row. *)
Theorem extract_multiple_csv_spec files :
  match extract_multiple_csv files with
  | FileNotFound => None ∈ files
  | AllFilesEmpty => (None ∉ files) ∧ file_rows files = []
  | Combined out =>
      (None ∉ files) ∧ out ≠ [] ∧
      NoDup (in_event_id <$> out) ∧
      (∀ r, r ∈ file_rows files →
            in_event_id r ∈ in_event_id <$> out) ∧
      ∀ r, r ∈ out ↔
           ∃ before after, file_rows files = before ++ r :: after ∧
                           in_event_id r ∉ in_event_id <$> before
  end.
Proof.
  unfold extract_multiple_csv.
  destruct (read_frames files) as [dfs|] eqn:Hread;
    [|by apply read_frames_None].
  destruct (read_frames_Some _ _ Hread) as (Hn & Hc & Hne).
  destruct dfs as [|df dfs]; [by rewrite <-Hc|].
  rewrite Hc. split; [done|]. split; [|split; [|split]].
  - apply Forall_cons in Hne as [Hdf _].
    destruct df as [|r df]; [done|]. intros Hnil.
    assert (r ∈ first_per_key in_event_id [] (file_rows files)) as Hr.
    { apply elem_of_first_per_key_first. exists [], (df ++ concat dfs).
      rewrite <-Hc. split; [done|]. split; apply not_elem_of_nil. }
    rewrite Hnil in Hr. by apply elem_of_nil in Hr.
  - apply first_per_key_NoDup.
  - intros r Hr. apply first_per_key_keys. split; [|apply not_elem_of_nil].
    apply list_elem_of_fmap. by exists r.
  - intros r. rewrite elem_of_first_per_key_first. split.
    + intros (before & after & ? & ? & _). by exists before, after.
    + intros (before & after & ? & ?). exists before, after.
      split; [done|]. split; [done|apply not_elem_of_nil].
Qed.

(** * [_create_date_chunks] *)





(** * The merged table under the star schema, and the region of a place *)

(** X23: after [merge_yearly_tables] has built [raw_earthquakes], a fact
    build over it that completes leaves as many fact rows as the merged
    table has rows with a datetime, a latitude, a longitude and a
    magnitude. *)
Theorem merged_fact_count store years year :
  year ∈ years → table_has_rows store (year_table year) →
  ∃ merged,
    merge_yearly_tables store years !! "raw_earthquakes" = Some merged ∧
    ∀ fact, fact_table (create_star_schema merged) = Some fact →
            length fact = length (filter prerequisites merged).
Proof.
  intros Hy Ht. unfold merge_yearly_tables.
  destruct (filter (table_has_rows store) (year_table <$> years))
    as [|t ts] eqn:Hex.
  { assert (year_table year ∈ filter (table_has_rows store) (year_table <$> years))
      as Hin.
    { apply list_elem_of_filter. split; [done|].
      apply list_elem_of_fmap. by exists year. }
    rewrite Hex in Hin. by apply elem_of_nil in Hin. }
  rewrite <-Hex. eexists. split; [apply lookup_insert_eq|].
  intros fact Hfact.
  rewrite (length_fact_table _ _ Hfact), remove_dups_NoDup;
    [by rewrite length_fmap|].
  eapply sublist_NoDup; [apply merge_distinct_spec|].
  apply fmap_sublist, sublist_filter.
Qed.

Lemma merged_fact_count_witness :
  ∃ merged,
    merge_yearly_tables two_year_store [2020; 2021] !! "raw_earthquakes"
    = Some merged ∧
    ∃ fact,
      fact_table (create_star_schema merged) = Some fact ∧
      length fact = 2%nat.
Proof.
  assert (2020 ∈ [2020; 2021]) as Hy by (apply elem_of_cons; by left).
  assert (table_has_rows two_year_store (year_table 2020)) as Ht.
  { apply (bool_decide_unpack _). vm_compute. exact I. }
  destruct (merged_fact_count two_year_store [2020; 2021] 2020 Hy Ht)
    as (merged & Hm & Hlen).
  exists merged. split; [exact Hm|].
  assert (merge_yearly_tables two_year_store [2020; 2021] !! "raw_earthquakes"
          = Some [sample_row "usgs001" 200 9 (Some "Light");
                  sample_row "usgs002" 300 7 (Some "Light")]) as Hm'
    by (vm_compute; reflexivity).
  rewrite Hm' in Hm. injection Hm as <-.
  eexists. split; [vm_compute; reflexivity|].
  apply (Hlen _ eq_refl).
Defined.

Lemma append_String b p t : String b p +:+ t = String b (p +:+ t).
Proof. reflexivity. Qed.

Lemma append_assoc p q r : p +:+ (q +:+ r) = (p +:+ q) +:+ r.
Proof. induction p as [|b p IH]; [done|]. by rewrite !append_String, IH. Qed.

Lemma string_drop_suffix n s : ∃ p, s = p +:+ string_drop n s.
Proof.
  revert s. induction n as [|n IH]; intros s.
  - exists EmptyString. by destruct s.
  - destruct s as [|a s]; [by exists EmptyString|]. simpl.
    destruct (IH s) as [p Hp]. exists (String a p).
    by rewrite append_String, <-Hp.
Qed.

Lemma split_last_go_suffix s0 s :
  ∀ skip cur,
  (∃ p, s0 = p +:+ cur) → (∃ p, s0 = p +:+ s) →
  ∃ p, s0 = p +:+ split_last_go skip cur s.
Proof.
  induction s as [|a s IH]; intros skip cur Hcur Hs; [done|].
  assert (∃ p, s0 = p +:+ s) as Hs'.
  { destruct Hs as [p ->]. exists (p +:+ String a EmptyString).
    by rewrite <-append_assoc. }
  simpl. destruct skip as [|k]; [|by apply IH].
  destruct (_ : bool) eqn:Hpre; [|by apply IH].
  apply IH; [|done].
  destruct Hs as [p ->].
  destruct (string_drop_suffix 4 (String a s)) as [q Hq].
  exists (p +:+ q). rewrite <-append_assoc.
  exact (f_equal (String.append p) Hq).
Qed.

Lemma prefix_inv (t s : string) :
  String.prefix t s = true → ∃ q, s = t +:+ q.
Proof.
  revert s. induction t as [|a t IH]; intros s; [by exists s|].
  destruct s as [|b s]; simpl; [done|].
  destruct (Ascii.ascii_dec a b) as [->|]; [|done].
  intros [q ->]%IH. by exists q.
Qed.

Lemma split_last_go_no_separator s cur :
  (∀ p q, s ≠ p +:+ " of " +:+ q) → split_last_go 0 cur s = cur.
Proof.
  induction s as [|a s IH]; intros Hno; [done|].
  assert (String.prefix " of " (String a s) = false) as Hpre.
  { destruct (String.prefix " of " (String a s)) eqn:Hpre; [|done].
    apply prefix_inv in Hpre as [q Hq]. by destruct (Hno EmptyString q). }
  change (split_last_go 0 cur (String a s))
    with (if String.prefix " of " (String a s)
          then split_last_go 3 (string_drop 4 (String a s)) s
          else split_last_go 0 cur s).
  rewrite Hpre. apply IH. intros p q ->.
  by destruct (Hno (String a p) q).
Qed.

(** X24: the region [_enrich_data] derives from a place is the end of the
    place: the place is some text followed by the region. A place in which
    " of " does not occur is its own region. *)
Theorem region_is_suffix place :
  (∃ p, place = p +:+ split_last place) ∧
  ((∀ p q, place ≠ p +:+ " of " +:+ q) → split_last place = place).
Proof.
  split.
  - apply split_last_go_suffix; by exists EmptyString.
  - apply split_last_go_no_separator.
Qed.
